(** * cinema_paris: the showtime aggregation pipeline

    A shallow embedding of [app/models/models.py] (the [Theater] methods),
    [app/services/cinema_service.py] (the aggregator and the translators)
    and [app/api/routes.py] (the [home] route), with the properties of the
    specification proved about it.

    Conventions of the embedding.
    - A Python [str] is a [string]; a character of the model is a code point
      below 256.
    - A loosely-structured upstream value (the result of [response.json()])
      is a [json]; JSON numbers are integers, floats are outside the model.
      A Python [dict] keeps its insertion order, so it is an association
      list; lookup takes the first binding of a key.
    - A Python exception is a value of [exn]; a function that can raise
      returns a [result].
    - Network access and the clock are effects on an abstract [World]; the
      [while True] loop of [get_showtimes] runs on fuel. *)

From Stdlib Require Import List String Ascii ZArith Bool Lia Arith.
From Stdlib Require Import Sorting.Sorted Permutation.
From Stdlib Require DecimalString DecimalPos.
Import ListNotations.

Set Warnings "-register-all".

Local Open Scope string_scope.
Local Open Scope Z_scope.
Local Open Scope list_scope.

(* ===================================================================== *)
(** ** Python strings *)
(* ===================================================================== *)

Module PyStr.

Definition chars : string -> list ascii := list_ascii_of_string.
Definition text : list ascii -> string := string_of_list_ascii.

Definition code (c : ascii) : N := N_of_ascii c.

(** [str.isspace] on the code points below 256. *)
Definition isspace (c : ascii) : bool :=
  let n := code c in
  ((9 <=? n) && (n <=? 13) || (28 <=? n) && (n <=? 32)
   || (n =? 133) || (n =? 160))%N.

(** The decimal value of a character: below 256 only '0'..'9' are
    decimal digits. *)
Definition digit_value (c : ascii) : option Z :=
  let n := code c in
  if ((48 <=? n) && (n <=? 57))%N then Some (Z.of_N n - 48) else None.

(** [is_prefix p l]: [l] starts with [p]. *)
Fixpoint is_prefix (p l : list ascii) : bool :=
  match p, l with
  | [], _ => true
  | _ :: _, [] => false
  | a :: p', b :: l' => Ascii.eqb a b && is_prefix p' l'
  end.

(** [sub in s] on character lists. *)
Fixpoint is_infix (sub l : list ascii) : bool :=
  is_prefix sub l ||
  match l with
  | [] => false
  | _ :: l' => is_infix sub l'
  end.

(** [s.split(sep)] for a non-empty [sep]: the pieces between the leftmost
    non-overlapping occurrences of [sep].  [cur] is the piece being read,
    [skip] counts the characters of a matched separator still to pass. *)
Fixpoint split_chars (sep l cur : list ascii) (skip : nat)
  : list (list ascii) :=
  match l with
  | [] => [cur]
  | c :: l' =>
      match skip with
      | S k => split_chars sep l' cur k
      | O =>
          if is_prefix sep l
          then cur :: split_chars sep l' [] (Nat.pred (List.length sep))
          else split_chars sep l' (cur ++ [c]) O
      end
  end.

(** The part of [l] before the first occurrence of [sep]; all of [l] when
    [sep] does not occur. *)
Fixpoint before_chars (sep l : list ascii) : list ascii :=
  if is_prefix sep l then []
  else match l with
       | [] => []
       | c :: l' => c :: before_chars sep l'
       end.

(** [s.split()]: the maximal runs of non-whitespace characters. *)
Fixpoint tokens (l cur : list ascii) : list (list ascii) :=
  match l with
  | [] => match cur with [] => [] | _ => [cur] end
  | c :: l' =>
      if isspace c
      then match cur with [] => tokens l' [] | _ => cur :: tokens l' [] end
      else tokens l' (cur ++ [c])
  end.

Fixpoint lstrip (l : list ascii) : list ascii :=
  match l with
  | c :: l' => if isspace c then lstrip l' else l
  | [] => []
  end.

Definition strip (l : list ascii) : list ascii :=
  rev (lstrip (rev (lstrip l))).

(** The digits of a decimal literal, read left to right into [acc]; a single
    underscore may stand between two digits. [after_digit] tells whether the
    previous character was a digit. *)
Fixpoint digits (l : list ascii) (acc : Z) (after_digit : bool) : option Z :=
  match l with
  | [] => if after_digit then Some acc else None
  | c :: l' =>
      match digit_value c with
      | Some d => digits l' (10 * acc + d) true
      | None =>
          if Ascii.eqb c "_" && after_digit
          then match l' with
               | [] => None
               | c' :: _ =>
                   match digit_value c' with
                   | Some _ => digits l' acc false
                   | None => None
                   end
               end
          else None
      end
  end.

(** [int(s)] in base 10: surrounding whitespace, an optional sign, digits.
    [None] stands for [ValueError].  (The interpreter's limit on the number
    of digits of a literal, 4300 by default, is not modelled.) *)
Definition int_of_chars (l : list ascii) : option Z :=
  match strip l with
  | [] => None
  | c :: r =>
      if Ascii.eqb c "-" then option_map Z.opp (digits r 0 false)
      else if Ascii.eqb c "+" then digits r 0 false
      else digits (c :: r) 0 false
  end.

(** The Python-level operations, on [string]. *)
Definition contains (sub s : string) : bool := is_infix (chars sub) (chars s).

Definition split (s sep : string) : list string :=
  map text (split_chars (chars sep) (chars s) [] O).

Definition split_ws (s : string) : list string :=
  map text (tokens (chars s) []).

Definition before (s sep : string) : string :=
  text (before_chars (chars sep) (chars s)).

(** The last whitespace-separated word of [s], if it has one. *)
Definition last_word (s : string) : option string :=
  match rev (split_ws s) with
  | w :: _ => Some w
  | [] => None
  end.

Definition join (sep : string) (l : list string) : string :=
  String.concat sep l.

(** [str(n)] for an integer. *)
Definition of_Z (n : Z) : string :=
  DecimalString.NilZero.string_of_int (Z.to_int n).

End PyStr.

(* ===================================================================== *)
(** ** Dictionaries, JSON values, exceptions *)
(* ===================================================================== *)

(** A [dict] with [str] keys, in insertion order. *)
Module Dict.
Section Ops.
Context {A : Type}.

Fixpoint lookup (k : string) (d : list (string * A)) : option A :=
  match d with
  | [] => None
  | (k', v) :: d' => if String.eqb k k' then Some v else lookup k d'
  end.

(** [k in d] *)
Definition mem (k : string) (d : list (string * A)) : bool :=
  match lookup k d with Some _ => true | None => false end.

(** [d[k] = v] for a key that is not in [d]: the binding goes last. *)
Definition add (k : string) (v : A) (d : list (string * A)) :=
  d ++ [(k, v)].

(** An in-place update of the value under [k]. *)
Fixpoint adjust (k : string) (f : A -> A) (d : list (string * A)) :=
  match d with
  | [] => []
  | (k', v) :: d' =>
      if String.eqb k k' then (k', f v) :: d' else (k', v) :: adjust k f d'
  end.

Definition keys (d : list (string * A)) : list string := map fst d.
Definition values (d : list (string * A)) : list A := map snd d.
End Ops.
End Dict.

Inductive json : Type :=
| JNull
| JBool (b : bool)
| JNum (n : Z)
| JStr (s : string)
| JArr (l : list json)
| JObj (d : list (string * json)).

Inductive exn : Type :=
| KeyError (key : string)
| AttributeError
| TypeError
| ValueError
| IndexError
| OverflowError
| ValidationError            (* pydantic, on building a model *)
| JSONDecodeError            (* response.json() *)
| TransportError             (* raised by the HTTP client itself *)
| Exception_ (msg : string). (* raise Exception(msg) *)

Inductive result (A : Type) : Type :=
| Ok (a : A)
| Raise (e : exn).
Arguments Ok {A} a.
Arguments Raise {A} e.

Definition bind {A B} (r : result A) (k : A -> result B) : result B :=
  match r with
  | Ok a => k a
  | Raise e => Raise e
  end.

Notation "'let*' x ':=' r 'in' k" := (bind r (fun x => k))
  (at level 10, x pattern, r at level 100, k at level 200).

Module Py.

(** Truth value of an object. *)
Definition truthy (j : json) : bool :=
  match j with
  | JNull => false
  | JBool b => b
  | JNum n => negb (n =? 0)
  | JStr s => negb (String.eqb s "")
  | JArr l => match l with [] => false | _ => true end
  | JObj d => match d with [] => false | _ => true end
  end.

(** [j.get(k, default)] *)
Definition get (j : json) (k : string) (default : json) : result json :=
  match j with
  | JObj d => Ok (match Dict.lookup k d with Some v => v | None => default end)
  | _ => Raise AttributeError
  end.

(** [j[k]] for a [str] key *)
Definition getitem (j : json) (k : string) : result json :=
  match j with
  | JObj d =>
      match Dict.lookup k d with Some v => Ok v | None => Raise (KeyError k) end
  | _ => Raise TypeError
  end.

(** [for x in j]: the elements of a list, the keys of a dict, the characters
    of a string. *)
Definition iter (j : json) : result (list json) :=
  match j with
  | JArr l => Ok l
  | JObj d => Ok (map JStr (Dict.keys d))
  | JStr s => Ok (map (fun c => JStr (String c "")) (PyStr.chars s))
  | _ => Raise TypeError
  end.

Definition as_int (j : json) : option Z :=
  match j with
  | JNum n => Some n
  | JBool b => Some (if b then 1 else 0)
  | _ => None
  end.

(** [a + b] *)
Definition add (a b : json) : result json :=
  match a, b with
  | JArr l1, JArr l2 => Ok (JArr (l1 ++ l2))
  | JStr s1, JStr s2 => Ok (JStr (s1 ++ s2)%string)
  | _, _ =>
      match as_int a, as_int b with
      | Some x, Some y => Ok (JNum (x + y))
      | _, _ => Raise TypeError
      end
  end.

(** [int(s)] for a [str] *)
Definition int_str (s : string) : result Z :=
  match PyStr.int_of_chars (PyStr.chars s) with
  | Some n => Ok n
  | None => Raise ValueError
  end.

(** [int(j)] *)
Definition int (j : json) : result Z :=
  match j with
  | JStr s => int_str s
  | JNum n => Ok n
  | JBool b => Ok (if b then 1 else 0)
  | _ => Raise TypeError
  end.

(** [k in j] for a [str] [k] *)
Definition contains (k : string) (j : json) : result bool :=
  match j with
  | JStr s => Ok (PyStr.contains k s)
  | JArr l =>
      Ok (existsb (fun x => match x with
                            | JStr s => String.eqb s k
                            | _ => false
                            end) l)
  | JObj d => Ok (Dict.mem k d)
  | _ => Raise TypeError
  end.

(** [j.split(sep)] *)
Definition split (j : json) (sep : string) : result (list string) :=
  match j with
  | JStr s => Ok (PyStr.split s sep)
  | _ => Raise AttributeError
  end.

(** [isinstance(j, list)] *)
Definition is_list (j : json) : bool :=
  match j with JArr _ => true | _ => false end.

(** *** [repr] and [str] *)

Definition hex_digit (n : N) : ascii :=
  ascii_of_N (if (n <? 10)%N then 48 + n else 87 + n).

Definition dquote : ascii := ascii_of_N 34.
Definition squote : ascii := ascii_of_N 39.
Definition backslash : ascii := ascii_of_N 92.

Definition printable (c : ascii) : bool :=
  let n := PyStr.code c in
  ((32 <=? n) && (n <? 127) || (161 <=? n) && negb (n =? 173))%N.

Definition escape_char (quote c : ascii) : list ascii :=
  let n := PyStr.code c in
  if Ascii.eqb c quote || Ascii.eqb c backslash then [backslash; c]
  else if (n =? 9)%N then [backslash; "t"%char]
  else if (n =? 10)%N then [backslash; "n"%char]
  else if (n =? 13)%N then [backslash; "r"%char]
  else if printable c then [c]
  else [backslash; "x"%char; hex_digit (n / 16); hex_digit (n mod 16)].

(** [repr(s)]: double quotes when [s] has a single quote and no double
    quote, single quotes otherwise. *)
Definition repr_str (s : string) : string :=
  let l := PyStr.chars s in
  let quote :=
    if existsb (Ascii.eqb squote) l && negb (existsb (Ascii.eqb dquote) l)
    then dquote else squote in
  PyStr.text ([quote] ++ flat_map (escape_char quote) l ++ [quote]).

Fixpoint repr (j : json) : string :=
  match j with
  | JNull => "None"
  | JBool true => "True"
  | JBool false => "False"
  | JNum n => PyStr.of_Z n
  | JStr s => repr_str s
  | JArr l => ("[" ++ PyStr.join ", " (map repr l) ++ "]")%string
  | JObj d =>
      ("{" ++ PyStr.join ", "
                (map (fun kv => repr_str (fst kv) ++ ": " ++ repr (snd kv)) d)
           ++ "}")%string
  end.

(** [str(j)], which an f-string applies to each field. *)
Definition str (j : json) : string :=
  match j with
  | JStr s => s
  | _ => repr j
  end.

End Py.

(* ===================================================================== *)
(** ** [datetime] *)
(* ===================================================================== *)

Module Datetime.

Record datetime : Type := mk {
  year : Z; month : Z; day : Z;
  hour : Z; minute : Z; second : Z
}.

Definition is_leap (y : Z) : bool :=
  (y mod 4 =? 0) && (negb (y mod 100 =? 0) || (y mod 400 =? 0)).

Definition days_in_month (y m : Z) : Z :=
  if m =? 2 then (if is_leap y then 29 else 28)
  else if (m =? 4) || (m =? 6) || (m =? 9) || (m =? 11) then 30
  else 31.

Definition days_before_year (y : Z) : Z :=
  let p := y - 1 in p * 365 + p / 4 - p / 100 + p / 400.

Definition days_before_month (y m : Z) : Z :=
  fold_left (fun acc k => acc + days_in_month y (Z.of_nat k))
            (seq 1 (Z.to_nat (m - 1))) 0.

(** [d.toordinal()]: 1 for 0001-01-01. *)
Definition toordinal (d : datetime) : Z :=
  days_before_year (year d) + days_before_month (year d) (month d) + day d.

Definition max_ordinal : Z := 3652059. (* 9999-12-31 *)

(** The year, month and day of an ordinal. *)
Definition ord2ymd (n : Z) : Z * Z * Z :=
  let n := n - 1 in
  let n400 := n / 146097 in let n := n mod 146097 in
  let n100 := n / 36524 in let n := n mod 36524 in
  let n4 := n / 1461 in let n := n mod 1461 in
  let n1 := n / 365 in let n := n mod 365 in
  let y := n400 * 400 + 1 + n100 * 100 + n4 * 4 + n1 in
  if (n1 =? 4) || (n100 =? 4) then (y - 1, 12, 31)
  else
    let m := fold_left (fun m k =>
                          if days_before_month y (Z.of_nat k) <=? n
                          then Z.of_nat k else m)
                       (seq 1 12) 1 in
    (y, m, n - days_before_month y m + 1).

(** [d + timedelta(days=n)] *)
Definition add_days (d : datetime) (n : Z) : result datetime :=
  let o := toordinal d + n in
  if (1 <=? o) && (o <=? max_ordinal) then
    let '(y, m, dd) := ord2ymd o in
    Ok (mk y m dd (hour d) (minute d) (second d))
  else Raise OverflowError.

(** [d.weekday()]: Monday is 0. *)
Definition weekday (d : datetime) : Z := (toordinal d + 6) mod 7.

Definition pad (width : nat) (n : Z) : string :=
  let s := PyStr.of_Z n in
  (PyStr.text (repeat "0"%char (width - String.length s)) ++ s)%string.

(** [d.strftime("%Y-%m-%d")] *)
Definition strftime_Ymd (d : datetime) : string :=
  (pad 4 (year d) ++ "-" ++ pad 2 (month d) ++ "-" ++ pad 2 (day d))%string.

(** [d.strftime("%H:%M")] *)
Definition strftime_HM (d : datetime) : string :=
  (pad 2 (hour d) ++ ":" ++ pad 2 (minute d))%string.

End Datetime.


(* ===================================================================== *)
(** ** The environment: upstream API, clock, library decoders *)
(* ===================================================================== *)

Import Datetime.

(** What [httpx] hands back for a GET: the status, the body as text and the
    body as [response.json()] reads it ([None] when it is not JSON). *)
Record response : Type := mk_response {
  status_code : Z;
  text : string;
  json_body : option json
}.

(** One entry of [cinemas.yml]. *)
Record cinema_info : Type := mk_cinema {
  cinema_name : string;
  cinema_coordinates : json
}.

(** Everything the code reaches outside itself.  The two decoders stand for
    standard-library calls:
    [strptime s fmt] is [datetime.strptime(s, fmt)], [None] on [ValueError];
    [b64decode_utf8 s] is [base64.b64decode(s).decode("utf-8")], [None] when
    either step raises [ValueError].  [http_get] is [client.get(url)], [None]
    when the client itself raises; [today] is [datetime.today()].
    [CINEMAS] is the configuration loaded at import. *)
Class Env : Type := {
  World : Type;
  http_get : string -> World -> option response * World;
  today : World -> datetime * World;
  strptime : string -> string -> option datetime;
  b64decode_utf8 : string -> option string;
  CINEMAS : list (string * cinema_info)
}.

(** The state threaded through a request: the world, and the record of the
    GETs made so far (ghost state, what a test reads off its mock). *)
Record state {E : Env} : Type := mk_state {
  world : World;
  calls : list (string * option response)
}.

(** An effectful computation; [None] for a loop that is still running when
    the fuel is spent. *)
Definition M {E : Env} (A : Type) : Type := state -> option (result A) * state.

Definition ret {E : Env} {A} (a : A) : M A := fun s => (Some (Ok a), s).

Definition lift {E : Env} {A} (r : result A) : M A := fun s => (Some r, s).

Definition out_of_fuel {E : Env} {A} : M A := fun s => (None, s).

Definition bindM {E : Env} {A B} (m : M A) (k : A -> M B) : M B :=
  fun s =>
    match m s with
    | (Some (Ok a), s') => k a s'
    | (Some (Raise e), s') => (Some (Raise e), s')
    | (None, s') => (None, s')
    end.

Notation "x <- m ;; k" := (bindM m (fun x => k))
  (at level 61, m at next level, right associativity).

(** [await client.get(url)] *)
Definition client_get {E : Env} (url : string) : M response :=
  fun s =>
    let (r, w) := http_get url (world s) in
    let s' := mk_state E w (calls s ++ [(url, r)]) in
    match r with
    | Some resp => (Some (Ok resp), s')
    | None => (Some (Raise TransportError), s')
    end.

(** [datetime.today()] *)
Definition datetime_today {E : Env} : M datetime :=
  fun s =>
    let (d, w) := today (world s) in
    (Some (Ok d), mk_state E w (calls s)).

(* ===================================================================== *)
(** ** app/models/models.py *)
(* ===================================================================== *)

Module Models.

Record Movie : Type := mk_Movie {
  title : string;
  runtime : Z;
  genres : list string;
  cast : list string;
  director : string;
  synopsis : string;
  affiche : string;
  wantToSee : Z;
  id : Z
}.

Record Theater : Type := mk_Theater {
  name : string;
  internal_id : string;
  location : option string
}.

Record Showtime : Type := mk_Showtime {
  movie : Movie;
  theater : Theater;
  start_at : datetime
}.

(** pydantic's check of a [str] field *)
Definition validate_str (j : json) : result string :=
  match j with
  | JStr s => Ok s
  | _ => Raise ValidationError
  end.

Fixpoint validate_str_list (l : list json) : result (list string) :=
  match l with
  | [] => Ok []
  | j :: l' =>
      match validate_str j, validate_str_list l' with
      | Ok s, Ok r => Ok (s :: r)
      | _, _ => Raise ValidationError
      end
  end.

(** [Movie(title=..., ...)] on the values [parse_movie] passes *)
Definition Movie_init (title : json) (runtime : Z) (genres : list json)
    (cast : list string) (director : string) (synopsis affiche : json)
    (wantToSee id : Z) : result Movie :=
  match validate_str title, validate_str_list genres,
        validate_str synopsis, validate_str affiche with
  | Ok t, Ok g, Ok s, Ok a => Ok (mk_Movie t runtime g cast director s a wantToSee id)
  | _, _, _, _ => Raise ValidationError
  end.

(** [Theater._parse_runtime] *)
Definition _parse_runtime (runtime_str : json) : result Z :=
  match runtime_str with
  | JNull => Ok 0
  | _ =>
      let hours := 0 in
      let minutes := 0 in
      let* has_h := Py.contains "h" runtime_str in
      let* hours :=
        if has_h then
          let* parts := Py.split runtime_str "h" in
          Py.int_str (nth 0 parts "")
        else Ok hours in
      let* has_min := Py.contains "min" runtime_str in
      let* minutes :=
        if has_min then
          let* parts := Py.split runtime_str "min" in
          match rev (PyStr.split_ws (nth 0 parts "")) with
          | last :: _ => Py.int_str last
          | [] => Raise IndexError
          end
        else Ok minutes in
      Ok (hours * 60 + minutes)
  end.

(** [Theater.parse_cast]: the loop, with [cast] the list built so far *)
Fixpoint parse_cast_loop (edges : list json) (cast : list string)
  : result (list string) :=
  match edges with
  | [] => Ok cast
  | node_dict :: rest =>
      let* node := Py.get node_dict "node" (JObj []) in
      let* actor_info := Py.get node "actor" (JObj []) in
      if Py.truthy actor_info then
        let* firstname := Py.get actor_info "firstName" (JStr " ") in
        let* lastname := Py.get actor_info "lastName" (JStr " ") in
        parse_cast_loop rest
          (cast ++ [if Py.truthy firstname && Py.truthy lastname
                    then (Py.str firstname ++ " " ++ Py.str lastname)%string
                    else "Unknown"])
      else parse_cast_loop rest cast
  end.

Definition parse_cast (edges : json) : result (list string) :=
  let* l := Py.iter edges in
  parse_cast_loop l [].

(** [Theater.parse_director] *)
Definition parse_director (credits : json) : result string :=
  match credits with
  | JArr (first :: _) =>
      let* person := Py.get first "person" (JObj []) in
      let* first_name := Py.get person "firstName" (JStr "Unknown") in
      let* last_name := Py.get person "lastName" (JStr "Unknown") in
      Ok (Py.str first_name ++ " " ++ Py.str last_name)%string
  | _ => Ok "Unknown"
  end.

Section WithEnv.
Context {E : Env}.

(** [Theater.decode_movie_id] *)
Definition decode_movie_id (encoded_id : json) : result Z :=
  let attempt :=
    match encoded_id with
    | JStr s =>
        match b64decode_utf8 s with
        | Some decoded => Py.int_str (last (PyStr.split decoded ":") "")
        | None => Raise ValueError
        end
    | _ => Raise TypeError
    end in
  match attempt with
  | Raise ValueError | Raise TypeError =>
      Raise (Exception_ ("Invalid movie ID format: " ++ Py.str encoded_id))
  | r => r
  end.

(** The comprehension [[genre["translate"] for genre in ...]] *)
Fixpoint genre_names (l : list json) : result (list json) :=
  match l with
  | [] => Ok []
  | genre :: rest =>
      let* g := Py.getitem genre "translate" in
      let* r := genre_names rest in
      Ok (g :: r)
  end.

(** [Theater.parse_movie] *)
Definition parse_movie (movie_info : json) : result Movie :=
  let* rt := Py.get movie_info "runtime" JNull in
  let* runtime := _parse_runtime rt in
  let* gs := Py.get movie_info "genres" (JArr []) in
  let* gl := Py.iter gs in
  let* genres := genre_names gl in
  let* c := Py.get movie_info "cast" (JObj []) in
  let* edges := Py.get c "edges" (JArr []) in
  let* cast := parse_cast edges in
  let* credits := Py.get movie_info "credits" (JArr []) in
  let* director := parse_director credits in
  let* affiche_info := Py.get movie_info "poster" JNull in
  let* affiche :=
    if Py.truthy affiche_info then Py.get affiche_info "url" (JStr "")
    else Ok (JStr "") in
  let* w := Py.get movie_info "wantToSee" (JNum 0) in
  let* want_to_see := Py.int w in
  let* i := Py.getitem movie_info "id" in
  let* movie_id := decode_movie_id i in
  let* t := Py.getitem movie_info "title" in
  let* syn := Py.get movie_info "synopsis" (JStr "") in
  Movie_init t runtime genres cast director syn affiche want_to_see movie_id.

(** The address [fetch_showtimes_page] builds *)
Definition page_url (self : Theater) (date : datetime) (page : Z) : string :=
  let datestr := strftime_Ymd date in
  ("https://www.allocine.fr/_/showtimes/theater-"
   ++ internal_id self ++ "/d-" ++ datestr
   ++ "/p-" ++ PyStr.of_Z page ++ "/")%string.

(** [Theater.fetch_showtimes_page] *)
Definition fetch_showtimes_page (self : Theater) (date : datetime) (page : Z)
  : M json :=
  let url := page_url self date page in
  response <- client_get url ;;
  if negb (status_code response =? 200) then
    lift (Raise (Exception_ ("Error: " ++ PyStr.of_Z (status_code response)
                             ++ " - " ++ text response)))
  else
    match json_body response with
    | Some data => ret data
    | None => lift (Raise JSONDecodeError)
    end.

(** The test that ends the pagination before a page is read *)
Definition no_showtimes (data : json) : result bool :=
  let* message := Py.get data "message" JNull in
  match message with
  | JStr m =>
      if String.eqb m "no.showtime.error" || String.eqb m "next.showtime.on"
      then Ok true
      else let* e := Py.get data "error" JNull in Ok (Py.truthy e)
  | _ => let* e := Py.get data "error" JNull in Ok (Py.truthy e)
  end.

(** [datetime.strptime(v, "%Y-%m-%dT%H:%M:%S")] *)
Definition parse_starts_at (v : json) : result datetime :=
  match v with
  | JStr s =>
      match strptime s "%Y-%m-%dT%H:%M:%S" with
      | Some d => Ok d
      | None => Raise ValueError
      end
  | _ => Raise TypeError
  end.

(** The inner loop of [get_showtimes], over one block's showtimes *)
Fixpoint showtime_loop (self : Theater) (movie : Movie)
    (showtime_list : list json) (showtimes : list Showtime)
  : result (list Showtime) :=
  match showtime_list with
  | [] => Ok showtimes
  | showtime_data :: rest =>
      let* v := Py.getitem showtime_data "startsAt" in
      let* start_time := parse_starts_at v in
      showtime_loop self movie rest
        (showtimes ++ [mk_Showtime movie self start_time])
  end.

(** The loop of [get_showtimes] over the blocks of one page *)
Fixpoint results_loop (self : Theater) (results : list json)
    (showtimes : list Showtime) : result (list Showtime) :=
  match results with
  | [] => Ok showtimes
  | movie_data :: rest =>
      let* movie_info := Py.getitem movie_data "movie" in
      let* movie := parse_movie movie_info in
      let* sh := Py.getitem movie_data "showtimes" in
      let* dubbed := Py.get sh "dubbed" (JArr []) in
      let* original := Py.get sh "original" (JArr []) in
      let* s1 := Py.add dubbed original in
      let* local := Py.get sh "local" (JArr []) in
      let* s2 := Py.add s1 local in
      let* showtime_list := Py.iter s2 in
      let* showtimes := showtime_loop self movie showtime_list showtimes in
      results_loop self rest showtimes
  end.

(** [page >= totalPages] as the response reports them *)
Definition last_page (data : json) : result bool :=
  let* pg := Py.getitem data "pagination" in
  let* p := Py.getitem pg "page" in
  let* p := Py.int p in
  let* tp := Py.getitem pg "totalPages" in
  let* tp := Py.int tp in
  Ok (p >=? tp).

(** [Theater.get_showtimes]: the [while True] loop, from [page] on *)
Fixpoint get_showtimes_loop (fuel : nat) (self : Theater) (date : datetime)
    (page : Z) (showtimes : list Showtime) : M (list Showtime) :=
  match fuel with
  | O => out_of_fuel
  | S fuel' =>
      data <- fetch_showtimes_page self date page ;;
      stop <- lift (no_showtimes data) ;;
      if stop : bool then ret showtimes
      else
        showtimes <- lift (let* results := Py.getitem data "results" in
                           let* l := Py.iter results in
                           results_loop self l showtimes) ;;
        last <- lift (last_page data) ;;
        if last : bool then ret showtimes
        else get_showtimes_loop fuel' self date (page + 1) showtimes
  end.

Definition get_showtimes (fuel : nat) (self : Theater) (date : datetime)
  : M (list Showtime) :=
  get_showtimes_loop fuel self date 1 [].

End WithEnv.
End Models.

(** The shape of an upstream page, as the specification gives it: what a
    response must hold for the paginator to read it to the end. *)
Module Upstream.
Section WithEnv.
Context {E : Env}.

(** A block of [results] as read: its movie, and the start times of its
    dubbed, original and local lists. *)
Record block_view : Type := mk_view {
  v_movie : Models.Movie;
  v_dubbed : list datetime;
  v_original : list datetime;
  v_local : list datetime
}.

Definition starts_at (j : json) (t : datetime) : Prop :=
  exists d s, j = JObj d
              /\ Dict.lookup "startsAt" d = Some (JStr s)
              /\ strptime s "%Y-%m-%dT%H:%M:%S" = Some t.

(** The list under key [k], empty when the key is absent *)
Definition slot (sh : list (string * json)) (k : string)
    (times : list datetime) : Prop :=
  exists l, match Dict.lookup k sh with Some x => x | None => JArr [] end
            = JArr l
            /\ Forall2 starts_at l times.

Definition reads_as (b : json) (v : block_view) : Prop :=
  exists bd mi sh,
    b = JObj bd
    /\ Dict.lookup "movie" bd = Some mi
    /\ Models.parse_movie mi = Ok (v_movie v)
    /\ Dict.lookup "showtimes" bd = Some (JObj sh)
    /\ slot sh "dubbed" (v_dubbed v)
    /\ slot sh "original" (v_original v)
    /\ slot sh "local" (v_local v).

(** The showtimes of a block: dubbed, then original, then local *)
Definition showtimes_of (self : Models.Theater) (v : block_view)
  : list Models.Showtime :=
  map (Models.mk_Showtime (v_movie v) self)
      (v_dubbed v ++ v_original v ++ v_local v).

(** The response says there is nothing (more) to read *)
Definition signals_end (d : list (string * json)) : Prop :=
  Dict.lookup "message" d = Some (JStr "no.showtime.error")
  \/ Dict.lookup "message" d = Some (JStr "next.showtime.on")
  \/ (exists v, Dict.lookup "error" d = Some v /\ Py.truthy v = true).

(** The response carries neither signal *)
Definition quiet (d : list (string * json)) : Prop :=
  (forall m, Dict.lookup "message" d = Some (JStr m) ->
             m <> "no.showtime.error" /\ m <> "next.showtime.on")
  /\ (forall v, Dict.lookup "error" d = Some v -> Py.truthy v = false).

(** The response is page [page] of [total] *)
Definition numbered (d : list (string * json)) (page total : Z) : Prop :=
  exists pg p tp,
    Dict.lookup "pagination" d = Some (JObj pg)
    /\ Dict.lookup "page" pg = Some p /\ Py.int p = Ok page
    /\ Dict.lookup "totalPages" pg = Some tp /\ Py.int tp = Ok total.

(** An ordinary page: no signal, blocks that read as [views], numbered *)
Definition is_page (d : list (string * json)) (views : list block_view)
    (page total : Z) : Prop :=
  quiet d
  /\ (exists blocks, Dict.lookup "results" d = Some (JArr blocks)
                     /\ Forall2 reads_as blocks views)
  /\ numbered d page total.

End WithEnv.
End Upstream.

(** The two components of a runtime text, as the specification reads them:
    the integer before the first "h", and the integer that is the last word
    before the first "min"; 0 for a marker that does not occur. *)
Module RuntimeText.

Definition hours_of (s : string) : result Z :=
  if PyStr.contains "h" s then Py.int_str (PyStr.before s "h") else Ok 0.

Definition minutes_of (s : string) : result Z :=
  if PyStr.contains "min" s then
    match PyStr.last_word (PyStr.before s "min") with
    | Some w => Py.int_str w
    | None => Raise IndexError
    end
  else Ok 0.

End RuntimeText.

(* ===================================================================== *)
(** ** app/services/cinema_service.py *)
(* ===================================================================== *)

Module CinemaService.

(** One aggregated entry: the [dict] built for a movie title. *)
Record Film : Type := mk_Film {
  title : string;
  duree : Z;
  genres : string;
  casting : string;
  realisateur : string;
  synopsis : string;
  affiche : string;
  director : string;
  wantToSee : Z;
  url : string;
  seances : list (string * list string)
}.

Definition set_seances (f : Film) (s : list (string * list string)) : Film :=
  mk_Film (title f) (duree f) (genres f) (casting f) (realisateur f)
          (synopsis f) (affiche f) (director f) (wantToSee f) (url f) s.

(** The entry created when a title is seen for the first time *)
Definition new_entry (movie : Models.Movie) : Film :=
  mk_Film (Models.title movie)
          (Models.runtime movie)
          (PyStr.join ", " (Models.genres movie))
          (PyStr.join ", " (Models.cast movie))
          (Models.director movie)
          (Models.synopsis movie)
          (Models.affiche movie)
          (Models.director movie)
          (Models.wantToSee movie)
          ("https://www.allocine.fr/film/fichefilm_gen_cfilm="
           ++ PyStr.of_Z (Models.id movie) ++ ".html")%string
          [].

(** The body of the loop [for showtime in showtimes] *)
Definition record (data : list (string * Film)) (showtime : Models.Showtime)
  : list (string * Film) :=
  let movie := Models.movie showtime in
  let theater := Models.theater showtime in
  let data :=
    if negb (Dict.mem (Models.title movie) data)
    then Dict.add (Models.title movie) (new_entry movie) data
    else data in
  let data :=
    Dict.adjust (Models.title movie)
      (fun e => if negb (Dict.mem (Models.name theater) (seances e))
                then set_seances e (Dict.add (Models.name theater) [] (seances e))
                else e) data in
  Dict.adjust (Models.title movie)
    (fun e => set_seances e
       (Dict.adjust (Models.name theater)
          (fun l => l ++ [strftime_HM (Models.start_at showtime)])
          (seances e))) data.

(** [sorted(l, key=key, reverse=True)]: the stable sort by decreasing key *)
Section Sorted.
Context {A : Type} (key : A -> Z).

Fixpoint insert_desc (x : A) (l : list A) : list A :=
  match l with
  | [] => [x]
  | y :: l' => if key y <=? key x then x :: l else y :: insert_desc x l'
  end.

Fixpoint sorted_desc (l : list A) : list A :=
  match l with
  | [] => []
  | x :: l' => insert_desc x (sorted_desc l')
  end.
End Sorted.

(** The fold and the sort of [get_all_showtimes], once the showtimes are in *)
Definition aggregate (showtimes : list Models.Showtime) : list Film :=
  let data := fold_left record showtimes [] in
  sorted_desc wantToSee (Dict.values data).

(** [translate_day] *)
Definition translate_day (weekday : Z) : string :=
  match weekday with
  | 0 => "lun" | 1 => "mar" | 2 => "mer" | 3 => "jeu"
  | 4 => "ven" | 5 => "sam" | 6 => "dim"
  | _ => "???"
  end.

Definition e_acute : ascii := ascii_of_N 233.
Definition u_circ : ascii := ascii_of_N 251.

(** [translate_month] *)
Definition translate_month (num : Z) : string :=
  match num with
  | 1 => "janv"
  | 2 => String "f" (String e_acute "vr")
  | 3 => "mars" | 4 => "avr" | 5 => "mai" | 6 => "juin" | 7 => "juil"
  | 8 => String "a" (String "o" (String u_circ "t"))
  | 9 => "sept" | 10 => "oct" | 11 => "nov"
  | 12 => String "d" (String e_acute "c")
  | _ => "???"
  end.

Section WithEnv.
Context {E : Env}.

Definition cinemas : list (string * string) :=
  map (fun kv => (fst kv, cinema_name (snd kv))) CINEMAS.

Definition theaters : list Models.Theater :=
  map (fun kv => Models.mk_Theater (snd kv) (fst kv) None) cinemas.

(** The loop [for theater in theaters: showtimes.extend(...)] *)
Fixpoint gather (fuel : nat) (ts : list Models.Theater) (date : datetime)
    (showtimes : list Models.Showtime) : M (list Models.Showtime) :=
  match ts with
  | [] => ret showtimes
  | theater :: rest =>
      l <- Models.get_showtimes fuel theater date ;;
      gather fuel rest date (showtimes ++ l)
  end.

(** [get_all_showtimes] *)
Definition get_all_showtimes (fuel : nat) (date : datetime) : M (list Film) :=
  showtimes <- gather fuel theaters date [] ;;
  ret (aggregate showtimes).

End WithEnv.
End CinemaService.

(** The words in which the specification describes the aggregate: the
    rank at which a title is first seen in the showtime list, and the start
    times of a title at a theater name, in arrival order. *)
Module Arrival.

(** The position of the first showtime whose movie has title [t]; the
    length of the list when there is none. *)
Fixpoint first_seen (showtimes : list Models.Showtime) (t : string) : nat :=
  match showtimes with
  | [] => O
  | s :: rest =>
      if String.eqb (Models.title (Models.movie s)) t then O
      else S (first_seen rest t)
  end.

Definition at_title_and_theater (t n : string) (s : Models.Showtime) : bool :=
  String.eqb (Models.title (Models.movie s)) t
  && String.eqb (Models.name (Models.theater s)) n.

(** The "HH:MM" start times of the showtimes of title [t] at the theater
    named [n], in the order of the list. *)
Definition times_at (showtimes : list Models.Showtime) (t n : string)
  : list string :=
  map (fun s => strftime_HM (Models.start_at s))
      (filter (at_title_and_theater t n) showtimes).

(** The position of the first showtime of title [t] at the theater named
    [n]; the length of the list when there is none. *)
Fixpoint first_at (showtimes : list Models.Showtime) (t n : string) : nat :=
  match showtimes with
  | [] => O
  | s :: rest =>
      if at_title_and_theater t n s then O else S (first_at rest t n)
  end.

(** A list as the value of a key: no key for the empty list *)
Definition nonempty {A} (l : list A) : option (list A) :=
  match l with
  | [] => None
  | _ => Some l
  end.

End Arrival.

(* ===================================================================== *)
(** ** app/api/routes.py *)
(* ===================================================================== *)

Module Routes.

Record DateEntry : Type := mk_DateEntry {
  jour : string;
  chiffre : Z;
  mois : string;
  choisi : bool;
  index : Z
}.

Record CinemaEntry : Type := mk_CinemaEntry {
  coordinates : json;
  description : string
}.

(** The context handed to the template [index.html] *)
Record Context : Type := mk_Context {
  films : list CinemaService.Film;
  dates : list DateEntry;
  cinemas : list CinemaEntry
}.

Section WithEnv.
Context {E : Env}.

(** [datetime.today() + timedelta(i)] *)
Definition today_plus (i : Z) : M datetime :=
  t <- datetime_today ;;
  lift (add_days t i).

(** The comprehension that builds [dates], over [range(7)] *)
Fixpoint dates_loop (delta : Z) (range : list Z) : M (list DateEntry) :=
  match range with
  | [] => ret []
  | i :: rest =>
      d1 <- today_plus i ;;
      d2 <- today_plus i ;;
      d3 <- today_plus i ;;
      r <- dates_loop delta rest ;;
      ret (mk_DateEntry (CinemaService.translate_day (weekday d1))
                        (day d2)
                        (CinemaService.translate_month (month d3))
                        (i =? delta)
                        i :: r)
  end.

(** [home]; the value is the context the template is rendered from. *)
Definition home (fuel : nat) (delta : Z) : M Context :=
  let delta := if delta >? 6 then 6 else delta in
  let delta := if delta <? 0 then 0 else delta in
  dates <- dates_loop delta [0; 1; 2; 3; 4; 5; 6] ;;
  date <- today_plus delta ;;
  films <- CinemaService.get_all_showtimes fuel date ;;
  let cinemas :=
    map (fun data => mk_CinemaEntry (cinema_coordinates data) (cinema_name data))
        (Dict.values CINEMAS) in
  ret (mk_Context films dates cinemas).

End WithEnv.
End Routes.

(* ===================================================================== *)
(** ** A test environment *)
(* ===================================================================== *)

(** Stand-ins for the upstream API, the clock and the two library decoders,
    in the manner of the mocks of [tests/]: the API is a table from address
    to response, the clock is stopped, and the decoders read the canonical
    forms only. *)
Module Mock.

Definition two_digits (a b : ascii) : option Z :=
  match PyStr.digit_value a, PyStr.digit_value b with
  | Some x, Some y => Some (10 * x + y)
  | _, _ => None
  end.

(** Reads "YYYY-MM-DDTHH:MM:SS", every field zero-padded. *)
Definition read_iso (s fmt : string) : option datetime :=
  if negb (String.eqb fmt "%Y-%m-%dT%H:%M:%S") then None else
  match PyStr.chars s with
  | [y1; y2; y3; y4; s1; m1; m2; s2; d1; d2; s3; h1; h2; s4; n1; n2; s5; c1; c2] =>
      if Ascii.eqb s1 "-" && Ascii.eqb s2 "-" && Ascii.eqb s3 "T"
         && Ascii.eqb s4 ":" && Ascii.eqb s5 ":" then
        match two_digits y1 y2, two_digits y3 y4, two_digits m1 m2,
              two_digits d1 d2, two_digits h1 h2, two_digits n1 n2,
              two_digits c1 c2 with
        | Some ya, Some yb, Some m, Some d, Some h, Some n, Some c =>
            let y := 100 * ya + yb in
            if (1 <=? y) && (1 <=? m) && (m <=? 12) && (1 <=? d)
               && (d <=? days_in_month y m) && (h <=? 23) && (n <=? 59)
               && (c <=? 59)
            then Some (Datetime.mk y m d h n c)
            else None
        | _, _, _, _, _, _, _ => None
        end
      else None
  | _ => None
  end.

Definition b64_value (c : ascii) : option N :=
  let n := PyStr.code c in
  if ((65 <=? n) && (n <=? 90))%N then Some (n - 65)%N
  else if ((97 <=? n) && (n <=? 122))%N then Some (n - 71)%N
  else if ((48 <=? n) && (n <=? 57))%N then Some (n + 4)%N
  else if (n =? 43)%N then Some 62%N
  else if (n =? 47)%N then Some 63%N
  else None.

(** Decodes padded base64 four characters at a time. *)
Fixpoint b64_bytes (fuel : nat) (l : list ascii) : option (list N) :=
  match fuel, l with
  | _, [] => Some []
  | S fuel', a :: b :: c :: d :: rest =>
      match b64_value a, b64_value b with
      | Some x, Some y =>
          let b1 := (x * 4 + y / 16)%N in
          if Ascii.eqb c "=" then
            match rest with
            | [] => if Ascii.eqb d "=" then Some [b1] else None
            | _ => None
            end
          else
            match b64_value c with
            | Some z =>
                let b2 := ((y mod 16) * 16 + z / 4)%N in
                if Ascii.eqb d "=" then
                  match rest with [] => Some [b1; b2] | _ => None end
                else
                  match b64_value d, b64_bytes fuel' rest with
                  | Some t, Some r => Some (b1 :: b2 :: ((z mod 4) * 64 + t)%N :: r)
                  | _, _ => None
                  end
            | None => None
            end
      | _, _ => None
      end
  | _, _ => None
  end.

(** Base64 to text, for text that is ASCII. *)
Definition read_b64 (s : string) : option string :=
  match b64_bytes (String.length s) (PyStr.chars s) with
  | Some bytes =>
      if forallb (fun b => (b <? 128)%N) bytes
      then Some (PyStr.text (map ascii_of_N bytes))
      else None
  | None => None
  end.

(** The environment: [table] answers the GETs, an address it does not list
    is a transport failure; [now] is the time of day; [config] is the loaded
    [cinemas.yml]. *)
Definition env (table : list (string * response)) (now : datetime)
    (config : list (string * cinema_info)) : Env :=
  {| World := unit;
     http_get := fun url w => (Dict.lookup url table, w);
     today := fun w => (now, w);
     strptime := read_iso;
     b64decode_utf8 := read_b64;
     CINEMAS := config |}.

Definition start (E : Env) (w : @World E) : @state E := mk_state E w [].

(** A movie record and a block, as the upstream API shapes them *)
Definition movie_json (id title : string) (want : Z) : json :=
  JObj [("id", JStr id); ("title", JStr title); ("wantToSee", JNum want)].

Definition starts (l : list string) : json :=
  JArr (map (fun s => JObj [("startsAt", JStr s)]) l).

Definition block (movie : json) (dubbed original local : list string) : json :=
  JObj [("movie", movie);
        ("showtimes", JObj [("dubbed", starts dubbed);
                            ("original", starts original);
                            ("local", starts local)])].

Definition page (blocks : list json) (n total : string) : json :=
  JObj [("results", JArr blocks);
        ("pagination", JObj [("page", JStr n); ("totalPages", JStr total)])].

Definition ok (body : json) : response := mk_response 200 "" (Some body).

(** The object a response carries *)
Definition body_of (r : response) : list (string * json) :=
  match json_body r with
  | Some (JObj d) => d
  | _ => []
  end.

(** *** The scenario of [test_get_showtimes]: one theater, two pages *)

Definition test_theater : Models.Theater :=
  Models.mk_Theater "Test Theater" "12345" (Some "Test Location").

Definition may_1 : datetime := Datetime.mk 2023 5 1 0 0 0.

Definition first_page : response :=
  ok (page [block (movie_json "TW92aWU6MTIz" "Test Movie" 0)
                  ["2023-05-01T10:00:00"] ["2023-05-01T12:00:00"]
                  ["2023-05-01T14:00:00"]] "1" "2").

Definition second_page : response :=
  ok (page [block (movie_json "TW92aWU6NDU2" "Another Movie" 0)
                  ["2023-05-01T16:00:00"] [] []] "2" "2").

Definition two_pages : Env :=
  env [(Models.page_url test_theater may_1 1, first_page);
       (Models.page_url test_theater may_1 2, second_page)]
      may_1 [("12345", mk_cinema "Test Theater" JNull)].

Definition test_movie : Models.Movie :=
  Models.mk_Movie "Test Movie" 0 [] [] "Unknown" "" "" 0 123.

Definition another_movie : Models.Movie :=
  Models.mk_Movie "Another Movie" 0 [] [] "Unknown" "" "" 0 456.

(** *** The scenario of [test_get_showtimes_no_results] *)

Definition nothing_today : response :=
  ok (JObj [("message", JStr "no.showtime.error")]).

Definition no_results : Env :=
  env [(Models.page_url test_theater may_1 1, nothing_today)]
      may_1 [("12345", mk_cinema "Test Theater" JNull)].

(** *** A page with a movie whose identifier is not base64 *)

Definition spoiled_page : response :=
  ok (page [block (movie_json "TW92aWU6MTIz" "Test Movie" 0)
                  ["2023-05-01T10:00:00"] [] [];
            block (movie_json "123" "Another Movie" 0)
                  ["2023-05-01T16:00:00"] [] []] "1" "1").

Definition spoiled : Env :=
  env [(Models.page_url test_theater may_1 1, spoiled_page)]
      may_1 [("12345", mk_cinema "Test Theater" JNull)].

(** *** An upstream that answers every address with page 1 of 2 *)

Definition stuck : Env :=
  {| World := unit;
     http_get := fun url w => (Some first_page, w);
     today := fun w => (may_1, w);
     strptime := read_iso;
     b64decode_utf8 := read_b64;
     CINEMAS := [("12345", mk_cinema "Test Theater" JNull)] |}.

(** *** A body that is not JSON *)

Definition not_json : Env :=
  env [(Models.page_url test_theater may_1 1,
        mk_response 200 "<html></html>" None)]
      may_1 [("12345", mk_cinema "Test Theater" JNull)].

(** *** A listing cut short: page 1 of 2, then the end signal *)

Definition cut_short : Env :=
  env [(Models.page_url test_theater may_1 1, first_page);
       (Models.page_url test_theater may_1 2, nothing_today)]
      may_1 [("12345", mk_cinema "Test Theater" JNull)].

(** *** Two theaters that share a title *)

Definition theater_a : Models.Theater := Models.mk_Theater "Studio A" "1" None.
Definition theater_b : Models.Theater := Models.mk_Theater "Studio B" "2" None.

Definition two_theaters_config : list (string * cinema_info) :=
  [("1", mk_cinema "Studio A" JNull); ("2", mk_cinema "Studio B" JNull)].

Definition two_theaters : Env :=
  env [(Models.page_url theater_a may_1 1,
        ok (page [block (movie_json "TW92aWU6MTIz" "Movie A" 100)
                        ["2023-05-01T10:00:00"] ["2023-05-01T12:00:00"] [];
                  block (movie_json "TW92aWU6NDU2" "Movie B" 100)
                        [] [] ["2023-05-01T14:00:00"]] "1" "1"));
       (Models.page_url theater_b may_1 1,
        ok (page [block (movie_json "TW92aWU6MTIz" "Movie A" 100)
                        ["2023-05-01T16:00:00"] [] [];
                  block (movie_json "TW92aWU6Nzg5" "Movie C" 200)
                        ["2023-05-01T18:30:00"] [] []] "1" "1"))]
      may_1 two_theaters_config.

(** The showtimes gathered there, and the state they are gathered in *)
Definition gathered : list Models.Showtime * @state two_theaters :=
  Eval vm_compute in
    match CinemaService.gather (E := two_theaters) 1
            (CinemaService.theaters (E := two_theaters)) may_1 []
            (start two_theaters tt) with
    | (Some (Ok l), s) => (l, s)
    | (_, s) => ([], s)
    end.

(** The visit of the first theater there, and then of the second *)
Definition visit_a : list Models.Showtime * @state two_theaters :=
  Eval vm_compute in
    match Models.get_showtimes (E := two_theaters) 1 theater_a may_1
            (start two_theaters tt) with
    | (Some (Ok l), s) => (l, s)
    | (_, s) => ([], s)
    end.

Definition visit_b : list Models.Showtime * @state two_theaters :=
  Eval vm_compute in
    match Models.get_showtimes (E := two_theaters) 1 theater_b may_1
            (snd visit_a) with
    | (Some (Ok l), s) => (l, s)
    | (_, s) => ([], s)
    end.

(** What [get_all_showtimes] returns there *)
Definition aggregated : list CinemaService.Film :=
  Eval vm_compute in CinemaService.aggregate (fst gathered).

(** The entry that comes first there *)
Definition top_entry : CinemaService.Film :=
  Eval vm_compute in
    hd (CinemaService.new_entry test_movie) aggregated.

(** *** The second theater answers 500 *)

Definition only_page : response :=
  ok (page [block (movie_json "TW92aWU6MTIz" "Movie A" 100)
                  ["2023-05-01T10:00:00"] [] []] "1" "1").

Definition server_error : response :=
  mk_response 500 "Internal Server Error" None.

Definition second_fails : Env :=
  env [(Models.page_url theater_a may_1 1, only_page);
       (Models.page_url theater_b may_1 1, server_error)]
      may_1 two_theaters_config.

(** The visit of the first theater there *)
Definition visit_before_failure
  : list Models.Showtime * @state second_fails :=
  Eval vm_compute in
    match Models.get_showtimes (E := second_fails) 1 theater_a may_1
            (start second_fails tt) with
    | (Some (Ok l), s) => (l, s)
    | (_, s) => ([], s)
    end.

(** *** The line drops after the first page *)

Definition line_drops : Env :=
  env [(Models.page_url test_theater may_1 1, first_page)]
      may_1 [("12345", mk_cinema "Test Theater" JNull)].

(** *** A week in which nothing plays *)

Definition may_7 : datetime := Datetime.mk 2023 5 7 0 0 0.

Definition quiet_week : Env :=
  env [(Models.page_url test_theater may_7 1, nothing_today)]
      may_1 [("12345", mk_cinema "Test Theater" JNull)].

(** The home page asked for with [delta = 10] there *)
Definition home_10 : option (result Routes.Context) * @state quiet_week :=
  Eval vm_compute in Routes.home (E := quiet_week) 1 10 (start quiet_week tt).

Definition context_10 : Routes.Context :=
  Eval vm_compute in
    match fst home_10 with
    | Some (Ok c) => c
    | _ => Routes.mk_Context [] [] []
    end.

End Mock.

(* ===================================================================== *)
(** ** Notions used in the statements and the proofs *)
(* ===================================================================== *)

(** What one showtime does to the entry of its title: make sure its theater
    has a list, and put the start time at the end of it. *)
Definition touch (x : Models.Showtime) (e : CinemaService.Film)
  : CinemaService.Film :=
  let n := Models.name (Models.theater x) in
  CinemaService.set_seances e
    (Dict.adjust n (fun l => l ++ [strftime_HM (Models.start_at x)])
       (if negb (Dict.mem n (CinemaService.seances e))
        then Dict.add n [] (CinemaService.seances e)
        else CinemaService.seances e)).

(** The state of [data] after the showtimes [p] have been folded in. *)
Definition agg_inv (p : list Models.Showtime)
    (data : list (string * CinemaService.Film)) : Prop :=
  Forall (fun kv => CinemaService.title (snd kv) = fst kv) data
  /\ NoDup (Dict.keys data)
  /\ (forall t, In t (Dict.keys data)
                <-> (Arrival.first_seen p t < List.length p)%nat)
  /\ StronglySorted
       (fun a b => (Arrival.first_seen p a < Arrival.first_seen p b)%nat)
       (Dict.keys data)
  /\ (forall t e, Dict.lookup t data = Some e ->
        NoDup (Dict.keys (CinemaService.seances e))
        /\ forall n, Dict.lookup n (CinemaService.seances e)
                     = Arrival.nonempty (Arrival.times_at p t n)).

(** The order of a sorted result: a larger key first, and among equal keys
    the one that came earlier. *)
Definition ranked_by {A} (key : A -> Z) (earlier : A -> A -> Prop) (a b : A)
  : Prop :=
  key a > key b \/ (key a = key b /\ earlier a b).

(** The exception [fetch_showtimes_page] raises on a response that is not
    a 200 *)
Definition http_failure (r : response) : exn :=
  Exception_ ("Error: " ++ PyStr.of_Z (status_code r) ++ " - " ++ text r).

(** A GET that was answered with status 200 *)
Definition answered_200 (c : string * option response) : bool :=
  match snd c with
  | Some r => status_code r =? 200
  | None => false
  end.

(** The exception an outcome carries, if it is one *)
Definition raised {A} (o : option (result A)) : option exn :=
  match o with
  | Some (Raise e) => Some e
  | _ => None
  end.

(** How the GETs of a computation and its outcome go together: every GET
    was answered 200, or all but the last were and the outcome is the
    exception of the last. *)
Definition fetch_discipline {A} (o : option (result A))
    (gets : list (string * option response)) : Prop :=
  Forall (fun c => answered_200 c = true) gets
  \/ (exists pre url r,
        gets = pre ++ [(url, Some r)]
        /\ Forall (fun c => answered_200 c = true) pre
        /\ status_code r <> 200
        /\ raised o = Some (http_failure r))
  \/ (exists pre url,
        gets = pre ++ [(url, None)]
        /\ Forall (fun c => answered_200 c = true) pre
        /\ raised o = Some TransportError).

(** A computation that keeps the discipline from every state *)
Definition disciplined {E : Env} {A} (m : M A) : Prop :=
  forall s : state,
    exists gets, calls (snd (m s)) = calls s ++ gets
                 /\ fetch_discipline (fst (m s)) gets.

(** The value in [0, 6] nearest to [delta] *)
Definition clamp (delta : Z) : Z := Z.max 0 (Z.min 6 delta).

(** The actor payload of an edge of the cast list: the value under "actor"
    in the object under "node", each an empty object when its key is
    absent. *)
Definition actor_of (edge actor : json) : Prop :=
  exists ed nd,
    edge = JObj ed
    /\ match Dict.lookup "node" ed with Some v => v | None => JObj [] end
       = JObj nd
    /\ match Dict.lookup "actor" nd with Some v => v | None => JObj [] end
       = actor.

(** What an edge adds to the cast: nothing when it has no actor payload,
    the full name when both names are non-empty strings, "Unknown" when a
    name is there but null, empty or otherwise false. *)
Inductive cast_entry : json -> list string -> Prop :=
| cast_skip edge actor :
    actor_of edge actor -> Py.truthy actor = false ->
    cast_entry edge []
| cast_named edge ad f l :
    actor_of edge (JObj ad) ->
    Dict.lookup "firstName" ad = Some (JStr f) ->
    Dict.lookup "lastName" ad = Some (JStr l) ->
    f <> "" -> l <> "" ->
    cast_entry edge [(f ++ " " ++ l)%string]
| cast_unknown edge ad k v :
    actor_of edge (JObj ad) ->
    k = "firstName" \/ k = "lastName" ->
    Dict.lookup k ad = Some v -> Py.truthy v = false ->
    cast_entry edge ["Unknown"].

(** A name as [parse_cast] and [parse_director] print it: two parts with a
    space between them *)
Definition two_part_name (s : string) : Prop :=
  exists a b, s = (a ++ " " ++ b)%string.

(** The value [j.get(k, default)] gives on an object *)
Definition get_or (d : list (string * json)) (k : string) (default : json)
  : json :=
  match Dict.lookup k d with
  | Some v => v
  | None => default
  end.

(** A listing as the upstream serves it from page [page] on: ordinary pages
    that each report more pages to come, closed by a page that reports it is
    the last or by a response that signals the end.  [views] are the blocks
    of the ordinary pages, in order; [gets] the GETs the listing takes. *)
Inductive listing {E : Env} (self : Models.Theater) (date : datetime)
  : Z -> World -> list Upstream.block_view -> World
    -> list (string * option response) -> Prop :=
| listing_end page w r w' d :
    http_get (Models.page_url self date page) w = (Some r, w') ->
    status_code r = 200 ->
    json_body r = Some (JObj d) ->
    Upstream.signals_end d ->
    listing self date page w [] w' [(Models.page_url self date page, Some r)]
| listing_last page w r w' d views reported total :
    http_get (Models.page_url self date page) w = (Some r, w') ->
    status_code r = 200 ->
    json_body r = Some (JObj d) ->
    Upstream.is_page d views reported total ->
    total <= reported ->
    listing self date page w views w'
      [(Models.page_url self date page, Some r)]
| listing_more page w r w1 d views reported total rest w2 gets :
    http_get (Models.page_url self date page) w = (Some r, w1) ->
    status_code r = 200 ->
    json_body r = Some (JObj d) ->
    Upstream.is_page d views reported total ->
    reported < total ->
    listing self date (page + 1) w1 rest w2 gets ->
    listing self date page w (views ++ rest) w2
      ((Models.page_url self date page, Some r) :: gets).

(** The addresses of [k] pages in a row, from page [page] on *)
Definition page_urls (self : Models.Theater) (date : datetime) (page : Z)
    (k : nat) : list string :=
  map (fun i => Models.page_url self date (page + Z.of_nat i)) (seq 0 k).

(** The exception that comes of a GET not answered 200 *)
Definition failure_of (r : option response) : exn :=
  match r with
  | Some resp => http_failure resp
  | None => TransportError
  end.

(** The theaters visited one after another, each giving its showtimes *)
Inductive tour {E : Env} (fuel : nat) (date : datetime)
  : list Models.Theater -> state -> list (list Models.Showtime) -> state
    -> Prop :=
| tour_nil s : tour fuel date [] s [] s
| tour_cons t ts s l s1 ls s2 :
    Models.get_showtimes fuel t date s = (Some (Ok l), s1) ->
    tour fuel date ts s1 ls s2 ->
    tour fuel date (t :: ts) s (l :: ls) s2.

(** An outcome that is not a value, at another type *)
Definition as_failure {A B} (o : option (result A)) : option (result B) :=
  match o with
  | Some (Raise e) => Some (Raise e)
  | _ => None
  end.

(** The number of start times an entry holds, and a result holds *)
Definition entry_times (e : CinemaService.Film) : nat :=
  list_sum (map (fun kv => List.length (snd kv)) (CinemaService.seances e)).

Definition total_times (out : list CinemaService.Film) : nat :=
  list_sum (map entry_times out).

(** The fields of an entry that do not depend on the showtimes' times and
    theaters are those of a movie *)
Definition shows_movie (e : CinemaService.Film) (m : Models.Movie) : Prop :=
  CinemaService.set_seances e [] = CinemaService.new_entry m.

(* ===================================================================== *)
(** ** The definitions at work *)
(* ===================================================================== *)

Example split_h : PyStr.split "1h 54min" "h" = ["1"; " 54min"].
Proof. reflexivity. Qed.

Example split_min : PyStr.split "1h 54min" "min" = ["1h 54"; ""].
Proof. reflexivity. Qed.

Example split_overlap : PyStr.split "aaa" "aa" = [""; "a"].
Proof. reflexivity. Qed.

Example split_ws_ex : PyStr.split_ws "  1h   54 " = ["1h"; "54"].
Proof. reflexivity. Qed.

Example int_ex :
  map (fun s => PyStr.int_of_chars (PyStr.chars s))
      [" 54 "; "-1"; "+07"; "1_000"; "1__0"; "_1"; "1_"; ""; "- 1"; "x"]
  = [Some 54; Some (-1); Some 7; Some 1000; None; None; None; None; None; None].
Proof. reflexivity. Qed.

Example of_Z_ex : map PyStr.of_Z [0; 7; -12; 200] = ["0"; "7"; "-12"; "200"].
Proof. reflexivity. Qed.

Example repr_ex :
  Py.repr (JObj [("a", JArr [JNum 1; JStr "it's"; JNull]); ("b", JBool true)])
  = PyStr.text (PyStr.chars "{'a': [1, " ++ [Py.dquote] ++ PyStr.chars "it's"
                ++ [Py.dquote] ++ PyStr.chars ", None], 'b': True}").
Proof. reflexivity. Qed.

Example weekday_ex :
  map Datetime.weekday
      [Datetime.mk 2023 5 1 0 0 0; Datetime.mk 2026 11 4 10 0 0;
       Datetime.mk 2000 1 1 0 0 0; Datetime.mk 1 1 1 0 0 0]
  = [0; 2; 5; 0].
Proof. reflexivity. Qed.

Example add_days_ex :
  map (fun p => Datetime.add_days (fst p) (snd p))
      [(Datetime.mk 2024 2 28 9 5 0, 2); (Datetime.mk 2023 12 31 0 0 0, 1);
       (Datetime.mk 2023 2 28 0 0 0, 1); (Datetime.mk 2024 12 30 0 0 0, 1);
       (Datetime.mk 9999 12 31 0 0 0, 1)]
  = [Ok (Datetime.mk 2024 3 1 9 5 0); Ok (Datetime.mk 2024 1 1 0 0 0);
     Ok (Datetime.mk 2023 3 1 0 0 0); Ok (Datetime.mk 2024 12 31 0 0 0);
     Raise OverflowError].
Proof. reflexivity. Qed.

Example strftime_ex :
  (Datetime.strftime_Ymd (Datetime.mk 2023 5 1 9 5 0),
   Datetime.strftime_HM (Datetime.mk 2023 5 1 9 5 0))
  = ("2023-05-01", "09:05").
Proof. reflexivity. Qed.

Example mock_strptime_ex :
  Mock.read_iso "2023-05-01T10:00:00" "%Y-%m-%dT%H:%M:%S"
  = Some (Datetime.mk 2023 5 1 10 0 0)
  /\ Mock.read_iso "2023-02-30T10:00:00" "%Y-%m-%dT%H:%M:%S" = None.
Proof. split; reflexivity. Qed.

Example mock_b64_ex :
  map Mock.read_b64 ["TW92aWU6MTIz"; "TW92aWU6NDU2"; "YQ=="; "123"]
  = [Some "Movie:123"; Some "Movie:456"; Some "a"; None].
Proof. reflexivity. Qed.

(** The assertions of [tests/test_models.py] on the runtime parser *)
Example test_parse_runtime :
  map Models._parse_runtime
      [JStr "1h 54min"; JStr "2h"; JStr "45min"; JStr ""; JStr "invalid"]
  = [Ok 114; Ok 120; Ok 45; Ok 0; Ok 0].
Proof. reflexivity. Qed.

Example parse_runtime_raises :
  map Models._parse_runtime
      [JStr "min"; JStr "1h30min"; JStr "abch"; JNum 90]
  = [Raise IndexError; Raise ValueError; Raise ValueError; Raise TypeError].
Proof. reflexivity. Qed.

Example parse_cast_ex :
  Models.parse_cast
    (JArr [JObj [("node", JObj [("actor", JObj [("firstName", JStr "Brad");
                                                ("lastName", JStr "Pitt")])])];
           JObj [("node", JObj [("actor", JNull)])];
           JObj [];
           JObj [("node", JObj [("actor", JObj [("firstName", JNull);
                                                ("lastName", JStr "Cher")])])];
           JObj [("node", JObj [("actor", JObj [("firstName", JStr "");
                                                ("lastName", JStr "Cher")])])]])
  = Ok ["Brad Pitt"; "Unknown"; "Unknown"].
Proof. reflexivity. Qed.

Example parse_director_ex :
  map Models.parse_director
      [JArr [JObj [("person", JObj [("firstName", JStr "Agnes");
                                    ("lastName", JStr "Varda")])]];
       JArr [JObj [("person", JObj [("lastName", JStr "Varda")])]];
       JArr []; JNull]
  = [Ok "Agnes Varda"; Ok "Unknown Varda"; Ok "Unknown"; Ok "Unknown"].
Proof. reflexivity. Qed.

(** The assertions of [tests/test_cinema_service.py] on the translators *)
Example test_translate_day :
  map CinemaService.translate_day [0; 1; 2; 3; 4; 5; 6; 7; -1]
  = ["lun"; "mar"; "mer"; "jeu"; "ven"; "sam"; "dim"; "???"; "???"].
Proof. reflexivity. Qed.

Example test_translate_month :
  map CinemaService.translate_month [1; 3; 11; 0; 13]
  = ["janv"; "mars"; "nov"; "???"; "???"].
Proof. reflexivity. Qed.

(** Two theaters that share a title: what the aggregator returns *)
Example aggregated_ex :
  map (fun e => (CinemaService.title e, CinemaService.wantToSee e,
                 CinemaService.seances e)) Mock.aggregated
  = [("Movie C", 200, [("Studio B", ["18:30"])]);
     ("Movie A", 100, [("Studio A", ["10:00"; "12:00"]);
                       ("Studio B", ["16:00"])]);
     ("Movie B", 100, [("Studio A", ["14:00"])])].
Proof. reflexivity. Qed.

(** Two theaters of one name share a key of the mapping *)
Example same_name_one_key :
  map (fun e => (CinemaService.title e, CinemaService.seances e))
      (CinemaService.aggregate
         [Models.mk_Showtime Mock.test_movie
            (Models.mk_Theater "Le Studio" "1" None)
            (Datetime.mk 2023 5 1 10 0 0);
          Models.mk_Showtime Mock.test_movie
            (Models.mk_Theater "Le Studio" "2" None)
            (Datetime.mk 2023 5 1 12 0 0)])
  = [("Test Movie", [("Le Studio", ["10:00"; "12:00"])])].
Proof. reflexivity. Qed.

(** The home page asked for with [delta = 10]: the seventh day is chosen *)
Example home_10_ex :
  map (fun d => (Routes.jour d, Routes.chiffre d, Routes.choisi d))
      (Routes.dates Mock.context_10)
  = [("lun", 1, false); ("mar", 2, false); ("mer", 3, false);
     ("jeu", 4, false); ("ven", 5, false); ("sam", 6, false);
     ("dim", 7, true)].
Proof. reflexivity. Qed.

(* ===================================================================== *)
(** ** Strings: what [split], [strip] and [int] keep *)
(* ===================================================================== *)

Lemma chars_text (l : list ascii) : PyStr.chars (PyStr.text l) = l.
Proof. apply list_ascii_of_string_of_list_ascii. Qed.

Lemma text_chars (s : string) : PyStr.text (PyStr.chars s) = s.
Proof. apply string_of_list_ascii_of_string. Qed.

Lemma split_chars_hd (sep l cur : list ascii) :
  hd [] (PyStr.split_chars sep l cur 0) = cur ++ PyStr.before_chars sep l.
Proof.
  revert cur; induction l as [|c l IH]; intros cur.
  - simpl. destruct (PyStr.is_prefix sep []); now rewrite app_nil_r.
  - cbn [PyStr.split_chars PyStr.before_chars].
    destruct (PyStr.is_prefix sep (c :: l)).
    + simpl. now rewrite app_nil_r.
    + rewrite IH, <- app_assoc. reflexivity.
Qed.

Lemma split_first (s sep : string) :
  nth 0 (PyStr.split s sep) "" = PyStr.before s sep.
Proof.
  unfold PyStr.split, PyStr.before.
  pose proof (split_chars_hd (PyStr.chars sep) (PyStr.chars s) []) as H.
  destruct (PyStr.split_chars _ _ [] 0) as [|p ps]; simpl in *; now rewrite <- H.
Qed.

Lemma before_chars_incl (sep l : list ascii) (c : ascii) :
  In c (PyStr.before_chars sep l) -> In c l.
Proof.
  induction l as [|a l IH]; simpl.
  - destruct (PyStr.is_prefix sep []); simpl; tauto.
  - destruct (PyStr.is_prefix sep (a :: l)); simpl; tauto.
Qed.

Lemma tokens_incl (l cur t : list ascii) (c : ascii) :
  In t (PyStr.tokens l cur) -> In c t -> In c l \/ In c cur.
Proof.
  revert cur; induction l as [|a l IH]; intros cur Ht Hc; simpl in Ht.
  - destruct cur; simpl in Ht; [tauto|].
    destruct Ht as [<-|[]]. now right.
  - destruct (PyStr.isspace a).
    + destruct cur as [|b cur].
      * destruct (IH _ Ht Hc) as [H|[]]. left; now right.
      * destruct Ht as [<-|Ht]; [now right|].
        destruct (IH _ Ht Hc) as [H|[]]. left; now right.
    + destruct (IH _ Ht Hc) as [H|H]; [left; now right|].
      apply in_app_or in H. destruct H as [H|[<-|[]]]; [now right|left; now left].
Qed.

Lemma lstrip_incl (l : list ascii) (c : ascii) :
  In c (PyStr.lstrip l) -> In c l.
Proof.
  induction l as [|a l IH]; simpl; [tauto|].
  destruct (PyStr.isspace a); simpl; tauto.
Qed.

Lemma strip_incl (l : list ascii) (c : ascii) :
  In c (PyStr.strip l) -> In c l.
Proof.
  unfold PyStr.strip. intros H.
  apply in_rev, lstrip_incl in H. apply in_rev in H.
  now apply lstrip_incl.
Qed.

Lemma digit_value_range (c : ascii) (d : Z) :
  PyStr.digit_value c = Some d -> 0 <= d <= 9.
Proof.
  unfold PyStr.digit_value.
  destruct (_ && _)%bool eqn:H; [|discriminate].
  intros [= <-]. apply andb_prop in H. destruct H as [H1 H2].
  apply N.leb_le in H1, H2. lia.
Qed.

Lemma digits_nonneg (l : list ascii) (acc : Z) (b : bool) (v : Z) :
  0 <= acc -> PyStr.digits l acc b = Some v -> 0 <= v.
Proof.
  revert acc b; induction l as [|c l IH]; intros acc b Hacc;
    cbn [PyStr.digits].
  - destruct b; [intros [= <-]; assumption | discriminate].
  - destruct (PyStr.digit_value c) as [d|] eqn:Hd.
    + apply digit_value_range in Hd. apply IH. lia.
    + destruct (_ && _)%bool; [|discriminate].
      destruct l as [|c' l']; [discriminate|].
      destruct (PyStr.digit_value c'); [|discriminate].
      now apply IH.
Qed.

Lemma int_of_chars_unsigned (l : list ascii) (v : Z) :
  ~ In "-"%char l -> PyStr.int_of_chars l = Some v -> 0 <= v.
Proof.
  unfold PyStr.int_of_chars. intros Hno.
  destruct (PyStr.strip l) as [|c r] eqn:Hs; [discriminate|].
  destruct (Ascii.eqb_spec c "-") as [->|Hc].
  - exfalso. apply Hno, strip_incl. rewrite Hs. now left.
  - destruct (Ascii.eqb c "+"); apply digits_nonneg; lia.
Qed.

Lemma is_infix_char (c : ascii) (l : list ascii) :
  PyStr.is_infix [c] l = false -> ~ In c l.
Proof.
  induction l as [|a l IH]; simpl; [tauto|].
  intros H. apply orb_false_elim in H. destruct H as [H1 H2].
  rewrite andb_true_r in H1. intros [->|Hin].
  - now rewrite Ascii.eqb_refl in H1.
  - now apply IH.
Qed.

Lemma int_str_unsigned (s : string) (v : Z) :
  ~ In "-"%char (PyStr.chars s) -> Py.int_str s = Ok v -> 0 <= v.
Proof.
  unfold Py.int_str. intros Hno.
  destruct (PyStr.int_of_chars _) eqn:H; [|discriminate].
  intros [= <-]. eapply int_of_chars_unsigned; eassumption.
Qed.

Lemma before_unsigned (s sep : string) :
  ~ In "-"%char (PyStr.chars s) ->
  ~ In "-"%char (PyStr.chars (PyStr.before s sep)).
Proof.
  unfold PyStr.before. rewrite chars_text.
  intros H Hin. apply H. eapply before_chars_incl; eassumption.
Qed.

Lemma last_word_unsigned (s w : string) :
  ~ In "-"%char (PyStr.chars s) -> PyStr.last_word s = Some w ->
  ~ In "-"%char (PyStr.chars w).
Proof.
  unfold PyStr.last_word, PyStr.split_ws. intros Hno.
  destruct (rev _) as [|x xs] eqn:Hr; [discriminate|]. intros [= <-] Hin.
  assert (Hx : In x (map PyStr.text (PyStr.tokens (PyStr.chars s) []))).
  { apply in_rev. rewrite Hr. now left. }
  apply in_map_iff in Hx. destruct Hx as (t & <- & Ht).
  rewrite chars_text in Hin.
  destruct (tokens_incl _ _ _ _ Ht Hin) as [H|[]]. now apply Hno.
Qed.

(* ===================================================================== *)
(** ** The runtime parser *)
(* ===================================================================== *)

(** The parser on a string is the two components put together. *)
Lemma parse_runtime_components (s : string) :
  Models._parse_runtime (JStr s) =
  let* hours := RuntimeText.hours_of s in
  let* minutes := RuntimeText.minutes_of s in
  Ok (hours * 60 + minutes).
Proof.
  unfold Models._parse_runtime, RuntimeText.hours_of, RuntimeText.minutes_of.
  cbn [Py.contains Py.split bind].
  rewrite !split_first. unfold PyStr.last_word.
  destruct (PyStr.contains "h" s); cbn [bind];
    [destruct (Py.int_str (PyStr.before s "h")); cbn [bind]; [|reflexivity]|];
    (destruct (PyStr.contains "min" s); cbn [bind]; [|reflexivity]);
    destruct (rev (PyStr.split_ws (PyStr.before s "min"))); reflexivity.
Qed.

(** C7. The runtime parser gives 114 for "1h 54min", 120 for "2h", 45 for
    "45min", 0 for the empty string and 0 for the absent value; on every
    string its result is hours * 60 + minutes, where a component whose
    marker ("h", "min") does not occur in the string is 0. *)
Theorem parse_runtime_hours_minutes :
  Models._parse_runtime (JStr "1h 54min") = Ok 114
  /\ Models._parse_runtime (JStr "2h") = Ok 120
  /\ Models._parse_runtime (JStr "45min") = Ok 45
  /\ Models._parse_runtime (JStr "") = Ok 0
  /\ Models._parse_runtime JNull = Ok 0
  /\ (forall s : string,
        Models._parse_runtime (JStr s) =
        let* hours := RuntimeText.hours_of s in
        let* minutes := RuntimeText.minutes_of s in
        Ok (hours * 60 + minutes))
  /\ (forall s : string,
        (PyStr.contains "h" s = false -> RuntimeText.hours_of s = Ok 0)
        /\ (PyStr.contains "min" s = false -> RuntimeText.minutes_of s = Ok 0)).
Proof.
  repeat split; try reflexivity.
  - apply parse_runtime_components.
  - unfold RuntimeText.hours_of. now intros ->.
  - unfold RuntimeText.minutes_of. now intros ->.
Qed.

Lemma parse_runtime_hours_minutes_witness :
  RuntimeText.hours_of "45min" = Ok 0
  /\ RuntimeText.minutes_of "2h" = Ok 0.
Proof.
  destruct parse_runtime_hours_minutes as (_ & _ & _ & _ & _ & _ & H).
  split.
  - apply (proj1 (H "45min")). reflexivity.
  - apply (proj2 (H "2h")). reflexivity.
Defined.

(** C4, as first stated: every value the parser returns is at least 0.
    It does not hold: [int] reads a sign, and "-1h" gives -60. *)
Lemma parse_runtime_negative :
  Models._parse_runtime (JStr "-1h") = Ok (-60)
  /\ ~ (forall (j : json) (r : Z),
          (j = JNull \/ exists s, j = JStr s) ->
          Models._parse_runtime j = Ok r -> 0 <= r).
Proof.
  split; [reflexivity|].
  intros H. specialize (H (JStr "-1h") (-60)).
  assert (0 <= -60); [|lia].
  apply H; [right; now exists "-1h" | reflexivity].
Qed.

(** C4, amended. For the absent value and for every string, a value the
    parser returns is an integer; it is at least 0 when the string has no
    minus sign. *)
Theorem parse_runtime_nonneg_unsigned (j : json) (r : Z) :
  (j = JNull \/ exists s, j = JStr s /\ PyStr.contains "-" s = false) ->
  Models._parse_runtime j = Ok r ->
  0 <= r.
Proof.
  intros [->|(s & -> & Hs)].
  - intros [= <-]. lia.
  - rewrite parse_runtime_components.
    apply is_infix_char in Hs.
    unfold RuntimeText.hours_of, RuntimeText.minutes_of.
    assert (Hh : forall h, (if PyStr.contains "h" s
                            then Py.int_str (PyStr.before s "h")
                            else Ok 0) = Ok h -> 0 <= h).
    { intros h. destruct (PyStr.contains "h" s).
      - apply int_str_unsigned. now apply before_unsigned.
      - intros [= <-]. lia. }
    destruct (if PyStr.contains "h" s then _ else _) as [h|]; [|discriminate].
    specialize (Hh h eq_refl). cbn [bind].
    destruct (PyStr.contains "min" s).
    + destruct (PyStr.last_word _) as [w|] eqn:Hw; [|discriminate].
      destruct (Py.int_str w) as [m|] eqn:Hm; [|discriminate].
      cbn [bind]. intros [= <-].
      apply int_str_unsigned in Hm; [lia|].
      eapply last_word_unsigned; [|eassumption]. now apply before_unsigned.
    + cbn [bind]. intros [= <-]. lia.
Qed.

Lemma parse_runtime_nonneg_unsigned_witness :
  Models._parse_runtime (JStr "1h 54min") = Ok 114 /\ 0 <= 114.
Proof.
  split; [reflexivity|].
  apply (parse_runtime_nonneg_unsigned (JStr "1h 54min") 114).
  - right. exists "1h 54min". split; reflexivity.
  - reflexivity.
Defined.




(* ===================================================================== *)
(** ** The cast *)
(* ===================================================================== *)

(** C6. [parse_cast] is to emit "Unknown" for an actor one of whose names
    is missing.  On an actor record with no "firstName" key it does not:
    the default the code puts in place of the name is a space, which is a
    true value, so the last name is emitted behind two spaces. *)
Theorem parse_cast_missing_first_name :
  Models.parse_cast
    (JArr [JObj [("node", JObj [("actor", JObj [("lastName", JStr "Pitt")])])]])
  = Ok ["  Pitt"]
  /\ Models.parse_cast
       (JArr [JObj [("node", JObj [("actor", JObj [("lastName", JStr "Pitt")])])]])
     <> Ok ["Unknown"].
Proof. split; [reflexivity | discriminate]. Qed.

(* ===================================================================== *)
(** ** Integers written and read back *)
(* ===================================================================== *)

Lemma chars_app (a b : string) :
  PyStr.chars (a ++ b)%string = PyStr.chars a ++ PyStr.chars b.
Proof.
  induction a as [|c a IH]; simpl; [reflexivity|]. now rewrite IH.
Qed.

Lemma digits_uint_acc (d : Decimal.uint) (acc : positive) :
  PyStr.digits (PyStr.chars (DecimalString.NilEmpty.string_of_uint d))
               (Zpos acc) true
  = Some (Zpos (Pos.of_uint_acc d acc)).
Proof.
  revert acc. induction d; intros acc; cbn [DecimalString.NilEmpty.string_of_uint
    PyStr.chars list_ascii_of_string PyStr.digits Pos.of_uint_acc];
    try reflexivity;
    (match goal with
     | |- context [PyStr.digit_value ?c] =>
         change (PyStr.digit_value c) with (Some (Z.of_N (PyStr.code c) - 48));
         cbv beta iota
     end;
     fold (PyStr.chars (DecimalString.NilEmpty.string_of_uint d));
     rewrite <- IHd; f_equal; cbn [PyStr.code N_of_ascii]; vm_compute (Z.of_N _ - 48); lia).
Qed.

Lemma digits_uint (d : Decimal.uint) (b : bool) :
  d <> Decimal.Nil \/ b = true ->
  PyStr.digits (PyStr.chars (DecimalString.NilEmpty.string_of_uint d)) 0 b
  = Some (Z.of_N (Pos.of_uint d)).
Proof.
  revert b. induction d; intros b Hb;
    cbn [DecimalString.NilEmpty.string_of_uint PyStr.chars
         list_ascii_of_string PyStr.digits Pos.of_uint];
    try (match goal with
         | |- context [PyStr.digit_value ?c] =>
             change (PyStr.digit_value c) with (Some (Z.of_N (PyStr.code c) - 48));
             cbv beta iota
         end;
         fold (PyStr.chars (DecimalString.NilEmpty.string_of_uint d))).
  - destruct Hb as [Hb| ->]; [now elim Hb | reflexivity].
  - apply IHd. now right.
  - apply (digits_uint_acc d 1).
  - apply (digits_uint_acc d 2).
  - apply (digits_uint_acc d 3).
  - apply (digits_uint_acc d 4).
  - apply (digits_uint_acc d 5).
  - apply (digits_uint_acc d 6).
  - apply (digits_uint_acc d 7).
  - apply (digits_uint_acc d 8).
  - apply (digits_uint_acc d 9).
Qed.

(** The characters of a decimal numeral are digits. *)
Lemma uint_chars_digits (d : Decimal.uint) :
  Forall (fun c => PyStr.digit_value c <> None)
         (PyStr.chars (DecimalString.NilEmpty.string_of_uint d)).
Proof.
  induction d; simpl; constructor; try assumption; discriminate.
Qed.

Lemma digit_not_space (c : ascii) :
  PyStr.digit_value c <> None -> PyStr.isspace c = false.
Proof.
  unfold PyStr.digit_value, PyStr.isspace.
  destruct (_ && _)%bool eqn:H; [intros _ | intros H'; now elim H'].
  apply andb_prop in H. destruct H as [H1 H2].
  apply N.leb_le in H1, H2.
  repeat (apply orb_false_intro || apply andb_false_intro2
          || apply andb_false_intro1); try (apply N.leb_gt; lia);
    try (apply N.eqb_neq; lia).
  all: try (apply andb_false_iff; right; apply N.leb_gt; lia).
Qed.

Lemma lstrip_id (l : list ascii) :
  Forall (fun c => PyStr.isspace c = false) l -> PyStr.lstrip l = l.
Proof.
  intros H. destruct H as [|c l Hc _]; simpl; [reflexivity|]. now rewrite Hc.
Qed.

Lemma strip_id (l : list ascii) :
  Forall (fun c => PyStr.isspace c = false) l -> PyStr.strip l = l.
Proof.
  intros H. unfold PyStr.strip. rewrite (lstrip_id l H).
  rewrite lstrip_id; [apply rev_involutive|].
  apply Forall_rev. exact H.
Qed.

Lemma uint_chars_nonempty (d : Decimal.uint) :
  d <> Decimal.Nil ->
  PyStr.chars (DecimalString.NilEmpty.string_of_uint d) <> [].
Proof. destruct d; simpl; intros H; [now elim H | discriminate ..]. Qed.

Lemma int_of_uint_chars (d : Decimal.uint) :
  d <> Decimal.Nil ->
  PyStr.int_of_chars (PyStr.chars (DecimalString.NilEmpty.string_of_uint d))
  = Some (Z.of_N (Pos.of_uint d)).
Proof.
  intros Hd. unfold PyStr.int_of_chars.
  pose proof (uint_chars_digits d) as Hdig.
  rewrite strip_id.
  2:{ eapply Forall_impl; [|exact Hdig]. intros c. apply digit_not_space. }
  rewrite <- (digits_uint d false) by now left.
  destruct (PyStr.chars _) as [|c r] eqn:Hc.
  - now apply uint_chars_nonempty in Hc.
  - inversion Hdig as [|? ? Hcd _]; subst.
    destruct (Ascii.eqb_spec c "-") as [->|_]; [now elim Hcd|].
    destruct (Ascii.eqb_spec c "+") as [->|_]; [now elim Hcd|].
    reflexivity.
Qed.

(** [int(str(n)) == n] *)
Lemma int_of_Z (n : Z) : Py.int_str (PyStr.of_Z n) = Ok n.
Proof.
  unfold Py.int_str, PyStr.of_Z.
  destruct n as [|p|p]; [reflexivity| |].
  - cbn [Z.to_int DecimalString.NilZero.string_of_int].
    pose proof (DecimalPos.Unsigned.to_uint_nonnil p) as Hp.
    assert (Hs : DecimalString.NilZero.string_of_uint (Pos.to_uint p)
                 = DecimalString.NilEmpty.string_of_uint (Pos.to_uint p)).
    { unfold DecimalString.NilZero.string_of_uint.
      destruct (Pos.to_uint p); try reflexivity. now elim Hp. }
    rewrite Hs, int_of_uint_chars, DecimalPos.Unsigned.of_to by assumption.
    reflexivity.
  - cbn [Z.to_int DecimalString.NilZero.string_of_int].
    pose proof (DecimalPos.Unsigned.to_uint_nonnil p) as Hp.
    assert (Hs : DecimalString.NilZero.string_of_uint (Pos.to_uint p)
                 = DecimalString.NilEmpty.string_of_uint (Pos.to_uint p)).
    { unfold DecimalString.NilZero.string_of_uint.
      destruct (Pos.to_uint p); try reflexivity. now elim Hp. }
    rewrite Hs. unfold PyStr.int_of_chars.
    cbn [PyStr.chars list_ascii_of_string].
    fold (PyStr.chars (DecimalString.NilEmpty.string_of_uint (Pos.to_uint p))).
    rewrite strip_id.
    2:{ constructor; [reflexivity|].
        eapply Forall_impl; [|apply uint_chars_digits].
        intros c. apply digit_not_space. }
    rewrite Ascii.eqb_refl, digits_uint by now left.
    rewrite DecimalPos.Unsigned.of_to. reflexivity.
Qed.

Lemma of_Z_inj (a b : Z) : PyStr.of_Z a = PyStr.of_Z b -> a = b.
Proof.
  intros H. pose proof (int_of_Z a) as Ha. rewrite H, int_of_Z in Ha.
  now injection Ha.
Qed.

(* ===================================================================== *)
(** ** Texts that hold a written integer *)
(* ===================================================================== *)

(** The characters [str(n)] is made of *)
Lemma of_Z_chars (n : Z) :
  Forall (fun c => PyStr.digit_value c <> None \/ c = "-"%char)
         (PyStr.chars (PyStr.of_Z n)).
Proof.
  unfold PyStr.of_Z. destruct n as [|p|p].
  - constructor; [left; discriminate | constructor].
  - cbn [Z.to_int DecimalString.NilZero.string_of_int].
    unfold DecimalString.NilZero.string_of_uint.
    destruct (Pos.to_uint p) eqn:Hu;
      [constructor; [left; discriminate | constructor] | rewrite <- Hu ..];
      (eapply Forall_impl; [|apply uint_chars_digits]; intros c Hc; now left).
  - cbn [Z.to_int DecimalString.NilZero.string_of_int].
    cbn [PyStr.chars list_ascii_of_string]. constructor; [now right|].
    fold (PyStr.chars (DecimalString.NilZero.string_of_uint (Pos.to_uint p))).
    unfold DecimalString.NilZero.string_of_uint.
    destruct (Pos.to_uint p) eqn:Hu;
      [constructor; [left; discriminate | constructor] | rewrite <- Hu ..];
      (eapply Forall_impl; [|apply uint_chars_digits]; intros c Hc; now left).
Qed.

Lemma of_Z_lacks (n : Z) (c : ascii) :
  PyStr.digit_value c = None -> c <> "-"%char ->
  ~ In c (PyStr.chars (PyStr.of_Z n)).
Proof.
  intros Hd Hm Hin. pose proof (of_Z_chars n) as H.
  rewrite Forall_forall in H. destruct (H c Hin); contradiction.
Qed.

Lemma of_Z_nonempty (n : Z) : PyStr.chars (PyStr.of_Z n) <> [].
Proof.
  intros H. pose proof (int_of_Z n) as Hn. unfold Py.int_str in Hn.
  rewrite H in Hn. discriminate.
Qed.

Lemma of_Z_no_space (n : Z) :
  Forall (fun c => PyStr.isspace c = false) (PyStr.chars (PyStr.of_Z n)).
Proof.
  eapply Forall_impl; [|apply of_Z_chars].
  intros c [H| ->]; [now apply digit_not_space | reflexivity].
Qed.

Lemma is_prefix_app (p r : list ascii) : PyStr.is_prefix p (p ++ r) = true.
Proof.
  induction p as [|c p IH]; simpl; [now destruct r|].
  now rewrite Ascii.eqb_refl, IH.
Qed.

Lemma is_infix_unfold (sep l : list ascii) :
  PyStr.is_infix sep l
  = (PyStr.is_prefix sep l
     || match l with [] => false | _ :: l' => PyStr.is_infix sep l' end)%bool.
Proof. destruct l; reflexivity. Qed.

Lemma is_infix_app (a sep r : list ascii) :
  PyStr.is_infix sep (a ++ sep ++ r) = true.
Proof.
  induction a as [|x a IH].
  - rewrite app_nil_l. now rewrite is_infix_unfold, is_prefix_app.
  - cbn [app]. rewrite is_infix_unfold, IH. apply orb_true_r.
Qed.

Lemma is_infix_lacks (c : ascii) (sep l : list ascii) :
  ~ In c l -> PyStr.is_infix (c :: sep) l = false.
Proof.
  induction l as [|x l IH]; intros H; simpl; [reflexivity|].
  rewrite IH by (intros Hin; apply H; now right).
  destruct (Ascii.eqb_spec c x) as [->|_]; [|reflexivity].
  exfalso. apply H. now left.
Qed.

Lemma before_chars_unfold (sep l : list ascii) :
  PyStr.before_chars sep l
  = if PyStr.is_prefix sep l then []
    else match l with
         | [] => []
         | c :: l' => c :: PyStr.before_chars sep l'
         end.
Proof. destruct l; reflexivity. Qed.

Lemma before_chars_app (c : ascii) (sep a r : list ascii) :
  ~ In c a ->
  PyStr.before_chars (c :: sep) (a ++ (c :: sep) ++ r) = a.
Proof.
  induction a as [|x a IH]; intros H.
  - rewrite app_nil_l, before_chars_unfold, is_prefix_app. reflexivity.
  - cbn [app PyStr.before_chars PyStr.is_prefix].
    destruct (Ascii.eqb_spec c x) as [->|_]; [exfalso; apply H; now left|].
    cbn [andb]. f_equal. apply IH. intros Hin. apply H. now right.
Qed.

Lemma before_chars_lacks (c : ascii) (sep l : list ascii) :
  ~ In c l -> PyStr.before_chars (c :: sep) l = l.
Proof.
  induction l as [|x l IH]; intros H; [reflexivity|].
  cbn [PyStr.before_chars PyStr.is_prefix].
  destruct (Ascii.eqb_spec c x) as [->|_]; [exfalso; apply H; now left|].
  cbn [andb]. f_equal. apply IH. intros Hin. apply H. now right.
Qed.

(** A run of characters with no whitespace is one word. *)
Lemma tokens_word (b cur : list ascii) :
  Forall (fun c => PyStr.isspace c = false) b ->
  cur ++ b <> [] ->
  PyStr.tokens b cur = [cur ++ b].
Proof.
  intros Hb. revert cur. induction Hb as [|c b Hc _ IH]; intros cur Hne; simpl.
  - rewrite app_nil_r in *. destruct cur; [now elim Hne | reflexivity].
  - rewrite Hc, IH, <- app_assoc; [reflexivity|].
    rewrite <- app_assoc. simpl. destruct cur; discriminate.
Qed.

Lemma tokens_app_space (l b cur : list ascii) (c : ascii) :
  PyStr.isspace c = true ->
  PyStr.tokens (l ++ c :: b) cur = PyStr.tokens l cur ++ PyStr.tokens b [].
Proof.
  intros Hc. revert cur. induction l as [|x l IH]; intros cur; simpl.
  - rewrite Hc. destruct cur; reflexivity.
  - destruct (PyStr.isspace x).
    + destruct cur; rewrite IH; reflexivity.
    + apply IH.
Qed.

(** The last word of a text that ends in a word *)
Lemma last_word_after_space (l b : list ascii) (c : ascii) :
  PyStr.isspace c = true ->
  Forall (fun c => PyStr.isspace c = false) b ->
  b <> [] ->
  PyStr.last_word (PyStr.text (l ++ c :: b)) = Some (PyStr.text b).
Proof.
  intros Hc Hb Hne. unfold PyStr.last_word, PyStr.split_ws.
  rewrite chars_text, tokens_app_space by assumption.
  rewrite (tokens_word b []) by assumption.
  rewrite map_app, rev_app_distr. reflexivity.
Qed.

Lemma last_word_alone (b : list ascii) :
  Forall (fun c => PyStr.isspace c = false) b ->
  b <> [] ->
  PyStr.last_word (PyStr.text b) = Some (PyStr.text b).
Proof.
  intros Hb Hne. unfold PyStr.last_word, PyStr.split_ws.
  rewrite chars_text, (tokens_word b []) by assumption. reflexivity.
Qed.

(** X1. A runtime written in the format of the docstring reads back: for
    all integers [h] and [m], the parser gives [h * 60 + m] on the text
    "<h>h <m>min", [h * 60] on "<h>h" and [m] on "<m>min", where <h> and <m>
    are [str(h)] and [str(m)]. *)
Theorem parse_runtime_written (h m : Z) :
  Models._parse_runtime
    (JStr (PyStr.of_Z h ++ "h " ++ PyStr.of_Z m ++ "min")) = Ok (h * 60 + m)
  /\ Models._parse_runtime (JStr (PyStr.of_Z h ++ "h")) = Ok (h * 60)
  /\ Models._parse_runtime (JStr (PyStr.of_Z m ++ "min")) = Ok m.
Proof.
  assert (Hh : forall n, ~ In "h"%char (PyStr.chars (PyStr.of_Z n)))
    by (intros n; apply of_Z_lacks; [reflexivity | discriminate]).
  assert (Hm : forall n, ~ In "m"%char (PyStr.chars (PyStr.of_Z n)))
    by (intros n; apply of_Z_lacks; [reflexivity | discriminate]).
  rewrite !parse_runtime_components.
  unfold RuntimeText.hours_of, RuntimeText.minutes_of, PyStr.contains,
    PyStr.before.
  rewrite !chars_app.
  change (PyStr.chars "h ") with ["h"; " "]%char.
  change (PyStr.chars "h") with ["h"]%char.
  change (PyStr.chars "min") with ["m"; "i"; "n"]%char.
  set (H := PyStr.chars (PyStr.of_Z h)).
  set (M := PyStr.chars (PyStr.of_Z m)).
  split; [|split].
  - (* "<h>h <m>min" *)
    change (H ++ ["h"; " "] ++ M ++ ["m"; "i"; "n"])%char
      with (H ++ ["h"] ++ (" " :: M ++ ["m"; "i"; "n"]))%char at 1 2.
    rewrite is_infix_app, before_chars_app by apply Hh.
    unfold H at 1. rewrite text_chars, int_of_Z. cbn [bind].
    replace (H ++ ["h"; " "] ++ M ++ ["m"; "i"; "n"])%char
      with ((H ++ ["h"; " "] ++ M) ++ ["m"; "i"; "n"] ++ [])%char
      by (rewrite <- !app_assoc; reflexivity).
    rewrite is_infix_app, before_chars_app.
    2:{ intros Hin. apply in_app_or in Hin. destruct Hin as [Hin|Hin];
          [now apply (Hm h)|].
        destruct Hin as [Hin|[Hin|Hin]]; try discriminate.
        now apply (Hm m). }
    replace (H ++ ["h"; " "] ++ M)%char with ((H ++ ["h"]) ++ " " :: M)%char
      by (rewrite <- !app_assoc; reflexivity).
    rewrite last_word_after_space;
      [|reflexivity | apply of_Z_no_space | apply of_Z_nonempty].
    unfold M. rewrite text_chars, int_of_Z. reflexivity.
  - (* "<h>h" *)
    change (H ++ ["h"])%char with (H ++ ["h"] ++ [])%char at 1 2.
    rewrite is_infix_app, before_chars_app by apply Hh.
    unfold H at 1. rewrite text_chars, int_of_Z. cbn [bind].
    rewrite is_infix_lacks.
    2:{ intros Hin. apply in_app_or in Hin.
        destruct Hin as [Hin|[Hin|[]]]; [now apply (Hm h) | discriminate]. }
    cbn [bind]. f_equal. lia.
  - (* "<m>min" *)
    rewrite is_infix_lacks.
    2:{ intros Hin. apply in_app_or in Hin.
        destruct Hin as [Hin|[Hin|[Hin|[Hin|[]]]]];
          [now apply (Hh m) | discriminate ..]. }
    cbn [bind].
    change (M ++ ["m"; "i"; "n"])%char with (M ++ ["m"; "i"; "n"] ++ [])%char.
    rewrite is_infix_app, before_chars_app by apply Hm.
    rewrite last_word_alone; [|apply of_Z_no_space | apply of_Z_nonempty].
    unfold M. rewrite text_chars, int_of_Z. reflexivity.
Qed.

(** X2. What the runtime parser raises: on a string only ValueError or
    IndexError, and IndexError only when "min" occurs in the string with no
    word before it; on a number or a boolean TypeError; on a list or an
    object AttributeError; on the absent value nothing. *)
Theorem parse_runtime_raises_only (j : json) (e : exn) :
  Models._parse_runtime j = Raise e ->
  match j with
  | JNull => False
  | JStr s =>
      e = ValueError
      \/ (e = IndexError
          /\ PyStr.contains "min" s = true
          /\ PyStr.last_word (PyStr.before s "min") = None)
  | JNum _ | JBool _ => e = TypeError
  | JArr _ | JObj _ => e = AttributeError
  end.
Proof.
  destruct j as [|b|n|s|l|d]; try discriminate.
  - now intros [= <-].
  - now intros [= <-].
  - rewrite parse_runtime_components.
    unfold RuntimeText.hours_of, RuntimeText.minutes_of, Py.int_str.
    destruct (PyStr.contains "h" s).
    + destruct (PyStr.int_of_chars _); cbn [bind];
        [|intros [= <-]; now left].
      destruct (PyStr.contains "min" s); [|discriminate].
      destruct (PyStr.last_word _) as [w|].
      * destruct (PyStr.int_of_chars _); cbn [bind];
          [discriminate | intros [= <-]; now left].
      * cbn [bind]. intros [= <-]. right. auto.
    + cbn [bind]. destruct (PyStr.contains "min" s); [|discriminate].
      destruct (PyStr.last_word _) as [w|].
      * destruct (PyStr.int_of_chars _); cbn [bind];
          [discriminate | intros [= <-]; now left].
      * cbn [bind]. intros [= <-]. right. auto.
  - unfold Models._parse_runtime. cbn [Py.contains bind].
    destruct (existsb _ l); cbn [bind Py.split].
    + now intros [= <-].
    + destruct (existsb _ l); cbn [bind]; [now intros [= <-] | discriminate].
  - unfold Models._parse_runtime. cbn [Py.contains bind].
    destruct (Dict.mem "h" d); cbn [bind Py.split].
    + now intros [= <-].
    + destruct (Dict.mem "min" d); cbn [bind]; [now intros [= <-] | discriminate].
Qed.

Lemma parse_runtime_raises_only_witness :
  Models._parse_runtime (JStr "min") = Raise IndexError
  /\ (IndexError = ValueError
      \/ (IndexError = IndexError
          /\ PyStr.contains "min" "min" = true
          /\ PyStr.last_word (PyStr.before "min" "min") = None)).
Proof.
  split; [reflexivity|].
  apply (parse_runtime_raises_only (JStr "min") IndexError). reflexivity.
Defined.

(* ===================================================================== *)
(** ** The movie parser *)
(* ===================================================================== *)

Lemma split_chars_nonempty (sep l cur : list ascii) (k : nat) :
  PyStr.split_chars sep l cur k <> [].
Proof.
  revert cur k. induction l as [|c l IH]; intros cur k; simpl; [discriminate|].
  destruct k; [|apply IH].
  destruct (PyStr.is_prefix sep (c :: l)); [discriminate | apply IH].
Qed.

Lemma split_single_lacks (c : ascii) (t cur : list ascii) :
  ~ In c t -> PyStr.split_chars [c] t cur 0 = [cur ++ t].
Proof.
  revert cur. induction t as [|x t IH]; intros cur H; simpl.
  - now rewrite app_nil_r.
  - destruct (Ascii.eqb_spec c x) as [->|_]; [exfalso; apply H; now left|].
    cbn [andb]. rewrite IH, <- app_assoc; [reflexivity|].
    intros Hin. apply H. now right.
Qed.

Lemma last_cons {A} (a : A) (l : list A) (d : A) :
  l <> [] -> last (a :: l) d = last l d.
Proof. destruct l; [intros H; now elim H | reflexivity]. Qed.

(** The last piece of a text cut at a character is what follows the last
    occurrence of the character. *)
Lemma split_single_last (c : ascii) (p t cur d : list ascii) :
  ~ In c t ->
  last (PyStr.split_chars [c] (p ++ c :: t) cur 0) d = t.
Proof.
  intros Ht. revert cur. induction p as [|x p IH]; intros cur.
  - cbn [app PyStr.split_chars PyStr.is_prefix].
    rewrite Ascii.eqb_refl. cbn [andb List.length Nat.pred].
    rewrite split_single_lacks by assumption. reflexivity.
  - cbn [app PyStr.split_chars PyStr.is_prefix].
    destruct (Ascii.eqb c x); cbn [andb List.length Nat.pred].
    + rewrite last_cons by apply split_chars_nonempty. apply IH.
    + apply IH.
Qed.

Lemma last_map {A B} (f : A -> B) (l : list A) (d : A) :
  last (map f l) (f d) = f (last l d).
Proof.
  induction l as [|a l IH]; [reflexivity|].
  destruct l; [reflexivity|]. exact IH.
Qed.

Lemma split_last_written (kind : string) (n : Z) :
  last (PyStr.split (kind ++ ":" ++ PyStr.of_Z n) ":") "" = PyStr.of_Z n.
Proof.
  unfold PyStr.split. rewrite !chars_app.
  change (PyStr.chars ":") with [":"%char]. change ""%string with (PyStr.text []).
  rewrite last_map. cbn [app].
  rewrite split_single_last; [apply text_chars|].
  apply of_Z_lacks; [reflexivity | discriminate].
Qed.

Section Movie.
Context {E : Env}.

(** X3. An identifier token that decodes to "<kind>:<n>", with <n> the
    decimal writing of an integer [n], is read as [n]; the part before the
    last colon does not matter. *)
Theorem decode_movie_id_written (token kind : string) (n : Z) :
  b64decode_utf8 token = Some (kind ++ ":" ++ PyStr.of_Z n)%string ->
  Models.decode_movie_id (JStr token) = Ok n.
Proof.
  intros H. unfold Models.decode_movie_id. rewrite H.
  now rewrite split_last_written, int_of_Z.
Qed.

(** X4. Whatever is wrong with an identifier (not a string, not base64,
    not UTF-8, no integer after the last colon), [decode_movie_id] raises
    the one exception "Invalid movie ID format: <identifier>"; it lets no
    ValueError or TypeError through. *)
Theorem decode_movie_id_failure (encoded_id : json) :
  (exists n, Models.decode_movie_id encoded_id = Ok n)
  \/ Models.decode_movie_id encoded_id
     = Raise (Exception_ ("Invalid movie ID format: " ++ Py.str encoded_id)).
Proof.
  unfold Models.decode_movie_id.
  destruct encoded_id as [|b|n|s|l|d]; try (right; reflexivity).
  destruct (b64decode_utf8 s) as [decoded|]; [|right; reflexivity].
  unfold Py.int_str. destruct (PyStr.int_of_chars _) as [n|].
  - left. now exists n.
  - right. reflexivity.
Qed.

End Movie.

Lemma decode_movie_id_written_witness :
  Models.decode_movie_id (E := Mock.two_pages) (JStr "TW92aWU6MTIz") = Ok 123.
Proof.
  apply (decode_movie_id_written (E := Mock.two_pages)
           "TW92aWU6MTIz" "Movie" 123).
  reflexivity.
Defined.

(* ===================================================================== *)
(** ** Cast and director *)
(* ===================================================================== *)

Lemma lookup_nonempty {A} (k : string) (d : list (string * A)) (v : A) :
  Dict.lookup k d = Some v -> d <> [].
Proof. destruct d; [discriminate | discriminate]. Qed.

Lemma str_truthy_nonempty (s : string) : s <> "" -> Py.truthy (JStr s) = true.
Proof.
  intros H. simpl. apply String.eqb_neq in H. now rewrite H.
Qed.

Lemma parse_cast_loop_entries edges outs acc :
  Forall2 cast_entry edges outs ->
  Models.parse_cast_loop edges acc = Ok (acc ++ List.concat outs).
Proof.
  intros H. revert acc. induction H as [|edge out edges outs He _ IH];
    intros acc.
  - simpl. now rewrite app_nil_r.
  - cbn [List.concat]. rewrite app_assoc, <- IH.
    destruct He as [edge actor (ed & nd & -> & Hn & Ha) Hf
                   |edge ad f l (ed & nd & -> & Hn & Ha) Hfn Hln Hf Hl
                   |edge ad k v (ed & nd & -> & Hn & Ha) Hk Hv Hf];
      cbn [Models.parse_cast_loop Py.get bind]; rewrite Hn;
      cbn [Py.get bind]; rewrite Ha.
    + rewrite Hf, app_nil_r. reflexivity.
    + assert (Hne : Py.truthy (JObj ad) = true).
      { apply lookup_nonempty in Hfn. now destruct ad. }
      rewrite Hne. cbn [Py.get bind]. rewrite Hfn, Hln.
      rewrite !str_truthy_nonempty by assumption. reflexivity.
    + assert (Hne : Py.truthy (JObj ad) = true).
      { apply lookup_nonempty in Hv. now destruct ad. }
      rewrite Hne. cbn [Py.get bind].
      destruct Hk as [-> | ->]; rewrite Hv, Hf; cbn [andb];
        [reflexivity | rewrite andb_false_r; reflexivity].
Qed.

(** X5. On a cast list every edge of which is an object, [parse_cast]
    gives, in the order of the edges: nothing for an edge with no actor
    payload (no "node", no "actor", or an actor that is null or empty); the
    name "first last" for an actor whose two names are non-empty strings;
    "Unknown" for an actor one of whose names is present but null or
    empty. *)
Theorem parse_cast_entries (edges : list json) (outs : list (list string)) :
  Forall2 cast_entry edges outs ->
  Models.parse_cast (JArr edges) = Ok (List.concat outs).
Proof.
  intros H. unfold Models.parse_cast. cbn [Py.iter bind].
  now rewrite (parse_cast_loop_entries edges outs []).
Qed.

Lemma parse_cast_entries_witness :
  Models.parse_cast
    (JArr [JObj [("node", JObj [("actor", JObj [("firstName", JStr "Brad");
                                                ("lastName", JStr "Pitt")])])];
           JObj [("node", JObj [("actor", JNull)])];
           JObj [("node", JObj [("actor", JObj [("firstName", JNull);
                                                ("lastName", JStr "Cher")])])]])
  = Ok ["Brad Pitt"; "Unknown"].
Proof.
  apply (parse_cast_entries _ [["Brad Pitt"]; []; ["Unknown"]]).
  constructor; [|constructor; [|constructor; [|constructor]]].
  - apply (cast_named _ [("firstName", JStr "Brad"); ("lastName", JStr "Pitt")]
             "Brad" "Pitt");
      [eexists _, _; repeat split; reflexivity | reflexivity | reflexivity
      | discriminate | discriminate].
  - apply (cast_skip _ JNull);
      [eexists _, _; repeat split; reflexivity | reflexivity].
  - apply (cast_unknown _ [("firstName", JNull); ("lastName", JStr "Cher")]
             "firstName" JNull);
      [eexists _, _; repeat split; reflexivity | now left | reflexivity
      | reflexivity].
Defined.

Lemma parse_cast_loop_bound edges acc cast :
  Models.parse_cast_loop edges acc = Ok cast ->
  exists added,
    cast = acc ++ added
    /\ (List.length added <= List.length edges)%nat
    /\ Forall (fun c => c = "Unknown" \/ two_part_name c) added.
Proof.
  revert acc. induction edges as [|edge edges IH]; intros acc; simpl.
  - intros [= <-]. exists []. rewrite app_nil_r. repeat split; constructor.
  - destruct (Py.get edge "node" (JObj [])) as [node|]; [|discriminate].
    cbn [bind].
    destruct (Py.get node "actor" (JObj [])) as [actor|]; [|discriminate].
    cbn [bind]. destruct (Py.truthy actor).
    + destruct (Py.get actor "firstName" (JStr " ")) as [f|]; [|discriminate].
      cbn [bind].
      destruct (Py.get actor "lastName" (JStr " ")) as [l|]; [|discriminate].
      cbn [bind]. intros H. apply IH in H.
      destruct H as (added & -> & Hlen & Hall).
      eexists (_ :: added). rewrite <- app_assoc. split; [reflexivity|].
      split; [simpl; lia|]. constructor; [|exact Hall].
      destruct (_ && _)%bool; [right; now eexists _, _ | now left].
    + intros H. apply IH in H. destruct H as (added & -> & Hlen & Hall).
      exists added. repeat split; [lia | exact Hall].
Qed.

(** X6. Whatever the edges hold, a cast that [parse_cast] returns has at
    most one name per edge, and each name is either "Unknown" or two parts
    with a space between them. *)
Theorem parse_cast_bound (edges : json) (cast : list string) :
  Models.parse_cast edges = Ok cast ->
  exists l,
    Py.iter edges = Ok l
    /\ (List.length cast <= List.length l)%nat
    /\ Forall (fun c => c = "Unknown" \/ two_part_name c) cast.
Proof.
  unfold Models.parse_cast.
  destruct (Py.iter edges) as [l|]; [|discriminate]. cbn [bind].
  intros H. apply parse_cast_loop_bound in H.
  destruct H as (added & -> & Hlen & Hall).
  exists l. repeat split; assumption.
Qed.

Lemma parse_cast_bound_witness :
  exists l,
    Py.iter (JArr [JObj []; JObj [("node", JObj [("actor", JObj [("lastName", JStr "Pitt")])])]])
    = Ok l
    /\ (List.length ["  Pitt"] <= List.length l)%nat
    /\ Forall (fun c => c = "Unknown" \/ two_part_name c) ["  Pitt"].
Proof.
  apply (parse_cast_bound
           (JArr [JObj []; JObj [("node", JObj [("actor", JObj [("lastName", JStr "Pitt")])])]])
           ["  Pitt"]).
  reflexivity.
Defined.

Lemma two_part_not_unknown (a b : string) :
  (a ++ " " ++ b)%string <> "Unknown".
Proof.
  intros H. apply (f_equal PyStr.chars) in H. rewrite !chars_app in H.
  assert (Hin : In " "%char (PyStr.chars "Unknown")).
  { rewrite <- H. apply in_or_app. right. now left. }
  simpl in Hin. repeat (destruct Hin as [Hin|Hin]; [discriminate|]). exact Hin.
Qed.

(** X7. [parse_director] raises nothing but AttributeError, and that only
    on a non-empty credits list; and the name it returns is the bare
    "Unknown" exactly when the credits are not a non-empty list: with a
    first credit the result always has two parts, each name that is absent
    standing as "Unknown". *)
Theorem parse_director_unknown (credits : json) :
  (forall e, Models.parse_director credits = Raise e ->
             e = AttributeError /\ exists first rest, credits = JArr (first :: rest))
  /\ (forall name, Models.parse_director credits = Ok name ->
        (name = "Unknown" <-> forall first rest, credits <> JArr (first :: rest))
        /\ (name <> "Unknown" -> two_part_name name))
  /\ (forall pd rest fields,
        credits = JArr (JObj fields :: rest) ->
        get_or fields "person" (JObj []) = JObj pd ->
        Models.parse_director credits
        = Ok (Py.str (get_or pd "firstName" (JStr "Unknown")) ++ " "
              ++ Py.str (get_or pd "lastName" (JStr "Unknown")))%string).
Proof.
  split; [|split].
  - intros e. destruct credits as [| | | |[|first rest]|]; try discriminate.
    cbn [Models.parse_director].
    destruct (Py.get first "person" (JObj [])) as [person|e1] eqn:H1.
    + cbn [bind]. destruct person; cbn [Py.get bind]; try discriminate;
        intros [= <-]; (split; [reflexivity | now eexists _, _]).
    + destruct first; try discriminate; cbn [Py.get] in H1;
        injection H1 as <-; cbn [bind]; intros [= <-];
        (split; [reflexivity | now eexists _, _]).
  - intros name. destruct credits as [| | | |[|first rest]|];
      try (intros [= <-]; split; [split; [intros _ ? ?; discriminate | reflexivity]
                                  | intros H; now elim H]).
    cbn [Models.parse_director].
    destruct (Py.get first "person" (JObj [])) as [person|]; [|discriminate].
    cbn [bind].
    destruct (Py.get person "firstName" (JStr "Unknown")) as [f|]; [|discriminate].
    cbn [bind].
    destruct (Py.get person "lastName" (JStr "Unknown")) as [l|]; [|discriminate].
    cbn [bind]. intros [= <-]. split; [split|].
    + intros H. now apply two_part_not_unknown in H.
    + intros H. now elim (H first rest).
    + intros _. now eexists _, _.
  - intros pd rest fields -> Hp. unfold get_or in *.
    cbn [Models.parse_director Py.get bind]. rewrite Hp. reflexivity.
Qed.

Lemma parse_director_unknown_witness :
  Models.parse_director
    (JArr [JObj [("person", JObj [("lastName", JStr "Varda")])]])
  = Ok "Unknown Varda".
Proof.
  apply (proj2 (proj2 (parse_director_unknown
                         (JArr [JObj [("person", JObj [("lastName", JStr "Varda")])]])))
           [("lastName", JStr "Varda")] []
           [("person", JObj [("lastName", JStr "Varda")])]);
    reflexivity.
Defined.

Section ParseMovie.
Context {E : Env}.

(** X8. A movie record that holds only an identifier and a title is
    parsed with every other field at its default: runtime 0, no genres, no
    cast, director "Unknown", empty synopsis, empty poster address, score
    0. *)
Theorem parse_movie_defaults
    (d : list (string * json)) (token : json) (t : string) (n : Z) :
  Dict.lookup "runtime" d = None ->
  Dict.lookup "genres" d = None ->
  Dict.lookup "cast" d = None ->
  Dict.lookup "credits" d = None ->
  Dict.lookup "poster" d = None ->
  Dict.lookup "wantToSee" d = None ->
  Dict.lookup "synopsis" d = None ->
  Dict.lookup "id" d = Some token ->
  Models.decode_movie_id token = Ok n ->
  Dict.lookup "title" d = Some (JStr t) ->
  Models.parse_movie (JObj d)
  = Ok (Models.mk_Movie t 0 [] [] "Unknown" "" "" 0 n).
Proof.
  intros Hr Hg Hc Hcr Hp Hw Hs Hi Hn Ht.
  unfold Models.parse_movie, Py.get, Py.getitem.
  rewrite Hr, Hg, Hc, Hcr, Hp, Hw, Hs, Hi, Ht. cbn [bind].
  cbn. rewrite Hn. reflexivity.
Qed.

(** X9. Where a movie parsed comes from: when [parse_movie] returns a
    movie, the record is an object; the movie's title is the string under
    "title"; its identifier is the decoding of the token under "id"; its
    runtime is the runtime parser's reading of the value under "runtime"
    (null when absent); its score is [int] of the value under "wantToSee"
    (0 when absent); its director is [parse_director] of the value under
    "credits"; and its synopsis is the string under "synopsis" (empty when
    absent). *)
Theorem parse_movie_fields (movie_info : json) (m : Models.Movie) :
  Models.parse_movie movie_info = Ok m ->
  exists d token,
    movie_info = JObj d
    /\ Dict.lookup "title" d = Some (JStr (Models.title m))
    /\ Dict.lookup "id" d = Some token
    /\ Models.decode_movie_id token = Ok (Models.id m)
    /\ Models._parse_runtime (get_or d "runtime" JNull) = Ok (Models.runtime m)
    /\ Py.int (get_or d "wantToSee" (JNum 0)) = Ok (Models.wantToSee m)
    /\ Models.parse_director (get_or d "credits" (JArr []))
       = Ok (Models.director m)
    /\ get_or d "synopsis" (JStr "") = JStr (Models.synopsis m).
Proof.
  unfold Models.parse_movie.
  destruct movie_info as [| | | | |d]; try discriminate.
  cbn [Py.get bind]. fold (get_or d "runtime" JNull).
  destruct (Models._parse_runtime _) as [rt|] eqn:Hrt; [|discriminate].
  cbn [bind].
  destruct (Py.iter _) as [gl|]; [|discriminate]. cbn [bind].
  destruct (Models.genre_names gl) as [genres|]; [|discriminate]. cbn [bind].
  destruct (Py.get _ "edges" _) as [edges|]; [|discriminate]. cbn [bind].
  destruct (Models.parse_cast edges) as [cast|]; [|discriminate]. cbn [bind].
  fold (get_or d "credits" (JArr [])).
  destruct (Models.parse_director _) as [dir|] eqn:Hdir; [|discriminate].
  cbn [bind].
  destruct (if Py.truthy _ then _ else _) as [aff|]; [|discriminate].
  cbn [bind]. fold (get_or d "wantToSee" (JNum 0)).
  destruct (Py.int _) as [w|] eqn:Hw; [|discriminate]. cbn [bind].
  unfold Py.getitem at 1.
  destruct (Dict.lookup "id" d) as [token|] eqn:Hid; [|discriminate].
  cbn [bind].
  destruct (Models.decode_movie_id token) as [n|] eqn:Hn; [|discriminate].
  cbn [bind]. unfold Py.getitem.
  destruct (Dict.lookup "title" d) as [t|] eqn:Ht; [|discriminate].
  cbn [bind].
  change (match Dict.lookup "synopsis" d with
          | Some v => v
          | None => JStr ""
          end) with (get_or d "synopsis" (JStr "")).
  unfold Models.Movie_init.
  destruct t as [| | |t| |]; try discriminate. cbn [Models.validate_str].
  destruct (Models.validate_str_list genres); [|discriminate].
  destruct (get_or d "synopsis" (JStr "")) as [| | |syn| |] eqn:Hsyn;
    try discriminate.
  cbn [Models.validate_str].
  destruct (Models.validate_str aff); [|discriminate].
  intros [= <-]. exists d, token.
  cbn [Models.title Models.id Models.runtime Models.wantToSee Models.director
       Models.synopsis].
  repeat split; assumption.
Qed.

End ParseMovie.

Lemma parse_movie_defaults_witness :
  Models.parse_movie (E := Mock.two_pages)
    (JObj [("id", JStr "TW92aWU6MTIz"); ("title", JStr "Test Movie")])
  = Ok (Models.mk_Movie "Test Movie" 0 [] [] "Unknown" "" "" 0 123).
Proof.
  apply (parse_movie_defaults (E := Mock.two_pages)
           [("id", JStr "TW92aWU6MTIz"); ("title", JStr "Test Movie")]
           (JStr "TW92aWU6MTIz") "Test Movie" 123); reflexivity.
Defined.

Lemma parse_movie_fields_witness :
  exists d token,
    Mock.movie_json "TW92aWU6MTIz" "Test Movie" 7 = JObj d
    /\ Dict.lookup "title" d = Some (JStr "Test Movie")
    /\ Dict.lookup "id" d = Some token
    /\ Models.decode_movie_id (E := Mock.two_pages) token = Ok 123
    /\ Models._parse_runtime (get_or d "runtime" JNull) = Ok 0
    /\ Py.int (get_or d "wantToSee" (JNum 0)) = Ok 7
    /\ Models.parse_director (get_or d "credits" (JArr [])) = Ok "Unknown"
    /\ get_or d "synopsis" (JStr "") = JStr "".
Proof.
  apply (parse_movie_fields (E := Mock.two_pages)
           (Mock.movie_json "TW92aWU6MTIz" "Test Movie" 7)
           (Models.mk_Movie "Test Movie" 0 [] [] "Unknown" "" "" 7 123)).
  reflexivity.
Defined.

(* ===================================================================== *)
(** ** The paginator *)
(* ===================================================================== *)

Section Pagination.
Context {E : Env}.
Import Upstream.

Lemma fetch_page_ok self date page (s : state) r w data :
  http_get (Models.page_url self date page) (world s) = (Some r, w) ->
  status_code r = 200 ->
  json_body r = Some data ->
  Models.fetch_showtimes_page self date page s
  = (Some (Ok data),
     mk_state E w (calls s ++ [(Models.page_url self date page, Some r)])).
Proof.
  intros Hget Hst Hbody.
  unfold Models.fetch_showtimes_page, bindM, client_get.
  rewrite Hget, Hst, Hbody. reflexivity.
Qed.

Lemma no_showtimes_end d :
  signals_end d -> Models.no_showtimes (JObj d) = Ok true.
Proof.
  unfold Models.no_showtimes, Py.get. cbn [bind].
  intros [H|[H|(v & Hv & Ht)]].
  - now rewrite H.
  - now rewrite H.
  - rewrite Hv, Ht.
    destruct (Dict.lookup "message" d) as [[| | |m| |]|]; try reflexivity.
    destruct (_ || _)%bool; reflexivity.
Qed.

Lemma no_showtimes_quiet d :
  quiet d -> Models.no_showtimes (JObj d) = Ok false.
Proof.
  unfold Models.no_showtimes, Py.get. cbn [bind]. intros [Hm He].
  assert (Herr : Py.truthy (match Dict.lookup "error" d with
                            | Some v => v | None => JNull end) = false).
  { destruct (Dict.lookup "error" d) as [v|]; [now apply He | reflexivity]. }
  destruct (Dict.lookup "message" d) as [[| | |m| |]|]; rewrite ?Herr;
    try reflexivity.
  destruct (Hm m eq_refl) as [H1 H2].
  apply String.eqb_neq in H1, H2. now rewrite H1, H2.
Qed.

Lemma last_page_numbered d page total :
  numbered d page total -> Models.last_page (JObj d) = Ok (page >=? total).
Proof.
  intros (pg & p & tp & Hpg & Hp & Hpi & Htp & Htpi).
  unfold Models.last_page, Py.getitem. rewrite Hpg. cbn [bind].
  rewrite Hp. cbn [bind]. rewrite Hpi. cbn [bind].
  rewrite Htp. cbn [bind]. rewrite Htpi. reflexivity.
Qed.

(** The inner loop appends one showtime per entry, in the order of the
    entries. *)
Lemma showtime_loop_reads self movie l times acc :
  Forall2 starts_at l times ->
  Models.showtime_loop self movie l acc
  = Ok (acc ++ map (Models.mk_Showtime movie self) times).
Proof.
  intros H; revert acc.
  induction H as [|j t l times (d & s & -> & Hd & Hs) _ IH]; intros acc.
  - simpl. now rewrite app_nil_r.
  - cbn [Models.showtime_loop Py.getitem]. rewrite Hd. cbn [bind].
    unfold Models.parse_starts_at. rewrite Hs. cbn [bind].
    rewrite IH, <- app_assoc. reflexivity.
Qed.

(** The loop over blocks appends each block's showtimes, block after
    block. *)
Lemma results_loop_reads self blocks views acc :
  Forall2 reads_as blocks views ->
  Models.results_loop self blocks acc
  = Ok (acc ++ flat_map (showtimes_of self) views).
Proof.
  intros H; revert acc.
  induction H as [|b v blocks views Hb _ IH]; intros acc.
  - simpl. now rewrite app_nil_r.
  - destruct Hb as (bd & mi & sh & -> & Hmi & Hpm & Hsh & Hd & Ho & Hl).
    destruct Hd as (ld & Hld & Hd), Ho as (lo & Hlo & Ho),
             Hl as (ll & Hll & Hl).
    cbn [Models.results_loop Py.getitem]. rewrite Hmi. cbn [bind].
    rewrite Hpm. cbn [bind]. rewrite Hsh. cbn [bind Py.get].
    rewrite Hld, Hlo, Hll. cbn [Py.add bind Py.iter].
    rewrite (showtime_loop_reads self (v_movie v) ((ld ++ lo) ++ ll)
               (v_dubbed v ++ v_original v ++ v_local v)).
    + cbn [bind flat_map]. rewrite IH, <- app_assoc. reflexivity.
    + rewrite (app_assoc (v_dubbed v)). repeat apply Forall2_app; assumption.
Qed.

Lemma page_reads self d views page total acc :
  is_page d views page total ->
  (let* results := Py.getitem (JObj d) "results" in
   let* l := Py.iter results in
   Models.results_loop self l acc)
  = Ok (acc ++ flat_map (showtimes_of self) views).
Proof.
  intros (_ & (blocks & Hb & Hr) & _).
  cbn [Py.getitem]. rewrite Hb. cbn [bind Py.iter].
  now apply results_loop_reads.
Qed.

(** One turn of the loop on an ordinary page that is not the last *)
Lemma loop_step_more fuel self date page (s : state) acc r w d views total :
  http_get (Models.page_url self date page) (world s) = (Some r, w) ->
  status_code r = 200 ->
  json_body r = Some (JObj d) ->
  is_page d views page total ->
  page < total ->
  Models.get_showtimes_loop (S fuel) self date page acc s
  = Models.get_showtimes_loop fuel self date (page + 1)
      (acc ++ flat_map (showtimes_of self) views)
      (mk_state E w (calls s ++ [(Models.page_url self date page, Some r)])).
Proof.
  intros Hget Hst Hbody Hpage Hlt.
  cbn [Models.get_showtimes_loop]. unfold bindM at 1.
  rewrite (fetch_page_ok _ _ _ _ _ _ _ Hget Hst Hbody).
  unfold bindM at 1, lift at 1.
  rewrite (no_showtimes_quiet d (proj1 Hpage)).
  unfold bindM at 1, lift at 1.
  rewrite (page_reads self d views page total acc Hpage).
  unfold bindM at 1, lift at 1.
  rewrite (last_page_numbered d page total (proj2 (proj2 Hpage))).
  destruct (Z.geb_spec page total); [lia | reflexivity].
Qed.

(** One turn of the loop on an ordinary page that is the last *)
Lemma loop_step_last fuel self date page (s : state) acc r w d views total :
  http_get (Models.page_url self date page) (world s) = (Some r, w) ->
  status_code r = 200 ->
  json_body r = Some (JObj d) ->
  is_page d views page total ->
  total <= page ->
  Models.get_showtimes_loop (S fuel) self date page acc s
  = (Some (Ok (acc ++ flat_map (showtimes_of self) views)),
     mk_state E w (calls s ++ [(Models.page_url self date page, Some r)])).
Proof.
  intros Hget Hst Hbody Hpage Hle.
  cbn [Models.get_showtimes_loop]. unfold bindM at 1.
  rewrite (fetch_page_ok _ _ _ _ _ _ _ Hget Hst Hbody).
  unfold bindM at 1, lift at 1.
  rewrite (no_showtimes_quiet d (proj1 Hpage)).
  unfold bindM at 1, lift at 1.
  rewrite (page_reads self d views page total acc Hpage).
  unfold bindM at 1, lift at 1.
  rewrite (last_page_numbered d page total (proj2 (proj2 Hpage))).
  destruct (Z.geb_spec page total); [reflexivity | lia].
Qed.

(** One turn of the loop on a response that signals the end *)
Lemma loop_step_end fuel self date page (s : state) acc r w d :
  http_get (Models.page_url self date page) (world s) = (Some r, w) ->
  status_code r = 200 ->
  json_body r = Some (JObj d) ->
  signals_end d ->
  Models.get_showtimes_loop (S fuel) self date page acc s
  = (Some (Ok acc),
     mk_state E w (calls s ++ [(Models.page_url self date page, Some r)])).
Proof.
  intros Hget Hst Hbody Hend.
  cbn [Models.get_showtimes_loop]. unfold bindM at 1.
  rewrite (fetch_page_ok _ _ _ _ _ _ _ Hget Hst Hbody).
  unfold bindM at 1, lift at 1.
  rewrite (no_showtimes_end d Hend). reflexivity.
Qed.

End Pagination.

(** C1. For a theater and a date: when the response to page 1 carries the
    message "no.showtime.error" or "next.showtime.on", or a truthy error
    field, [get_showtimes] returns the empty list and has made exactly one
    GET, for page 1.  When the responses are page 1 of 2 and then page 2 of
    2, it makes exactly the GETs for page 1 and page 2, in that order, and
    returns, block after block in page order, each block's dubbed, then
    original, then local showtimes. *)
Theorem get_showtimes_pagination {E : Env}
    (self : Models.Theater) (date : datetime) (s : state) (fuel : nat) :
  (forall r w d,
      http_get (Models.page_url self date 1) (world s) = (Some r, w) ->
      status_code r = 200 ->
      json_body r = Some (JObj d) ->
      Upstream.signals_end d ->
      Models.get_showtimes (S fuel) self date s
      = (Some (Ok []),
         mk_state E w (calls s ++ [(Models.page_url self date 1, Some r)])))
  /\ (forall r1 w1 d1 views1 r2 w2 d2 views2,
      http_get (Models.page_url self date 1) (world s) = (Some r1, w1) ->
      status_code r1 = 200 ->
      json_body r1 = Some (JObj d1) ->
      Upstream.is_page d1 views1 1 2 ->
      http_get (Models.page_url self date 2) w1 = (Some r2, w2) ->
      status_code r2 = 200 ->
      json_body r2 = Some (JObj d2) ->
      Upstream.is_page d2 views2 2 2 ->
      Models.get_showtimes (S (S fuel)) self date s
      = (Some (Ok (flat_map (Upstream.showtimes_of self) (views1 ++ views2))),
         mk_state E w2
           (calls s ++ [(Models.page_url self date 1, Some r1);
                        (Models.page_url self date 2, Some r2)]))).
Proof.
  split.
  - intros r w d Hget Hst Hbody Hend. unfold Models.get_showtimes.
    now apply loop_step_end with (d := d).
  - intros r1 w1 d1 views1 r2 w2 d2 views2 Hg1 Hs1 Hb1 Hp1 Hg2 Hs2 Hb2 Hp2.
    unfold Models.get_showtimes.
    rewrite (loop_step_more _ _ _ _ _ _ _ _ _ _ _ Hg1 Hs1 Hb1 Hp1); [|lia].
    change (1 + 1) with 2.
    rewrite (loop_step_last _ _ _ _ _ _ r2 w2 d2 views2 2); try assumption; [|lia].
    cbn [calls app]. rewrite flat_map_app, <- app_assoc. reflexivity.
Qed.

Lemma get_showtimes_pagination_witness :
  Models.get_showtimes (E := Mock.no_results) 1 Mock.test_theater Mock.may_1
    (Mock.start Mock.no_results tt)
  = (Some (Ok []),
     mk_state Mock.no_results tt
       [(Models.page_url Mock.test_theater Mock.may_1 1,
         Some Mock.nothing_today)])
  /\ Models.get_showtimes (E := Mock.two_pages) 2 Mock.test_theater Mock.may_1
       (Mock.start Mock.two_pages tt)
     = (Some (Ok (map (Models.mk_Showtime Mock.test_movie Mock.test_theater)
                      [Datetime.mk 2023 5 1 10 0 0;
                       Datetime.mk 2023 5 1 12 0 0;
                       Datetime.mk 2023 5 1 14 0 0]
                  ++ [Models.mk_Showtime Mock.another_movie Mock.test_theater
                        (Datetime.mk 2023 5 1 16 0 0)])),
        mk_state Mock.two_pages tt
          [(Models.page_url Mock.test_theater Mock.may_1 1,
            Some Mock.first_page);
           (Models.page_url Mock.test_theater Mock.may_1 2,
            Some Mock.second_page)]).
Proof.
  split.
  - apply (proj1 (get_showtimes_pagination (E := Mock.no_results)
                    Mock.test_theater Mock.may_1
                    (Mock.start Mock.no_results tt) 0)
             Mock.nothing_today tt (Mock.body_of Mock.nothing_today));
      [reflexivity | reflexivity | reflexivity | left; reflexivity].
  - apply (proj2 (get_showtimes_pagination (E := Mock.two_pages)
                    Mock.test_theater Mock.may_1
                    (Mock.start Mock.two_pages tt) 0)
             Mock.first_page tt (Mock.body_of Mock.first_page)
             [Upstream.mk_view Mock.test_movie
                [Datetime.mk 2023 5 1 10 0 0] [Datetime.mk 2023 5 1 12 0 0]
                [Datetime.mk 2023 5 1 14 0 0]]
             Mock.second_page tt (Mock.body_of Mock.second_page)
             [Upstream.mk_view Mock.another_movie
                [Datetime.mk 2023 5 1 16 0 0] [] []]);
      try reflexivity.
    + split; [split; intros ? H; vm_compute in H; discriminate H|].
      split.
      * eexists. split; [reflexivity|].
        constructor; [|constructor].
        eexists _, _, _. repeat split; try reflexivity;
          (eexists; split; [reflexivity|]);
          repeat constructor; eexists _, _; repeat split; reflexivity.
      * eexists _, _, _. repeat split; reflexivity.
    + split; [split; intros ? H; vm_compute in H; discriminate H|].
      split.
      * eexists. split; [reflexivity|].
        constructor; [|constructor].
        eexists _, _, _. repeat split; try reflexivity;
          (eexists; split; [reflexivity|]);
          repeat constructor; eexists _, _; repeat split; reflexivity.
      * eexists _, _, _. repeat split; reflexivity.
Defined.

(* ===================================================================== *)
(** ** The paginator on listings of any length *)
(* ===================================================================== *)

Section Listing.
Context {E : Env}.
Import Upstream.

(** One turn of the loop on an ordinary page, by what the page reports *)
Lemma loop_turn fuel self date page (s : state) acc r w d views reported total :
  http_get (Models.page_url self date page) (world s) = (Some r, w) ->
  status_code r = 200 ->
  json_body r = Some (JObj d) ->
  is_page d views reported total ->
  Models.get_showtimes_loop (S fuel) self date page acc s
  = if reported >=? total
    then (Some (Ok (acc ++ flat_map (showtimes_of self) views)),
          mk_state E w (calls s ++ [(Models.page_url self date page, Some r)]))
    else Models.get_showtimes_loop fuel self date (page + 1)
           (acc ++ flat_map (showtimes_of self) views)
           (mk_state E w (calls s ++ [(Models.page_url self date page, Some r)])).
Proof.
  intros Hget Hst Hbody Hpage.
  cbn [Models.get_showtimes_loop]. unfold bindM at 1.
  rewrite (fetch_page_ok _ _ _ _ _ _ _ Hget Hst Hbody).
  unfold bindM at 1, lift at 1.
  rewrite (no_showtimes_quiet d (proj1 Hpage)).
  unfold bindM at 1, lift at 1.
  rewrite (page_reads self d views reported total acc Hpage).
  unfold bindM at 1, lift at 1.
  rewrite (last_page_numbered d reported total (proj2 (proj2 Hpage))).
  destruct (reported >=? total); reflexivity.
Qed.

Lemma loop_on_listing self date page w views w' gets :
  listing self date page w views w' gets ->
  forall fuel acc (s : state),
    world s = w ->
    (List.length gets <= fuel)%nat ->
    Models.get_showtimes_loop fuel self date page acc s
    = (Some (Ok (acc ++ flat_map (showtimes_of self) views)),
       mk_state E w' (calls s ++ gets)).
Proof.
  induction 1 as [page w r w' d Hget Hst Hbody Hend
                 |page w r w' d views reported total Hget Hst Hbody Hpage Hle
                 |page w r w1 d views reported total rest w2 gets
                    Hget Hst Hbody Hpage Hlt _ IH];
    intros fuel acc s Hw Hfuel; subst w;
    (destruct fuel as [|fuel]; [simpl in Hfuel; lia|]).
  - rewrite (loop_step_end _ _ _ _ _ _ _ _ _ Hget Hst Hbody Hend).
    simpl. now rewrite app_nil_r.
  - rewrite (loop_turn _ _ _ _ _ _ _ _ _ _ _ _ Hget Hst Hbody Hpage).
    destruct (Z.geb_spec reported total); [reflexivity | lia].
  - rewrite (loop_turn _ _ _ _ _ _ _ _ _ _ _ _ Hget Hst Hbody Hpage).
    destruct (Z.geb_spec reported total); [lia|].
    rewrite (IH fuel); [|reflexivity | simpl in Hfuel; cbn [calls]; lia].
    cbn [calls]. rewrite flat_map_app, <- !app_assoc. reflexivity.
Qed.

End Listing.

(** X10. On a listing of any length (pages that each report more to come,
    closed by a page that reports it is the last, or by a response that
    signals the end) [get_showtimes] makes one GET per response of the
    listing, in order, and returns the showtimes of all the ordinary pages,
    page after page; showtimes read before an end signal are returned, not
    lost. *)
Theorem get_showtimes_listing {E : Env} (self : Models.Theater)
    (date : datetime) (s : state) views w' gets (fuel : nat) :
  listing self date 1 (world s) views w' gets ->
  (List.length gets <= fuel)%nat ->
  Models.get_showtimes fuel self date s
  = (Some (Ok (flat_map (Upstream.showtimes_of self) views)),
     mk_state E w' (calls s ++ gets)).
Proof.
  intros H Hfuel. unfold Models.get_showtimes.
  now rewrite (loop_on_listing _ _ _ _ _ _ _ H fuel [] s eq_refl Hfuel).
Qed.

Lemma get_showtimes_listing_witness :
  Models.get_showtimes (E := Mock.cut_short) 2 Mock.test_theater Mock.may_1
    (Mock.start Mock.cut_short tt)
  = (Some (Ok (map (Models.mk_Showtime Mock.test_movie Mock.test_theater)
                   [Datetime.mk 2023 5 1 10 0 0;
                    Datetime.mk 2023 5 1 12 0 0;
                    Datetime.mk 2023 5 1 14 0 0])),
     mk_state Mock.cut_short tt
       [(Models.page_url Mock.test_theater Mock.may_1 1, Some Mock.first_page);
        (Models.page_url Mock.test_theater Mock.may_1 2,
         Some Mock.nothing_today)]).
Proof.
  apply (get_showtimes_listing (E := Mock.cut_short) Mock.test_theater
           Mock.may_1 (Mock.start Mock.cut_short tt)
           ([Upstream.mk_view Mock.test_movie
               [Datetime.mk 2023 5 1 10 0 0] [Datetime.mk 2023 5 1 12 0 0]
               [Datetime.mk 2023 5 1 14 0 0]] ++ [])
           tt
           [(Models.page_url Mock.test_theater Mock.may_1 1,
             Some Mock.first_page);
            (Models.page_url Mock.test_theater Mock.may_1 2,
             Some Mock.nothing_today)] 2%nat); [|apply le_n].
  apply (listing_more (E := Mock.cut_short) Mock.test_theater Mock.may_1 1 tt
           Mock.first_page tt (Mock.body_of Mock.first_page) _ 1 2 [] tt);
    try reflexivity.
  - split; [split; intros ? H; vm_compute in H; discriminate H|].
    split.
    + eexists. split; [reflexivity|].
      constructor; [|constructor].
      eexists _, _, _. repeat split; try reflexivity;
        (eexists; split; [reflexivity|]);
        repeat constructor; eexists _, _; repeat split; reflexivity.
    + eexists _, _, _. repeat split; reflexivity.
  - apply (listing_end (E := Mock.cut_short) Mock.test_theater Mock.may_1
             (1 + 1) tt Mock.nothing_today tt
             (Mock.body_of Mock.nothing_today));
      [reflexivity | reflexivity | reflexivity | left; reflexivity].
Defined.

(* ===================================================================== *)
(** ** The pages a theater is asked for *)
(* ===================================================================== *)

Lemma append_inv_head (p a b : string) :
  (p ++ a)%string = (p ++ b)%string -> a = b.
Proof.
  induction p as [|c p IH]; simpl; [trivial|].
  intros [= H]. now apply IH.
Qed.

Lemma append_inv_tail (a b q : string) :
  (a ++ q)%string = (b ++ q)%string -> a = b.
Proof.
  intros H. apply (f_equal PyStr.chars) in H. rewrite !chars_app in H.
  apply app_inv_tail in H.
  rewrite <- (text_chars a), <- (text_chars b). now f_equal.
Qed.

(** Different pages have different addresses. *)
Lemma page_url_inj self date (p q : Z) :
  Models.page_url self date p = Models.page_url self date q -> p = q.
Proof.
  unfold Models.page_url. intros H.
  repeat apply append_inv_head in H.
  apply append_inv_tail in H. now apply of_Z_inj.
Qed.

Lemma page_urls_shift self date page k :
  page_urls self date page (S k)
  = Models.page_url self date page :: page_urls self date (page + 1) k.
Proof.
  unfold page_urls. cbn [seq map]. rewrite Z.add_0_r. f_equal.
  rewrite <- seq_shift, map_map. apply map_ext. intros i. f_equal. lia.
Qed.

Lemma page_urls_NoDup self date page k :
  NoDup (page_urls self date page k).
Proof.
  unfold page_urls. apply Finite.Injective_map_NoDup; [|apply seq_NoDup].
  intros i j H. apply page_url_inj in H. lia.
Qed.

Section Pages.
Context {E : Env}.

Lemma fetch_one_get self date page (s : state) :
  exists r, calls (snd (Models.fetch_showtimes_page self date page s))
            = calls s ++ [(Models.page_url self date page, r)].
Proof.
  unfold Models.fetch_showtimes_page, bindM, client_get.
  destruct (http_get _ (world s)) as [[r|] w]; cbn [snd calls].
  - exists (Some r). destruct (negb _); [reflexivity|].
    destruct (json_body r); reflexivity.
  - now exists None.
Qed.

Lemma loop_pages fuel self date page acc (s : state) :
  exists k gets,
    (k <= fuel)%nat
    /\ (fuel = O \/ 1 <= k)%nat
    /\ calls (snd (Models.get_showtimes_loop fuel self date page acc s))
       = calls s ++ gets
    /\ map fst gets = page_urls self date page k.
Proof.
  revert page acc s. induction fuel as [|fuel IH]; intros page acc s.
  - exists O, []. simpl. rewrite app_nil_r. repeat split; auto.
  - cbn [Models.get_showtimes_loop].
    destruct (fetch_one_get self date page s) as (r & Hr).
    assert (Hone : forall (o : option (result (list Models.Showtime))) s1,
               calls s1 = calls s ++ [(Models.page_url self date page, r)] ->
               exists k gets,
                 (k <= S fuel)%nat /\ (S fuel = O \/ 1 <= k)%nat
                 /\ calls (snd (o, s1)) = calls s ++ gets
                 /\ map fst gets = page_urls self date page k).
    { intros o s1 H1. exists 1%nat, [(Models.page_url self date page, r)].
      repeat split; [lia | right; lia | exact H1 |].
      unfold page_urls. simpl. now rewrite Z.add_0_r. }
    unfold bindM at 1.
    destruct (Models.fetch_showtimes_page self date page s)
      as [[[data|e]|] s1]; cbn [snd] in Hr; try (now apply Hone).
    unfold bindM at 1, lift at 1.
    destruct (Models.no_showtimes data) as [stop|e]; try (now apply Hone).
    destruct stop; [now apply Hone|].
    unfold bindM at 1, lift at 1.
    destruct (let* results := Py.getitem data "results" in _) as [acc'|e];
      try (now apply Hone).
    unfold bindM at 1, lift at 1.
    destruct (Models.last_page data) as [last|e]; try (now apply Hone).
    destruct last; [now apply Hone|].
    destruct (IH (page + 1) acc' s1) as (k & gets & Hk & _ & Hc & Hu).
    exists (S k), ((Models.page_url self date page, r) :: gets).
    repeat split; [lia | right; lia | |].
    + rewrite Hc, Hr, <- app_assoc. reflexivity.
    + rewrite page_urls_shift. cbn [map fst]. now rewrite Hu.
Qed.

End Pages.

(** X11. The GETs of one run of [get_showtimes] are for pages 1, 2, ...,
    k of the theater and date, in that order, for some k that the fuel
    bounds and that is at least 1 when there is fuel: no page is skipped,
    and no address is asked for twice. *)
Theorem get_showtimes_pages_in_order {E : Env} (fuel : nat)
    (self : Models.Theater) (date : datetime) (s : state) :
  exists k gets,
    (k <= fuel)%nat
    /\ (fuel = O \/ 1 <= k)%nat
    /\ calls (snd (Models.get_showtimes fuel self date s)) = calls s ++ gets
    /\ map fst gets = page_urls self date 1 k
    /\ NoDup (map fst gets).
Proof.
  destruct (loop_pages fuel self date 1 [] s) as (k & gets & Hk & Hk0 & Hc & Hu).
  exists k, gets. repeat split; try assumption.
  rewrite Hu. apply page_urls_NoDup.
Qed.

(* ===================================================================== *)
(** ** A record that cannot be parsed *)
(* ===================================================================== *)

Section BadRecord.
Context {E : Env}.
Import Upstream.

Lemma results_loop_reads_then self blocks views tail acc :
  Forall2 reads_as blocks views ->
  Models.results_loop self (blocks ++ tail) acc
  = Models.results_loop self tail (acc ++ flat_map (showtimes_of self) views).
Proof.
  intros H; revert acc.
  induction H as [|b v blocks views Hb _ IH]; intros acc.
  - simpl. now rewrite app_nil_r.
  - destruct Hb as (bd & mi & sh & -> & Hmi & Hpm & Hsh & Hd & Ho & Hl).
    destruct Hd as (ld & Hld & Hd), Ho as (lo & Hlo & Ho),
             Hl as (ll & Hll & Hl).
    cbn [app Models.results_loop Py.getitem]. rewrite Hmi. cbn [bind].
    rewrite Hpm. cbn [bind]. rewrite Hsh. cbn [bind Py.get].
    rewrite Hld, Hlo, Hll. cbn [Py.add bind Py.iter].
    rewrite (showtime_loop_reads self (v_movie v) ((ld ++ lo) ++ ll)
               (v_dubbed v ++ v_original v ++ v_local v)).
    + cbn [bind flat_map]. rewrite IH, <- app_assoc. reflexivity.
    + rewrite (app_assoc (v_dubbed v)). repeat apply Forall2_app; assumption.
Qed.

End BadRecord.

(** X21. One movie record that cannot be parsed fails the whole page and
    with it the theater: when the first page is answered 200 without an end
    signal, and the movie record of one of its blocks makes [parse_movie]
    raise while the blocks before it read well, [get_showtimes] raises that
    exception after the one GET; the showtimes of the blocks before are not
    returned, and the blocks after are not read. *)
Theorem get_showtimes_bad_record {E : Env} (fuel : nat)
    (self : Models.Theater) (date : datetime) (s : state)
    r w d good views bad fields movie_info rest e :
  http_get (Models.page_url self date 1) (world s) = (Some r, w) ->
  status_code r = 200 ->
  json_body r = Some (JObj d) ->
  Upstream.quiet d ->
  Dict.lookup "results" d = Some (JArr (good ++ bad :: rest)) ->
  Forall2 Upstream.reads_as good views ->
  bad = JObj fields ->
  Dict.lookup "movie" fields = Some movie_info ->
  Models.parse_movie movie_info = Raise e ->
  Models.get_showtimes (S fuel) self date s
  = (Some (Raise e),
     mk_state E w (calls s ++ [(Models.page_url self date 1, Some r)])).
Proof.
  intros Hget Hst Hbody Hq Hres Hgood -> Hmi He.
  unfold Models.get_showtimes. cbn [Models.get_showtimes_loop].
  unfold bindM at 1.
  rewrite (fetch_page_ok _ _ _ _ _ _ _ Hget Hst Hbody).
  unfold bindM at 1, lift at 1.
  rewrite (no_showtimes_quiet d Hq).
  unfold bindM at 1, lift at 1.
  cbn [Py.getitem]. rewrite Hres. cbn [bind Py.iter].
  rewrite (results_loop_reads_then self good views _ [] Hgood).
  cbn [Models.results_loop Py.getitem]. rewrite Hmi. cbn [bind].
  rewrite He. reflexivity.
Qed.

Lemma get_showtimes_bad_record_witness :
  Models.get_showtimes (E := Mock.spoiled) 1 Mock.test_theater Mock.may_1
    (Mock.start Mock.spoiled tt)
  = (Some (Raise (Exception_ "Invalid movie ID format: 123")),
     mk_state Mock.spoiled tt
       [(Models.page_url Mock.test_theater Mock.may_1 1,
         Some Mock.spoiled_page)]).
Proof.
  apply (get_showtimes_bad_record (E := Mock.spoiled) 0 Mock.test_theater
           Mock.may_1 (Mock.start Mock.spoiled tt)
           Mock.spoiled_page tt (Mock.body_of Mock.spoiled_page)
           [Mock.block (Mock.movie_json "TW92aWU6MTIz" "Test Movie" 0)
                       ["2023-05-01T10:00:00"] [] []]
           [Upstream.mk_view Mock.test_movie [Datetime.mk 2023 5 1 10 0 0] [] []]
           (Mock.block (Mock.movie_json "123" "Another Movie" 0)
                       ["2023-05-01T16:00:00"] [] [])
           [("movie", Mock.movie_json "123" "Another Movie" 0);
            ("showtimes", JObj [("dubbed", Mock.starts ["2023-05-01T16:00:00"]);
                                ("original", Mock.starts []);
                                ("local", Mock.starts [])])]
           (Mock.movie_json "123" "Another Movie" 0) []
           (Exception_ "Invalid movie ID format: 123"));
    try reflexivity.
  - split; intros ? H; vm_compute in H; discriminate H.
  - constructor; [|constructor].
    eexists _, _, _. repeat split; try reflexivity;
      (eexists; split; [reflexivity|]);
      repeat constructor; eexists _, _; repeat split; reflexivity.
Defined.

(* ===================================================================== *)
(** ** Pages that are not what the paginator expects *)
(* ===================================================================== *)

(** X25. What a first response with status 200 that is not a page does
    to [get_showtimes], each time after the one GET: a body that is not
    JSON raises JSONDecodeError; a JSON body that is not an object raises
    AttributeError; an object without end signal and without "results"
    raises KeyError "results"; and an object whose results read well but
    that has no "pagination" raises KeyError "pagination", the showtimes
    read from it being lost. *)
Theorem get_showtimes_malformed_page {E : Env} (fuel : nat)
    (self : Models.Theater) (date : datetime) (s : state) r w :
  http_get (Models.page_url self date 1) (world s) = (Some r, w) ->
  status_code r = 200 ->
  let after :=
    mk_state E w (calls s ++ [(Models.page_url self date 1, Some r)]) in
  (json_body r = None ->
   Models.get_showtimes (S fuel) self date s
   = (Some (Raise JSONDecodeError), after))
  /\ (forall data,
        json_body r = Some data ->
        (forall d, data <> JObj d) ->
        Models.get_showtimes (S fuel) self date s
        = (Some (Raise AttributeError), after))
  /\ (forall d,
        json_body r = Some (JObj d) ->
        Upstream.quiet d ->
        Dict.lookup "results" d = None ->
        Models.get_showtimes (S fuel) self date s
        = (Some (Raise (KeyError "results")), after))
  /\ (forall d blocks views,
        json_body r = Some (JObj d) ->
        Upstream.quiet d ->
        Dict.lookup "results" d = Some (JArr blocks) ->
        Forall2 Upstream.reads_as blocks views ->
        Dict.lookup "pagination" d = None ->
        Models.get_showtimes (S fuel) self date s
        = (Some (Raise (KeyError "pagination")), after)).
Proof.
  intros Hget Hst after. unfold Models.get_showtimes.
  cbn [Models.get_showtimes_loop].
  split; [|split; [|split]].
  - intros Hb. unfold bindM at 1.
    unfold Models.fetch_showtimes_page, bindM, client_get.
    rewrite Hget, Hst, Hb. reflexivity.
  - intros data Hb Hno. unfold bindM at 1.
    rewrite (fetch_page_ok _ _ _ _ _ _ _ Hget Hst Hb).
    unfold bindM at 1, lift at 1.
    destruct data; try reflexivity. now elim (Hno d).
  - intros d Hb Hq Hres. unfold bindM at 1.
    rewrite (fetch_page_ok _ _ _ _ _ _ _ Hget Hst Hb).
    unfold bindM at 1, lift at 1. rewrite (no_showtimes_quiet d Hq).
    unfold bindM at 1, lift at 1. cbn [Py.getitem]. rewrite Hres. reflexivity.
  - intros d blocks views Hb Hq Hres Hread Hpg. unfold bindM at 1.
    rewrite (fetch_page_ok _ _ _ _ _ _ _ Hget Hst Hb).
    unfold bindM at 1, lift at 1. rewrite (no_showtimes_quiet d Hq).
    unfold bindM at 1, lift at 1. cbn [Py.getitem]. rewrite Hres.
    cbn [bind Py.iter]. rewrite (results_loop_reads self blocks views [] Hread).
    unfold bindM at 1, lift at 1.
    unfold Models.last_page, Py.getitem. rewrite Hpg. reflexivity.
Qed.

Lemma get_showtimes_malformed_page_witness :
  Models.get_showtimes (E := Mock.not_json) 1 Mock.test_theater Mock.may_1
    (Mock.start Mock.not_json tt)
  = (Some (Raise JSONDecodeError),
     mk_state Mock.not_json tt
       [(Models.page_url Mock.test_theater Mock.may_1 1,
         Some (mk_response 200 "<html></html>" None))]).
Proof.
  apply (proj1 (get_showtimes_malformed_page (E := Mock.not_json) 0
                  Mock.test_theater Mock.may_1 (Mock.start Mock.not_json tt)
                  (mk_response 200 "<html></html>" None) tt
                  eq_refl eq_refl)).
  reflexivity.
Defined.

Section Stuck.
Context {E : Env}.

Lemma loop_stuck self date r d views reported total :
  (forall page w, exists w',
      http_get (Models.page_url self date page) w = (Some r, w')) ->
  status_code r = 200 ->
  json_body r = Some (JObj d) ->
  Upstream.is_page d views reported total ->
  reported < total ->
  forall fuel page acc (s : state),
    fst (Models.get_showtimes_loop fuel self date page acc s) = None
    /\ List.length (calls (snd (Models.get_showtimes_loop fuel self date page
                                  acc s)))
       = (List.length (calls s) + fuel)%nat.
Proof.
  intros Hget Hst Hbody Hpage Hlt.
  induction fuel as [|fuel IH]; intros page acc s.
  - simpl. split; [reflexivity | lia].
  - destruct (Hget page (world s)) as (w' & Hw).
    rewrite (loop_turn _ _ _ _ _ _ _ _ _ _ _ _ Hw Hst Hbody Hpage).
    destruct (Z.geb_spec reported total); [lia|].
    destruct (IH (page + 1)
                (acc ++ flat_map (Upstream.showtimes_of self) views)
                (mk_state E w'
                   (calls s ++ [(Models.page_url self date page, Some r)])))
      as [H1 H2].
    split; [exact H1|]. rewrite H2. cbn [calls]. rewrite length_app. simpl. lia.
Qed.

End Stuck.

(** X26. Nothing bounds the pagination but the upstream's own count: when
    every GET is answered with a page that reports fewer pages read than
    there are in total (whatever page is asked for), [get_showtimes] never
    returns: with any fuel it is still running when the fuel is spent,
    having made one GET per turn. *)
Theorem get_showtimes_unbounded {E : Env} (self : Models.Theater)
    (date : datetime) r d views reported total :
  (forall page w, exists w',
      http_get (Models.page_url self date page) w = (Some r, w')) ->
  status_code r = 200 ->
  json_body r = Some (JObj d) ->
  Upstream.is_page d views reported total ->
  reported < total ->
  forall fuel (s : state),
    fst (Models.get_showtimes fuel self date s) = None
    /\ List.length (calls (snd (Models.get_showtimes fuel self date s)))
       = (List.length (calls s) + fuel)%nat.
Proof.
  intros Hget Hst Hbody Hpage Hlt fuel s.
  apply (loop_stuck self date r d views reported total); assumption.
Qed.

Lemma get_showtimes_unbounded_witness :
  fst (Models.get_showtimes (E := Mock.stuck) 5 Mock.test_theater Mock.may_1
         (Mock.start Mock.stuck tt)) = None
  /\ List.length (calls (snd (Models.get_showtimes (E := Mock.stuck) 5
                                Mock.test_theater Mock.may_1
                                (Mock.start Mock.stuck tt))))
     = (List.length (calls (Mock.start Mock.stuck tt)) + 5)%nat.
Proof.
  apply (get_showtimes_unbounded (E := Mock.stuck) Mock.test_theater
           Mock.may_1 Mock.first_page (Mock.body_of Mock.first_page)
           [Upstream.mk_view Mock.test_movie
              [Datetime.mk 2023 5 1 10 0 0] [Datetime.mk 2023 5 1 12 0 0]
              [Datetime.mk 2023 5 1 14 0 0]] 1 2).
  - intros page w. exists w. reflexivity.
  - reflexivity.
  - reflexivity.
  - split; [split; intros ? H; vm_compute in H; discriminate H|].
    split.
    + eexists. split; [reflexivity|].
      constructor; [|constructor].
      eexists _, _, _. repeat split; try reflexivity;
        (eexists; split; [reflexivity|]);
        repeat constructor; eexists _, _; repeat split; reflexivity.
    + eexists _, _, _. repeat split; reflexivity.
  - reflexivity.
Defined.

(* ===================================================================== *)
(** ** Dictionaries *)
(* ===================================================================== *)

Section DictFacts.
Context {A : Type}.
Implicit Types (d : list (string * A)) (k : string).

Lemma lookup_app k d1 d2 :
  Dict.lookup k (d1 ++ d2)
  = match Dict.lookup k d1 with
    | Some v => Some v
    | None => Dict.lookup k d2
    end.
Proof.
  induction d1 as [|[k' v] d1 IH]; simpl; [reflexivity|].
  destruct (String.eqb k k'); [reflexivity | exact IH].
Qed.

Lemma lookup_adjust k' k f d :
  Dict.lookup k' (Dict.adjust k f d)
  = if String.eqb k' k then option_map f (Dict.lookup k d)
    else Dict.lookup k' d.
Proof.
  induction d as [|[k0 v] d IH]; simpl.
  - now destruct (String.eqb k' k).
  - destruct (String.eqb_spec k k0) as [->|Hk]; simpl.
    + destruct (String.eqb_spec k' k0) as [->|Hk']; reflexivity.
    + rewrite IH.
      destruct (String.eqb_spec k' k) as [->|Hk'].
      * apply String.eqb_neq in Hk. now rewrite Hk.
      * reflexivity.
Qed.

Lemma keys_adjust k f d : Dict.keys (Dict.adjust k f d) = Dict.keys d.
Proof.
  induction d as [|[k0 v] d IH]; simpl; [reflexivity|].
  destruct (String.eqb k k0); simpl; [reflexivity|].
  f_equal. exact IH.
Qed.

Lemma lookup_None k d : Dict.lookup k d = None <-> ~ In k (Dict.keys d).
Proof.
  induction d as [|[k0 v] d IH]; simpl; [tauto|].
  destruct (String.eqb_spec k k0) as [->|Hk].
  - split; [discriminate | tauto].
  - rewrite IH. split; [intros H [E|Hin]; [congruence | tauto] | tauto].
Qed.

Lemma mem_keys k d : Dict.mem k d = true <-> In k (Dict.keys d).
Proof.
  unfold Dict.mem. pose proof (lookup_None k d) as H.
  destruct (Dict.lookup k d).
  - split; [intros _ | reflexivity].
    destruct (in_dec string_dec k (Dict.keys d)) as [Hin|Hin]; [exact Hin|].
    apply H in Hin. discriminate.
  - split; [discriminate|]. intros Hin. now apply H in Hin.
Qed.

Lemma lookup_In k v d : Dict.lookup k d = Some v -> In (k, v) d.
Proof.
  induction d as [|[k0 v0] d IH]; simpl; [discriminate|].
  destruct (String.eqb_spec k k0) as [->|Hk].
  - intros [= ->]. now left.
  - intros H. right. now apply IH.
Qed.

Lemma In_lookup k v d :
  NoDup (Dict.keys d) -> In (k, v) d -> Dict.lookup k d = Some v.
Proof.
  induction d as [|[k0 v0] d IH]; simpl; [tauto|].
  intros Hnd [[= -> ->]|Hin].
  - now rewrite String.eqb_refl.
  - inversion Hnd as [|? ? Hk0 Hnd']; subst.
    destruct (String.eqb_spec k k0) as [->|Hk].
    + exfalso. apply Hk0. apply (in_map fst) in Hin. exact Hin.
    + now apply IH.
Qed.

End DictFacts.

(* ===================================================================== *)
(** ** The stable sort *)
(* ===================================================================== *)

Section SortMembers.
Context {A : Type} (key : A -> Z).

Lemma insert_desc_In x l z :
  In z (CinemaService.insert_desc key x l) <-> z = x \/ In z l.
Proof.
  induction l as [|y l IH]; simpl.
  - intuition congruence.
  - destruct (key y <=? key x); simpl; [intuition congruence|].
    rewrite IH. intuition congruence.
Qed.

Lemma sorted_desc_In l z :
  In z (CinemaService.sorted_desc key l) <-> In z l.
Proof.
  induction l as [|x l IH]; simpl; [tauto|].
  rewrite insert_desc_In, IH. intuition congruence.
Qed.

End SortMembers.

Section SortFacts.
Context {A : Type} (key : A -> Z) (earlier : A -> A -> Prop).

Lemma insert_desc_ranked x l :
  StronglySorted (ranked_by key earlier) l ->
  Forall (earlier x) l ->
  StronglySorted (ranked_by key earlier) (CinemaService.insert_desc key x l).
Proof.
  induction 1 as [|y l Hl IH Hy]; intros Hx; simpl.
  - constructor; constructor.
  - inversion Hx as [|? ? Hxy Hxl]; subst.
    destruct (Z.leb_spec (key y) (key x)) as [Hle|Hgt].
    + constructor; [constructor; assumption|].
      assert (Hxy' : ranked_by key earlier x y).
      { unfold ranked_by. destruct (Z.eq_dec (key x) (key y)); [now right | left; lia]. }
      constructor; [exact Hxy'|].
      rewrite Forall_forall in *. intros z Hz.
      specialize (Hy z Hz). specialize (Hxl z Hz). unfold ranked_by in *.
      destruct (Z.eq_dec (key x) (key z)); [now right | left; lia].
    + constructor; [now apply IH|].
      rewrite Forall_forall in *. intros z Hz.
      apply (insert_desc_In key) in Hz. destruct Hz as [->|Hz]; [|now apply Hy].
      left. lia.
Qed.

(** Sorting a list whose elements stand in order of arrival *)
Lemma sorted_desc_ranked l :
  StronglySorted earlier l ->
  StronglySorted (ranked_by key earlier) (CinemaService.sorted_desc key l).
Proof.
  induction 1 as [|x l Hl IH Hx]; simpl; [constructor|].
  apply insert_desc_ranked; [exact IH|].
  rewrite Forall_forall in *. intros z Hz. apply Hx.
  exact (proj1 (sorted_desc_In key l z) Hz).
Qed.

End SortFacts.

Lemma StronglySorted_nth {A} (R : A -> A -> Prop) (l : list A) :
  StronglySorted R l ->
  forall i j a b, (i < j)%nat ->
                  nth_error l i = Some a -> nth_error l j = Some b -> R a b.
Proof.
  induction 1 as [|x l Hl IH Hx]; intros i j a b Hij Ha Hb.
  - destruct i; discriminate.
  - destruct j as [|j]; [lia|]. simpl in Hb.
    destruct i as [|i]; simpl in Ha.
    + injection Ha as <-. rewrite Forall_forall in Hx.
      apply Hx. eapply nth_error_In; eassumption.
    + apply (IH i j); [lia | assumption | assumption].
Qed.

Lemma StronglySorted_snoc {A} (R : A -> A -> Prop) (l : list A) (a : A) :
  StronglySorted R l -> Forall (fun x => R x a) l ->
  StronglySorted R (l ++ [a]).
Proof.
  induction 1 as [|x l Hl IH Hx]; intros Ha; simpl.
  - constructor; constructor.
  - inversion Ha; subst. constructor; [now apply IH|].
    apply Forall_app. split; [assumption | constructor; [assumption|constructor]].
Qed.

Lemma StronglySorted_weaken {A} (R S : A -> A -> Prop) (l : list A) :
  (forall a b, In a l -> In b l -> R a b -> S a b) ->
  StronglySorted R l -> StronglySorted S l.
Proof.
  intros HRS H. induction H as [|x l Hl IH Hx]; [constructor|].
  constructor.
  - apply IH. intros a b Ha Hb. apply HRS; now right.
  - rewrite Forall_forall in *. intros z Hz.
    apply HRS; [now left | now right | now apply Hx].
Qed.

Lemma StronglySorted_map {A B} (f : A -> B) (R : B -> B -> Prop) (l : list A) :
  StronglySorted R (map f l) <-> StronglySorted (fun a b => R (f a) (f b)) l.
Proof.
  induction l as [|x l IH]; simpl.
  - split; constructor.
  - split; intros H; inversion H; subst; constructor;
      try (apply IH; assumption); rewrite Forall_forall in *.
    + intros z Hz. match goal with H : forall _, In _ (map f l) -> _ |- _ =>
        apply H end. now apply in_map.
    + intros z Hz. apply in_map_iff in Hz. destruct Hz as (a & <- & Ha). auto.
Qed.

(* ===================================================================== *)
(** ** The fold of the aggregator *)
(* ===================================================================== *)

Section Fold.
Implicit Types (x : Models.Showtime) (e : CinemaService.Film)
               (data : list (string * CinemaService.Film))
               (p : list Models.Showtime).

Lemma first_seen_le p t : (Arrival.first_seen p t <= List.length p)%nat.
Proof.
  induction p as [|s p IH]; simpl; [lia|].
  destruct (String.eqb _ t); lia.
Qed.

Lemma first_seen_lt_iff p t :
  (Arrival.first_seen p t < List.length p)%nat
  <-> exists s, In s p /\ Models.title (Models.movie s) = t.
Proof.
  induction p as [|s p IH]; simpl.
  - split; [lia | intros (s & [] & _)].
  - destruct (String.eqb_spec (Models.title (Models.movie s)) t) as [Heq|Hne].
    + split; [intros _; exists s; auto | lia].
    + rewrite <- Nat.succ_lt_mono, IH.
      split; intros (s' & Hin & Ht); exists s'.
      * auto.
      * destruct Hin as [<-|Hin]; [contradiction | auto].
Qed.

Lemma first_seen_snoc p x t :
  Arrival.first_seen (p ++ [x]) t
  = if (Arrival.first_seen p t <? List.length p)%nat
    then Arrival.first_seen p t
    else if String.eqb (Models.title (Models.movie x)) t
         then List.length p else S (List.length p).
Proof.
  induction p as [|s p IH]; simpl.
  - destruct (String.eqb _ t); reflexivity.
  - destruct (String.eqb (Models.title (Models.movie s)) t); [reflexivity|].
    rewrite IH. change (S ?a <? S ?b)%nat with (a <? b)%nat.
    destruct (_ <? _)%nat; [reflexivity|].
    destruct (String.eqb _ t); reflexivity.
Qed.

Lemma times_at_snoc p x t n :
  Arrival.times_at (p ++ [x]) t n
  = Arrival.times_at p t n
    ++ (if Arrival.at_title_and_theater t n x
        then [strftime_HM (Models.start_at x)] else []).
Proof.
  unfold Arrival.times_at. rewrite filter_app, map_app. simpl.
  destruct (Arrival.at_title_and_theater t n x); reflexivity.
Qed.

Lemma times_at_unseen p t n :
  ~ (Arrival.first_seen p t < List.length p)%nat ->
  Arrival.times_at p t n = [].
Proof.
  intros H. unfold Arrival.times_at.
  induction p as [|s p IH]; simpl in *; [reflexivity|].
  unfold Arrival.at_title_and_theater at 1.
  destruct (String.eqb (Models.title (Models.movie s)) t); [lia|].
  simpl. apply IH. lia.
Qed.

Lemma nonempty_snoc {A} (l : list A) (a : A) :
  Arrival.nonempty (l ++ [a]) = Some (l ++ [a]).
Proof. destruct l; reflexivity. Qed.

Lemma nonempty_get {A} (l : list A) :
  match Arrival.nonempty l with Some l' => l' | None => [] end = l.
Proof. destruct l; reflexivity. Qed.

Lemma adjust_adjust {A} k (f g : A -> A) (d : list (string * A)) :
  Dict.adjust k g (Dict.adjust k f d) = Dict.adjust k (fun v => g (f v)) d.
Proof.
  induction d as [|[k0 v] d IH]; simpl; [reflexivity|].
  destruct (String.eqb k k0) eqn:Hk; simpl; rewrite Hk; [reflexivity|].
  now rewrite IH.
Qed.

Lemma adjust_ext {A} k (f g : A -> A) (d : list (string * A)) :
  (forall v, f v = g v) -> Dict.adjust k f d = Dict.adjust k g d.
Proof.
  intros H. induction d as [|[k0 v] d IH]; simpl; [reflexivity|].
  now rewrite H, IH.
Qed.

(** The last two statements of the loop body are one update of the entry. *)
Lemma record_touch data x :
  CinemaService.record data x
  = Dict.adjust (Models.title (Models.movie x)) (touch x)
      (if negb (Dict.mem (Models.title (Models.movie x)) data)
       then Dict.add (Models.title (Models.movie x))
                     (CinemaService.new_entry (Models.movie x)) data
       else data).
Proof.
  unfold CinemaService.record. rewrite adjust_adjust.
  apply adjust_ext. intros [? ? ? ? ? ? ? ? ? ? sc]. unfold touch. simpl.
  destruct (Dict.mem _ sc); reflexivity.
Qed.

Lemma record_keys data x :
  Dict.keys (CinemaService.record data x)
  = if Dict.mem (Models.title (Models.movie x)) data
    then Dict.keys data
    else Dict.keys data ++ [Models.title (Models.movie x)].
Proof.
  rewrite record_touch, keys_adjust.
  destruct (Dict.mem _ data); simpl; [reflexivity|].
  unfold Dict.add, Dict.keys. now rewrite map_app.
Qed.

Lemma record_lookup data x t :
  Dict.lookup t (CinemaService.record data x)
  = if String.eqb t (Models.title (Models.movie x))
    then Some (touch x (match Dict.lookup (Models.title (Models.movie x)) data with
                        | Some e => e
                        | None => CinemaService.new_entry (Models.movie x)
                        end))
    else Dict.lookup t data.
Proof.
  rewrite record_touch, lookup_adjust.
  unfold Dict.mem, Dict.add.
  destruct (String.eqb_spec t (Models.title (Models.movie x))) as [->|Hne].
  - destruct (Dict.lookup _ data) as [e|] eqn:He; cbn [negb].
    + now rewrite He.
    + rewrite lookup_app, He. simpl. now rewrite String.eqb_refl.
  - destruct (Dict.lookup (Models.title _) data); cbn [negb]; [reflexivity|].
    rewrite lookup_app. destruct (Dict.lookup t data); [reflexivity|].
    simpl. apply String.eqb_neq in Hne. now rewrite Hne.
Qed.

Lemma touch_title x e :
  CinemaService.title (touch x e) = CinemaService.title e.
Proof. reflexivity. Qed.

Lemma touch_keys x e :
  Dict.keys (CinemaService.seances (touch x e))
  = if Dict.mem (Models.name (Models.theater x)) (CinemaService.seances e)
    then Dict.keys (CinemaService.seances e)
    else Dict.keys (CinemaService.seances e) ++ [Models.name (Models.theater x)].
Proof.
  unfold touch. cbn [CinemaService.seances CinemaService.set_seances].
  rewrite keys_adjust. destruct (Dict.mem _ _); simpl; [reflexivity|].
  unfold Dict.add, Dict.keys. now rewrite map_app.
Qed.

Lemma touch_lookup x e n :
  Dict.lookup n (CinemaService.seances (touch x e))
  = if String.eqb n (Models.name (Models.theater x))
    then Some (match Dict.lookup (Models.name (Models.theater x))
                                 (CinemaService.seances e) with
               | Some l => l
               | None => []
               end ++ [strftime_HM (Models.start_at x)])
    else Dict.lookup n (CinemaService.seances e).
Proof.
  unfold touch. cbn [CinemaService.seances CinemaService.set_seances].
  rewrite lookup_adjust. unfold Dict.mem, Dict.add.
  destruct (String.eqb_spec n (Models.name (Models.theater x))) as [->|Hne].
  - destruct (Dict.lookup _ (CinemaService.seances e)) as [l|] eqn:Hl; simpl.
    + now rewrite Hl.
    + rewrite lookup_app, Hl. simpl. now rewrite String.eqb_refl.
  - destruct (Dict.lookup (Models.name _) _); simpl; [reflexivity|].
    rewrite lookup_app. destruct (Dict.lookup n _); [reflexivity|].
    simpl. apply String.eqb_neq in Hne. now rewrite Hne.
Qed.

Lemma NoDup_snoc {A} (l : list A) (a : A) :
  NoDup l -> ~ In a l -> NoDup (l ++ [a]).
Proof.
  intros Hl Ha. apply NoDup_app; [assumption | repeat constructor; tauto |].
  intros b Hb [<-|[]]. contradiction.
Qed.

Lemma agg_inv_nil : agg_inv [] [].
Proof.
  repeat split; simpl; try constructor; try lia; try tauto; discriminate.
Qed.

Lemma agg_inv_step p data x :
  agg_inv p data -> agg_inv (p ++ [x]) (CinemaService.record data x).
Proof.
  intros (I0 & I1 & I2 & I4 & I3).
  set (t := Models.title (Models.movie x)).
  assert (Hmem : Dict.mem t data = true
                 <-> (Arrival.first_seen p t < List.length p)%nat).
  { rewrite mem_keys. apply I2. }
  (* the entry the showtime is added to, and what is known of it *)
  set (e0 := match Dict.lookup t data with
             | Some e => e
             | None => CinemaService.new_entry (Models.movie x)
             end).
  assert (He0 : CinemaService.title e0 = t
                /\ NoDup (Dict.keys (CinemaService.seances e0))
                /\ forall n, Dict.lookup n (CinemaService.seances e0)
                             = Arrival.nonempty (Arrival.times_at p t n)).
  { unfold e0. destruct (Dict.lookup t data) as [e|] eqn:He.
    - split; [|apply (I3 t e He)].
      apply lookup_In in He. rewrite Forall_forall in I0. apply (I0 _ He).
    - split; [reflexivity|]. split; [constructor|]. intros n.
      rewrite times_at_unseen; [reflexivity|].
      rewrite <- Hmem. unfold Dict.mem. now rewrite He. }
  destruct He0 as (Ht0 & Hnd0 & Hlk0).
  assert (N1 : NoDup (Dict.keys (CinemaService.record data x))).
  { rewrite record_keys. fold t. destruct (Dict.mem t data) eqn:Hm; [exact I1|].
    apply NoDup_snoc; [exact I1|]. rewrite <- mem_keys. congruence. }
  split; [|split; [exact N1|split; [|split]]].
  - (* every entry stands under its own title *)
    rewrite Forall_forall. intros [k v] Hin. simpl.
    apply (In_lookup _ _ _ N1) in Hin. rewrite record_lookup in Hin. fold t e0 in Hin.
    destruct (String.eqb_spec k t) as [->|Hne].
    + injection Hin as <-. now rewrite touch_title.
    + apply lookup_In in Hin. rewrite Forall_forall in I0. apply (I0 _ Hin).
  - (* the keys are the titles seen *)
    intros t'. rewrite record_keys, first_seen_snoc, length_app. fold t. simpl.
    destruct (Nat.ltb_spec (Arrival.first_seen p t') (List.length p)) as [Hlt|Hge].
    + assert (In t' (Dict.keys data)) by now apply I2.
      split; [lia|]. intros _.
      destruct (Dict.mem t data); [assumption | apply in_or_app; now left].
    + assert (Hnot : ~ In t' (Dict.keys data)) by (rewrite I2; lia).
      destruct (String.eqb_spec t t') as [<-|Hne].
      * split; [lia|]. intros _.
        destruct (Dict.mem t data) eqn:Hm.
        -- apply mem_keys in Hm. contradiction.
        -- apply in_or_app. right. now left.
      * split; [|lia]. intros Hin. exfalso.
        destruct (Dict.mem t data); [contradiction|].
        apply in_app_or in Hin. destruct Hin as [Hin|[Heq|[]]]; congruence.
  - (* the keys stand in the order of first sight *)
    assert (Hold : forall k, In k (Dict.keys data) ->
                     Arrival.first_seen (p ++ [x]) k = Arrival.first_seen p k).
    { intros k Hk. apply I2 in Hk. rewrite first_seen_snoc.
      apply Nat.ltb_lt in Hk. now rewrite Hk. }
    assert (S4 : StronglySorted
                   (fun a b => (Arrival.first_seen (p ++ [x]) a
                                < Arrival.first_seen (p ++ [x]) b)%nat)
                   (Dict.keys data)).
    { revert I4. apply StronglySorted_weaken.
      intros a b Ha Hb. now rewrite (Hold a Ha), (Hold b Hb). }
    rewrite record_keys. fold t. destruct (Dict.mem t data) eqn:Hm; [exact S4|].
    apply StronglySorted_snoc; [exact S4|].
    rewrite Forall_forall. intros k Hk. rewrite (Hold k Hk).
    apply I2 in Hk. rewrite first_seen_snoc. unfold t at 2.
    rewrite String.eqb_refl.
    destruct (Nat.ltb_spec (Arrival.first_seen p t) (List.length p)) as [Hlt|Hge];
      [|exact Hk].
    apply Hmem in Hlt. congruence.
  - (* each theater's list holds its start times, in arrival order *)
    intros t' e' He'. rewrite record_lookup in He'. fold t e0 in He'.
    destruct (String.eqb_spec t' t) as [->|Hne].
    + injection He' as <-. split.
      * rewrite touch_keys.
        destruct (Dict.mem (Models.name (Models.theater x))
                           (CinemaService.seances e0)) eqn:Hm; [exact Hnd0|].
        apply NoDup_snoc; [exact Hnd0|]. rewrite <- mem_keys. congruence.
      * intros n. rewrite touch_lookup, times_at_snoc, !Hlk0, nonempty_get.
        unfold Arrival.at_title_and_theater. fold t. rewrite String.eqb_refl.
        simpl. rewrite (String.eqb_sym n).
        destruct (String.eqb_spec (Models.name (Models.theater x)) n) as [<-|Hn].
        -- now rewrite nonempty_snoc.
        -- now rewrite app_nil_r.
    + destruct (I3 t' e' He') as [Hnd Hlk]. split; [exact Hnd|].
      intros n. rewrite times_at_snoc, Hlk.
      unfold Arrival.at_title_and_theater. fold t.
      apply not_eq_sym in Hne. apply String.eqb_neq in Hne. rewrite Hne.
      simpl. now rewrite app_nil_r.
Qed.

Lemma agg_inv_fold p : agg_inv p (fold_left CinemaService.record p []).
Proof.
  induction p as [|x p IH] using rev_ind; [exact agg_inv_nil|].
  rewrite fold_left_app. simpl. now apply agg_inv_step.
Qed.

End Fold.

(* ===================================================================== *)
(** ** The aggregator *)
(* ===================================================================== *)

Lemma insert_desc_perm {A} (key : A -> Z) x l :
  Permutation (CinemaService.insert_desc key x l) (x :: l).
Proof.
  induction l as [|y l IH]; simpl; [reflexivity|].
  destruct (key y <=? key x); [reflexivity|].
  rewrite IH. apply perm_swap.
Qed.

Lemma sorted_desc_perm {A} (key : A -> Z) l :
  Permutation (CinemaService.sorted_desc key l) l.
Proof.
  induction l as [|x l IH]; simpl; [reflexivity|].
  rewrite insert_desc_perm. now constructor.
Qed.

Lemma titles_are_keys (data : list (string * CinemaService.Film)) :
  Forall (fun kv => CinemaService.title (snd kv) = fst kv) data ->
  map CinemaService.title (Dict.values data) = Dict.keys data.
Proof.
  induction 1 as [|[k v] data Hkv _ IH]; simpl; [reflexivity|].
  simpl in Hkv. now rewrite Hkv, IH.
Qed.

(** An entry of the result is the entry that stands under its title in
    [data]. *)
Lemma aggregate_entry sts e :
  In e (CinemaService.aggregate sts) ->
  Dict.lookup (CinemaService.title e) (fold_left CinemaService.record sts [])
  = Some e.
Proof.
  unfold CinemaService.aggregate. intros Hin.
  destruct (agg_inv_fold sts) as (I0 & I1 & _).
  apply sorted_desc_In in Hin. unfold Dict.values in Hin.
  apply in_map_iff in Hin. destruct Hin as ([k v] & <- & Hin).
  rewrite Forall_forall in I0. specialize (I0 _ Hin).
  cbn [fst snd] in I0 |- *. rewrite I0. apply In_lookup; assumption.
Qed.

Lemma aggregate_titles sts :
  Permutation (map CinemaService.title (CinemaService.aggregate sts))
              (Dict.keys (fold_left CinemaService.record sts [])).
Proof.
  unfold CinemaService.aggregate.
  destruct (agg_inv_fold sts) as (I0 & _).
  rewrite <- (titles_are_keys _ I0).
  apply Permutation_map, sorted_desc_perm.
Qed.

(** One entry per title seen, and under each theater name the start times
    of that title at that theater, in arrival order. *)
Lemma aggregate_merge sts :
  NoDup (map CinemaService.title (CinemaService.aggregate sts))
  /\ (forall t, In t (map CinemaService.title (CinemaService.aggregate sts))
                <-> exists s, In s sts /\ Models.title (Models.movie s) = t)
  /\ (forall e, In e (CinemaService.aggregate sts) ->
        NoDup (Dict.keys (CinemaService.seances e))
        /\ forall n, Dict.lookup n (CinemaService.seances e)
                     = Arrival.nonempty
                         (Arrival.times_at sts (CinemaService.title e) n)).
Proof.
  pose proof (aggregate_titles sts) as Hperm.
  destruct (agg_inv_fold sts) as (I0 & I1 & I2 & I4 & I3).
  split; [|split].
  - eapply Permutation_NoDup; [symmetry; exact Hperm | exact I1].
  - intros t. rewrite <- first_seen_lt_iff, <- I2.
    split; apply Permutation_in; [exact Hperm | symmetry; exact Hperm].
  - intros e He. apply (I3 _ e). now apply aggregate_entry.
Qed.

(** Larger scores first; among equal scores, the title seen first. *)
Lemma aggregate_ranked sts :
  StronglySorted
    (ranked_by CinemaService.wantToSee
       (fun a b => (Arrival.first_seen sts (CinemaService.title a)
                    < Arrival.first_seen sts (CinemaService.title b))%nat))
    (CinemaService.aggregate sts).
Proof.
  unfold CinemaService.aggregate.
  destruct (agg_inv_fold sts) as (I0 & I1 & I2 & I4 & I3).
  apply sorted_desc_ranked.
  rewrite <- (titles_are_keys _ I0) in I4.
  exact (proj1 (StronglySorted_map _ _ _) I4).
Qed.

Lemma aggregate_witnessed sts e :
  In e (CinemaService.aggregate sts) ->
  CinemaService.seances e <> []
  /\ forall n l, In (n, l) (CinemaService.seances e) -> l <> [].
Proof.
  intros He.
  destruct (aggregate_merge sts) as (_ & Hseen & Hsc).
  destruct (Hsc e He) as [Hnd Hlk]. split.
  - assert (Ht : In (CinemaService.title e)
                    (map CinemaService.title (CinemaService.aggregate sts)))
      by now apply in_map.
    apply Hseen in Ht. destruct Ht as (s & Hs & Hts).
    specialize (Hlk (Models.name (Models.theater s))).
    assert (Hne : Arrival.times_at sts (CinemaService.title e)
                    (Models.name (Models.theater s)) <> []).
    { unfold Arrival.times_at. intros Hnil. apply map_eq_nil in Hnil.
      assert (Hin : In s (filter (Arrival.at_title_and_theater
                                    (CinemaService.title e)
                                    (Models.name (Models.theater s))) sts)).
      { apply filter_In. split; [exact Hs|].
        unfold Arrival.at_title_and_theater.
        now rewrite Hts, !String.eqb_refl. }
      rewrite Hnil in Hin. exact Hin. }
    intros Hnil. rewrite Hnil in Hlk. simpl in Hlk.
    destruct (Arrival.times_at _ _ _); [now apply Hne | discriminate].
  - intros n l Hin Hl. subst l.
    apply (In_lookup _ _ _ Hnd) in Hin. rewrite Hlk in Hin.
    destruct (Arrival.times_at _ _ _); discriminate.
Qed.




Section Aggregator.
Context {E : Env}.

(** [get_all_showtimes] returns when the showtimes are gathered, and then
    with their aggregate. *)
Lemma get_all_showtimes_gathered fuel date (s s' : state) sts :
  CinemaService.gather fuel CinemaService.theaters date [] s
  = (Some (Ok sts), s') ->
  CinemaService.get_all_showtimes fuel date s
  = (Some (Ok (CinemaService.aggregate sts)), s').
Proof.
  intros H. unfold CinemaService.get_all_showtimes, bindM. now rewrite H.
Qed.

Lemma get_all_showtimes_inv fuel date (s s' : state) out :
  CinemaService.get_all_showtimes fuel date s = (Some (Ok out), s') ->
  exists sts,
    CinemaService.gather fuel CinemaService.theaters date [] s
    = (Some (Ok sts), s')
    /\ out = CinemaService.aggregate sts.
Proof.
  unfold CinemaService.get_all_showtimes, bindM.
  destruct (CinemaService.gather _ _ _ _ s) as [[[sts|e]|] s1];
    unfold ret; intros [= <- <-]. now exists sts.
Qed.

End Aggregator.



(** C3. The entries returned by [get_all_showtimes] stand in decreasing
    order of their score [wantToSee]; and of two entries with equal scores,
    the one that stands first is the one whose title is first met earlier
    in the gathered list of showtimes. *)
Theorem get_all_showtimes_sorted {E : Env} (fuel : nat) (date : datetime)
    (s s' : state) (sts : list Models.Showtime) :
  CinemaService.gather fuel CinemaService.theaters date [] s
  = (Some (Ok sts), s') ->
  exists out,
    CinemaService.get_all_showtimes fuel date s = (Some (Ok out), s')
    /\ StronglySorted
         (fun a b => CinemaService.wantToSee a >= CinemaService.wantToSee b)
         out
    /\ (forall i j a b,
          (i < j)%nat ->
          nth_error out i = Some a ->
          nth_error out j = Some b ->
          CinemaService.wantToSee a = CinemaService.wantToSee b ->
          (Arrival.first_seen sts (CinemaService.title a)
           < Arrival.first_seen sts (CinemaService.title b))%nat).
Proof.
  intros H. exists (CinemaService.aggregate sts).
  split; [now apply get_all_showtimes_gathered|].
  pose proof (aggregate_ranked sts) as Hr. split.
  - revert Hr. apply StronglySorted_weaken.
    intros a b _ _ [Hgt|[Heq _]]; lia.
  - intros i j a b Hij Ha Hb Heq.
    destruct (StronglySorted_nth _ _ Hr i j a b Hij Ha Hb) as [Hgt|[_ Hlt]];
      [lia | exact Hlt].
Qed.

Lemma get_all_showtimes_sorted_witness :
  exists out,
    CinemaService.get_all_showtimes (E := Mock.two_theaters) 1 Mock.may_1
      (Mock.start Mock.two_theaters tt)
    = (Some (Ok out), snd Mock.gathered)
    /\ StronglySorted
         (fun a b => CinemaService.wantToSee a >= CinemaService.wantToSee b)
         out
    /\ (forall i j a b,
          (i < j)%nat ->
          nth_error out i = Some a ->
          nth_error out j = Some b ->
          CinemaService.wantToSee a = CinemaService.wantToSee b ->
          (Arrival.first_seen (fst Mock.gathered) (CinemaService.title a)
           < Arrival.first_seen (fst Mock.gathered) (CinemaService.title b))%nat).
Proof.
  apply (get_all_showtimes_sorted (E := Mock.two_theaters) 1 Mock.may_1
           (Mock.start Mock.two_theaters tt)
           (snd Mock.gathered) (fst Mock.gathered)).
  reflexivity.
Defined.

(** C10. Every entry returned by [get_all_showtimes] has a theater in its
    mapping [seances], and every time list of the mapping has a time. *)
Theorem get_all_showtimes_witnessed {E : Env} (fuel : nat) (date : datetime)
    (s s' : state) (out : list CinemaService.Film) :
  CinemaService.get_all_showtimes fuel date s = (Some (Ok out), s') ->
  forall e, In e out ->
    CinemaService.seances e <> []
    /\ forall n l, In (n, l) (CinemaService.seances e) -> l <> [].
Proof.
  intros H e He.
  apply get_all_showtimes_inv in H. destruct H as (sts & _ & ->).
  now apply (aggregate_witnessed sts).
Qed.

Lemma get_all_showtimes_witnessed_witness :
  In Mock.top_entry Mock.aggregated
  /\ CinemaService.seances Mock.top_entry <> []
  /\ (forall n l, In (n, l) (CinemaService.seances Mock.top_entry) -> l <> []).
Proof.
  assert (Hin : In Mock.top_entry Mock.aggregated) by (left; reflexivity).
  split; [exact Hin|].
  apply (get_all_showtimes_witnessed (E := Mock.two_theaters) 1 Mock.may_1
           (Mock.start Mock.two_theaters tt)
           (snd Mock.gathered) Mock.aggregated);
    [reflexivity | exact Hin].
Defined.

(* ===================================================================== *)
(** ** The aggregate keeps every showtime, and the first movie of a title *)
(* ===================================================================== *)

Section Totals.
Context {A : Type} (c : A -> nat).

Lemma total_app (d1 d2 : list (string * A)) :
  list_sum (map (fun kv => c (snd kv)) (d1 ++ d2))
  = (list_sum (map (fun kv => c (snd kv)) d1)
     + list_sum (map (fun kv => c (snd kv)) d2))%nat.
Proof. now rewrite map_app, list_sum_app. Qed.

Lemma total_adjust k f (d : list (string * A)) v :
  Dict.lookup k d = Some v ->
  (list_sum (map (fun kv => c (snd kv)) (Dict.adjust k f d)) + c v
   = list_sum (map (fun kv => c (snd kv)) d) + c (f v))%nat.
Proof.
  induction d as [|[k0 v0] d IH]; simpl; [discriminate|].
  destruct (String.eqb k k0).
  - intros [= ->]. simpl. lia.
  - intros H. simpl. specialize (IH H). lia.
Qed.

End Totals.

Lemma entry_times_touch x e :
  entry_times (touch x e) = S (entry_times e).
Proof.
  unfold entry_times, touch.
  cbn [CinemaService.seances CinemaService.set_seances].
  set (n := Models.name (Models.theater x)).
  set (sc := CinemaService.seances e).
  unfold Dict.mem. destruct (Dict.lookup n sc) as [l|] eqn:Hl; cbn [negb].
  - pose proof (total_adjust (@List.length string) n
                  (fun l => l ++ [strftime_HM (Models.start_at x)]) sc l Hl) as H.
    cbv beta in H. rewrite length_app in H. simpl in H. lia.
  - assert (Hl' : Dict.lookup n (Dict.add n [] sc) = Some []).
    { unfold Dict.add. rewrite lookup_app, Hl. simpl.
      now rewrite String.eqb_refl. }
    pose proof (total_adjust (@List.length string) n
                  (fun l => l ++ [strftime_HM (Models.start_at x)]) _ _ Hl') as H.
    cbv beta in H. unfold Dict.add in H at 2. rewrite total_app in H.
    simpl in H. lia.
Qed.

Lemma dict_times_record data x :
  list_sum (map (fun kv => entry_times (snd kv)) (CinemaService.record data x))
  = S (list_sum (map (fun kv => entry_times (snd kv)) data)).
Proof.
  rewrite record_touch.
  set (t := Models.title (Models.movie x)).
  unfold Dict.mem. destruct (Dict.lookup t data) as [e|] eqn:He; cbn [negb].
  - pose proof (total_adjust entry_times t (touch x) data e He) as H.
    rewrite entry_times_touch in H. lia.
  - assert (He' : Dict.lookup t (Dict.add t (CinemaService.new_entry (Models.movie x)) data)
                  = Some (CinemaService.new_entry (Models.movie x))).
    { unfold Dict.add. rewrite lookup_app, He. simpl.
      now rewrite String.eqb_refl. }
    pose proof (total_adjust entry_times t (touch x) _ _ He') as H.
    rewrite entry_times_touch in H.
    unfold Dict.add in H at 2. rewrite total_app in H. simpl in H.
    change (entry_times (CinemaService.new_entry (Models.movie x))) with O in H.
    lia.
Qed.

Lemma dict_times_fold p :
  list_sum (map (fun kv => entry_times (snd kv))
                (fold_left CinemaService.record p []))
  = List.length p.
Proof.
  induction p as [|x p IH] using rev_ind; [reflexivity|].
  rewrite fold_left_app, length_app. simpl.
  rewrite dict_times_record, IH. lia.
Qed.

Lemma sum_insert_desc {A} (key : A -> Z) (c : A -> nat) x l :
  list_sum (map c (CinemaService.insert_desc key x l))
  = (c x + list_sum (map c l))%nat.
Proof.
  induction l as [|y l IH]; simpl; [reflexivity|].
  destruct (key y <=? key x); simpl; [reflexivity|]. rewrite IH. lia.
Qed.

Lemma sum_sorted_desc {A} (key : A -> Z) (c : A -> nat) l :
  list_sum (map c (CinemaService.sorted_desc key l)) = list_sum (map c l).
Proof.
  induction l as [|x l IH]; simpl; [reflexivity|].
  now rewrite sum_insert_desc, IH.
Qed.

Lemma aggregate_total sts :
  total_times (CinemaService.aggregate sts) = List.length sts.
Proof.
  unfold total_times, CinemaService.aggregate.
  rewrite sum_sorted_desc. unfold Dict.values. rewrite map_map.
  apply dict_times_fold.
Qed.

(** The entry under a title shows the movie of the first showtime of the
    title. *)
Lemma first_movie_step p data x :
  agg_inv p data ->
  (forall t e, Dict.lookup t data = Some e ->
     exists y, nth_error p (Arrival.first_seen p t) = Some y
               /\ shows_movie e (Models.movie y)) ->
  forall t e, Dict.lookup t (CinemaService.record data x) = Some e ->
    exists y, nth_error (p ++ [x]) (Arrival.first_seen (p ++ [x]) t) = Some y
              /\ shows_movie e (Models.movie y).
Proof.
  intros (_ & _ & I2 & _) J t e He.
  assert (Hold : forall t0 e0, Dict.lookup t0 data = Some e0 ->
            exists y, nth_error (p ++ [x]) (Arrival.first_seen (p ++ [x]) t0)
                      = Some y /\ shows_movie e0 (Models.movie y)).
  { intros t0 e0 H0. destruct (J t0 e0 H0) as (y & Hy & Hs).
    exists y. split; [|exact Hs].
    assert (Hlt : (Arrival.first_seen p t0 < List.length p)%nat).
    { apply nth_error_Some. congruence. }
    rewrite first_seen_snoc. apply Nat.ltb_lt in Hlt as Hb. rewrite Hb.
    now rewrite nth_error_app1. }
  rewrite record_lookup in He.
  destruct (String.eqb_spec t (Models.title (Models.movie x))) as [->|Hne].
  - injection He as <-.
    destruct (Dict.lookup _ data) as [e0|] eqn:H0.
    + destruct (Hold _ _ H0) as (y & Hy & Hs). exists y. split; [exact Hy|].
      exact Hs.
    + exists x. split; [|reflexivity].
      assert (Hun : ~ (Arrival.first_seen p (Models.title (Models.movie x))
                       < List.length p)%nat).
      { rewrite <- I2. now apply lookup_None. }
      rewrite first_seen_snoc.
      apply Nat.ltb_nlt in Hun. rewrite Hun, String.eqb_refl.
      rewrite nth_error_app2, Nat.sub_diag by lia. reflexivity.
  - now apply Hold.
Qed.

Lemma first_movie_fold p :
  forall t e, Dict.lookup t (fold_left CinemaService.record p []) = Some e ->
    exists y, nth_error p (Arrival.first_seen p t) = Some y
              /\ shows_movie e (Models.movie y).
Proof.
  induction p as [|x p IH] using rev_ind; [discriminate|].
  rewrite fold_left_app. simpl.
  apply first_movie_step; [apply agg_inv_fold | exact IH].
Qed.

(** X16. The aggregate loses no showtime and invents none: the start
    times held by the entries [get_all_showtimes] returns, all theaters and
    all titles counted, are as many as the showtimes gathered. *)
Theorem get_all_showtimes_keeps_all {E : Env} (fuel : nat) (date : datetime)
    (s s' : state) (sts : list Models.Showtime) :
  CinemaService.gather fuel CinemaService.theaters date [] s
  = (Some (Ok sts), s') ->
  exists out,
    CinemaService.get_all_showtimes fuel date s = (Some (Ok out), s')
    /\ total_times out = List.length sts.
Proof.
  intros H. exists (CinemaService.aggregate sts).
  split; [now apply get_all_showtimes_gathered | apply aggregate_total].
Qed.

Lemma get_all_showtimes_keeps_all_witness :
  exists out,
    CinemaService.get_all_showtimes (E := Mock.two_theaters) 1 Mock.may_1
      (Mock.start Mock.two_theaters tt)
    = (Some (Ok out), snd Mock.gathered)
    /\ total_times out = List.length (fst Mock.gathered).
Proof.
  apply (get_all_showtimes_keeps_all (E := Mock.two_theaters) 1 Mock.may_1
           (Mock.start Mock.two_theaters tt)
           (snd Mock.gathered) (fst Mock.gathered)).
  reflexivity.
Defined.

(** X17. An entry shows the movie of the first showtime of its title:
    its runtime, genres, cast, director, synopsis, poster, score and address
    are made from that movie, whatever the movies of the later showtimes of
    the same title hold. *)
Theorem get_all_showtimes_first_movie {E : Env} (fuel : nat)
    (date : datetime) (s s' : state) (out : list CinemaService.Film) :
  CinemaService.get_all_showtimes fuel date s = (Some (Ok out), s') ->
  exists sts,
    CinemaService.gather fuel CinemaService.theaters date [] s
    = (Some (Ok sts), s')
    /\ forall e, In e out ->
         exists x,
           nth_error sts (Arrival.first_seen sts (CinemaService.title e))
           = Some x
           /\ CinemaService.set_seances e []
              = CinemaService.new_entry (Models.movie x).
Proof.
  intros H. apply get_all_showtimes_inv in H. destruct H as (sts & Hg & ->).
  exists sts. split; [exact Hg|]. intros e He.
  apply aggregate_entry in He. now apply first_movie_fold in He.
Qed.

Lemma get_all_showtimes_first_movie_witness :
  exists sts,
    CinemaService.gather (E := Mock.two_theaters) 1
      (CinemaService.theaters (E := Mock.two_theaters)) Mock.may_1 []
      (Mock.start Mock.two_theaters tt)
    = (Some (Ok sts), snd Mock.gathered)
    /\ forall e, In e Mock.aggregated ->
         exists x,
           nth_error sts (Arrival.first_seen sts (CinemaService.title e))
           = Some x
           /\ CinemaService.set_seances e []
              = CinemaService.new_entry (Models.movie x).
Proof.
  apply (get_all_showtimes_first_movie (E := Mock.two_theaters) 1 Mock.may_1
           (Mock.start Mock.two_theaters tt) (snd Mock.gathered)
           Mock.aggregated).
  reflexivity.
Defined.

(* ===================================================================== *)
(** ** Whose showtimes *)
(* ===================================================================== *)

Section Own.
Context {E : Env}.

Lemma showtime_loop_own self movie l acc out :
  Models.showtime_loop self movie l acc = Ok out ->
  exists added, out = acc ++ added
                /\ Forall (fun st => Models.theater st = self) added.
Proof.
  revert acc. induction l as [|j l IH]; intros acc; simpl.
  - intros [= <-]. exists []. now rewrite app_nil_r.
  - destruct (Py.getitem j "startsAt") as [v|]; [|discriminate]. cbn [bind].
    destruct (Models.parse_starts_at v) as [t|]; [|discriminate]. cbn [bind].
    intros H. apply IH in H. destruct H as (added & -> & Hall).
    eexists (_ :: added). rewrite <- app_assoc. split; [reflexivity|].
    constructor; [reflexivity | exact Hall].
Qed.

Lemma results_loop_own self l acc out :
  Models.results_loop self l acc = Ok out ->
  exists added, out = acc ++ added
                /\ Forall (fun st => Models.theater st = self) added.
Proof.
  revert acc. induction l as [|b l IH]; intros acc;
    cbn [Models.results_loop].
  - intros [= <-]. exists []. now rewrite app_nil_r.
  - destruct (Py.getitem b "movie") as [mi|]; [|discriminate]. cbn [bind].
    destruct (Models.parse_movie mi) as [movie|]; [|discriminate]. cbn [bind].
    destruct (Py.getitem b "showtimes") as [sh|]; [|discriminate]. cbn [bind].
    destruct (Py.get sh "dubbed" _) as [du|]; [|discriminate]. cbn [bind].
    destruct (Py.get sh "original" _) as [ori|]; [|discriminate]. cbn [bind].
    destruct (Py.add du ori) as [s1|]; [|discriminate]. cbn [bind].
    destruct (Py.get sh "local" _) as [lo|]; [|discriminate]. cbn [bind].
    destruct (Py.add s1 lo) as [s2|]; [|discriminate]. cbn [bind].
    destruct (Py.iter s2) as [sl|]; [|discriminate]. cbn [bind].
    destruct (Models.showtime_loop self movie sl acc) as [acc1|] eqn:H1;
      [|discriminate].
    cbn [bind]. intros H.
    apply showtime_loop_own in H1. destruct H1 as (a1 & -> & Ha1).
    apply IH in H. destruct H as (a2 & -> & Ha2).
    exists (a1 ++ a2). rewrite app_assoc. split; [reflexivity|].
    apply Forall_app. now split.
Qed.

Lemma loop_own fuel self date page acc (s s' : state) out :
  Models.get_showtimes_loop fuel self date page acc s = (Some (Ok out), s') ->
  exists added, out = acc ++ added
                /\ Forall (fun st => Models.theater st = self) added.
Proof.
  revert page acc s. induction fuel as [|fuel IH]; intros page acc s;
    [discriminate|].
  cbn [Models.get_showtimes_loop]. unfold bindM at 1.
  destruct (Models.fetch_showtimes_page self date page s)
    as [[[data|]|] s1]; try discriminate.
  unfold bindM at 1, lift at 1.
  destruct (Models.no_showtimes data) as [stop|]; try discriminate.
  destruct stop.
  - unfold ret. intros [= <- _]. exists []. now rewrite app_nil_r.
  - unfold bindM at 1, lift at 1.
    destruct (let* results := Py.getitem data "results" in _) as [acc'|] eqn:Hr;
      try discriminate.
    assert (Hacc : exists a1, acc' = acc ++ a1
                   /\ Forall (fun st => Models.theater st = self) a1).
    { destruct (Py.getitem data "results") as [res|]; [|discriminate].
      cbn [bind] in Hr. destruct (Py.iter res) as [l|]; [|discriminate].
      cbn [bind] in Hr. now apply results_loop_own in Hr. }
    destruct Hacc as (a1 & -> & Ha1).
    unfold bindM at 1, lift at 1.
    destruct (Models.last_page data) as [last|]; try discriminate.
    destruct last.
    + unfold ret. intros [= <- _]. now exists a1.
    + intros H. apply IH in H. destruct H as (a2 & -> & Ha2).
      exists (a1 ++ a2). rewrite app_assoc. split; [reflexivity|].
      apply Forall_app. now split.
Qed.

Lemma gather_own fuel ts date acc (s s' : state) out :
  CinemaService.gather fuel ts date acc s = (Some (Ok out), s') ->
  exists added, out = acc ++ added
                /\ Forall (fun st => In (Models.theater st) ts) added.
Proof.
  revert acc s. induction ts as [|t ts IH]; intros acc s; simpl.
  - unfold ret. intros [= <- _]. exists []. now rewrite app_nil_r.
  - unfold bindM at 1.
    destruct (Models.get_showtimes fuel t date s) as [[[l|]|] s1] eqn:Hl;
      try discriminate.
    intros H. apply IH in H. destruct H as (a2 & -> & Ha2).
    unfold Models.get_showtimes in Hl. apply loop_own in Hl.
    destruct Hl as (a1 & -> & Ha1). simpl.
    exists (a1 ++ a2). rewrite app_assoc. split; [reflexivity|].
    apply Forall_app. split.
    + eapply Forall_impl; [|exact Ha1]. intros st ->. now left.
    + eapply Forall_impl; [|exact Ha2]. intros st Hst. now right.
Qed.

End Own.

(** X22. Every showtime [get_showtimes] returns is a showtime of the
    theater it was called on, whatever the upstream answered. *)
Theorem get_showtimes_own_theater {E : Env} (fuel : nat)
    (self : Models.Theater) (date : datetime) (s s' : state)
    (out : list Models.Showtime) :
  Models.get_showtimes fuel self date s = (Some (Ok out), s') ->
  Forall (fun st => Models.theater st = self) out.
Proof.
  intros H. unfold Models.get_showtimes in H. apply loop_own in H.
  destruct H as (added & -> & Hall). exact Hall.
Qed.

Lemma get_showtimes_own_theater_witness :
  Forall (fun st => Models.theater st = Mock.theater_a) (fst Mock.visit_a).
Proof.
  apply (get_showtimes_own_theater (E := Mock.two_theaters) 1 Mock.theater_a
           Mock.may_1 (Mock.start Mock.two_theaters tt) (snd Mock.visit_a)
           (fst Mock.visit_a)).
  reflexivity.
Defined.

(** X23. Every theater name under which [get_all_showtimes] lists times
    is the name of a cinema of the configuration. *)
Theorem get_all_showtimes_configured_names {E : Env} (fuel : nat)
    (date : datetime) (s s' : state) (out : list CinemaService.Film) :
  CinemaService.get_all_showtimes fuel date s = (Some (Ok out), s') ->
  forall e n,
    In e out ->
    In n (Dict.keys (CinemaService.seances e)) ->
    In n (map cinema_name (Dict.values CINEMAS)).
Proof.
  intros H e n He Hn.
  apply get_all_showtimes_inv in H. destruct H as (sts & Hg & ->).
  destruct (aggregate_merge sts) as (_ & _ & Hsc).
  destruct (Hsc e He) as [_ Hlk]. specialize (Hlk n).
  apply mem_keys in Hn. unfold Dict.mem in Hn. rewrite Hlk in Hn.
  unfold Arrival.times_at in Hn.
  destruct (filter _ sts) as [|x xs] eqn:Hf; [discriminate|].
  assert (Hx : In x (filter (Arrival.at_title_and_theater
                               (CinemaService.title e) n) sts))
    by (rewrite Hf; now left).
  apply filter_In in Hx. destruct Hx as [Hx Hat].
  unfold Arrival.at_title_and_theater in Hat.
  apply andb_prop in Hat. destruct Hat as [_ Hname].
  apply String.eqb_eq in Hname. subst n.
  apply gather_own in Hg. destruct Hg as (added & -> & Hall).
  rewrite Forall_forall in Hall. specialize (Hall x Hx).
  unfold CinemaService.theaters, CinemaService.cinemas in Hall.
  rewrite map_map in Hall. apply in_map_iff in Hall.
  destruct Hall as ([k info] & <- & Hin). cbn.
  unfold Dict.values. rewrite map_map.
  apply in_map_iff. exists (k, info). split; [reflexivity | exact Hin].
Qed.

Lemma get_all_showtimes_configured_names_witness :
  In "Studio B" (map cinema_name (Dict.values (@CINEMAS Mock.two_theaters))).
Proof.
  apply (get_all_showtimes_configured_names (E := Mock.two_theaters) 1
           Mock.may_1 (Mock.start Mock.two_theaters tt) (snd Mock.gathered)
           Mock.aggregated) with (e := Mock.top_entry);
    [reflexivity | left; reflexivity | left; reflexivity].
Defined.

(* ===================================================================== *)
(** ** The order of the theaters in an entry *)
(* ===================================================================== *)

Lemma first_at_snoc p x t n :
  Arrival.first_at (p ++ [x]) t n
  = if (Arrival.first_at p t n <? List.length p)%nat
    then Arrival.first_at p t n
    else if Arrival.at_title_and_theater t n x
         then List.length p else S (List.length p).
Proof.
  induction p as [|s p IH]; simpl.
  - destruct (Arrival.at_title_and_theater t n x); reflexivity.
  - destruct (Arrival.at_title_and_theater t n s); [reflexivity|].
    rewrite IH. change (S ?a <? S ?b)%nat with (a <? b)%nat.
    destruct (_ <? _)%nat; [reflexivity|].
    destruct (Arrival.at_title_and_theater t n x); reflexivity.
Qed.

Lemma first_at_lt_iff p t n :
  (Arrival.first_at p t n < List.length p)%nat
  <-> Arrival.times_at p t n <> [].
Proof.
  unfold Arrival.times_at. induction p as [|s p IH]; simpl.
  - split; [lia | intros H; now elim H].
  - destruct (Arrival.at_title_and_theater t n s); simpl.
    + split; [discriminate | lia].
    + rewrite <- IH. lia.
Qed.

Lemma key_iff_played p data t e n :
  agg_inv p data -> Dict.lookup t data = Some e ->
  In n (Dict.keys (CinemaService.seances e))
  <-> (Arrival.first_at p t n < List.length p)%nat.
Proof.
  intros (_ & _ & _ & _ & I3) He. destruct (I3 t e He) as [_ Hlk].
  rewrite first_at_lt_iff, <- mem_keys. unfold Dict.mem. rewrite Hlk.
  destruct (Arrival.times_at p t n); simpl; split; congruence.
Qed.

Lemma theater_order_step p data x :
  agg_inv p data ->
  (forall t e, Dict.lookup t data = Some e ->
     StronglySorted
       (fun a b => (Arrival.first_at p t a < Arrival.first_at p t b)%nat)
       (Dict.keys (CinemaService.seances e))) ->
  forall t e, Dict.lookup t (CinemaService.record data x) = Some e ->
    StronglySorted
      (fun a b => (Arrival.first_at (p ++ [x]) t a
                   < Arrival.first_at (p ++ [x]) t b)%nat)
      (Dict.keys (CinemaService.seances e)).
Proof.
  intros Hinv K t e He.
  (* the keys of an entry of [data] keep their ranks *)
  assert (Hold : forall t0 e0, Dict.lookup t0 data = Some e0 ->
            StronglySorted
              (fun a b => (Arrival.first_at (p ++ [x]) t0 a
                           < Arrival.first_at (p ++ [x]) t0 b)%nat)
              (Dict.keys (CinemaService.seances e0))).
  { intros t0 e0 H0. generalize (K t0 e0 H0). apply StronglySorted_weaken.
    intros a b Ha Hb.
    apply (key_iff_played p data t0 e0 a Hinv H0) in Ha.
    apply (key_iff_played p data t0 e0 b Hinv H0) in Hb.
    rewrite !first_at_snoc.
    apply Nat.ltb_lt in Ha, Hb. now rewrite Ha, Hb. }
  rewrite record_lookup in He.
  destruct (String.eqb_spec t (Models.title (Models.movie x))) as [->|Hne];
    [|now apply Hold].
  injection He as <-. rewrite touch_keys.
  set (t := Models.title (Models.movie x)).
  set (n := Models.name (Models.theater x)).
  destruct (Dict.lookup t data) as [e0|] eqn:H0.
  - destruct (Dict.mem n (CinemaService.seances e0)) eqn:Hm;
      [now apply Hold|].
    apply StronglySorted_snoc; [now apply Hold|].
    rewrite Forall_forall. intros a Ha.
    apply (key_iff_played p data t e0 a Hinv H0) in Ha.
    assert (Hn : ~ (Arrival.first_at p t n < List.length p)%nat).
    { rewrite <- (key_iff_played p data t e0 n Hinv H0), <- mem_keys.
      congruence. }
    rewrite !first_at_snoc.
    apply Nat.ltb_lt in Ha as Hb. rewrite Hb.
    apply Nat.ltb_nlt in Hn. rewrite Hn.
    unfold Arrival.at_title_and_theater, t, n. rewrite !String.eqb_refl.
    exact Ha.
  - simpl. constructor; constructor.
Qed.

Lemma theater_order_fold p :
  forall t e, Dict.lookup t (fold_left CinemaService.record p []) = Some e ->
    StronglySorted
      (fun a b => (Arrival.first_at p t a < Arrival.first_at p t b)%nat)
      (Dict.keys (CinemaService.seances e)).
Proof.
  induction p as [|x p IH] using rev_ind; [discriminate|].
  rewrite fold_left_app. simpl.
  apply theater_order_step; [apply agg_inv_fold | exact IH].
Qed.

(** X24. In an entry [get_all_showtimes] returns, the theaters stand in
    the order in which each first had a showtime of the entry's title in
    the gathered list. *)
Theorem get_all_showtimes_theater_order {E : Env} (fuel : nat)
    (date : datetime) (s s' : state) (out : list CinemaService.Film) :
  CinemaService.get_all_showtimes fuel date s = (Some (Ok out), s') ->
  exists sts,
    CinemaService.gather fuel CinemaService.theaters date [] s
    = (Some (Ok sts), s')
    /\ forall e, In e out ->
         StronglySorted
           (fun a b => (Arrival.first_at sts (CinemaService.title e) a
                        < Arrival.first_at sts (CinemaService.title e) b)%nat)
           (Dict.keys (CinemaService.seances e)).
Proof.
  intros H. apply get_all_showtimes_inv in H. destruct H as (sts & Hg & ->).
  exists sts. split; [exact Hg|]. intros e He.
  apply aggregate_entry in He. now apply theater_order_fold in He.
Qed.

Lemma get_all_showtimes_theater_order_witness :
  exists sts,
    CinemaService.gather (E := Mock.two_theaters) 1
      (CinemaService.theaters (E := Mock.two_theaters)) Mock.may_1 []
      (Mock.start Mock.two_theaters tt)
    = (Some (Ok sts), snd Mock.gathered)
    /\ forall e, In e Mock.aggregated ->
         StronglySorted
           (fun a b => (Arrival.first_at sts (CinemaService.title e) a
                        < Arrival.first_at sts (CinemaService.title e) b)%nat)
           (Dict.keys (CinemaService.seances e)).
Proof.
  apply (get_all_showtimes_theater_order (E := Mock.two_theaters) 1 Mock.may_1
           (Mock.start Mock.two_theaters tt) (snd Mock.gathered)
           Mock.aggregated).
  reflexivity.
Defined.

(* ===================================================================== *)
(** ** Upstream failures *)
(* ===================================================================== *)

Section Discipline.
Context {E : Env}.

Lemma disciplined_pure {A} (o : option (result A)) :
  disciplined (fun s => (o, s)).
Proof.
  intros s. exists []. simpl. rewrite app_nil_r. split; [reflexivity|].
  left. constructor.
Qed.

Lemma disciplined_ret {A} (a : A) : disciplined (ret a).
Proof. apply disciplined_pure. Qed.

Lemma disciplined_lift {A} (r : result A) : disciplined (lift r).
Proof. apply disciplined_pure. Qed.

Lemma disciplined_out_of_fuel {A} : disciplined (@out_of_fuel E A).
Proof. apply disciplined_pure. Qed.

Lemma discipline_of_value {A} (a : A) gets :
  fetch_discipline (Some (Ok a)) gets ->
  Forall (fun c => answered_200 c = true) gets.
Proof.
  intros [H|[(pre & url & r & _ & _ & _ & H)|(pre & url & _ & _ & H)]];
    [exact H | discriminate H | discriminate H].
Qed.

Lemma discipline_prefix {A} (o : option (result A)) pre gets :
  Forall (fun c => answered_200 c = true) pre ->
  fetch_discipline o gets ->
  fetch_discipline o (pre ++ gets).
Proof.
  intros Hpre [H|[(p & url & r & -> & Hp & Hr & Ho)|(p & url & -> & Hp & Ho)]].
  - left. apply Forall_app. now split.
  - right. left. exists (pre ++ p), url, r.
    rewrite app_assoc. repeat split; try assumption.
    apply Forall_app. now split.
  - right. right. exists (pre ++ p), url.
    rewrite app_assoc. repeat split; try assumption.
    apply Forall_app. now split.
Qed.

Lemma discipline_raised {A B} (o : option (result A)) (o' : option (result B))
    gets :
  raised o = raised o' ->
  fetch_discipline o gets -> fetch_discipline o' gets.
Proof.
  intros Heq [H|[(p & url & r & -> & Hp & Hr & Ho)|(p & url & -> & Hp & Ho)]].
  - now left.
  - right. left. exists p, url, r. rewrite <- Heq. auto.
  - right. right. exists p, url. rewrite <- Heq. auto.
Qed.

Lemma disciplined_bind {A B} (m : M A) (k : A -> M B) :
  disciplined m -> (forall a, disciplined (k a)) -> disciplined (bindM m k).
Proof.
  intros Hm Hk s. unfold bindM.
  destruct (Hm s) as (g1 & Hc1 & Hd1).
  destruct (m s) as [[[a|e]|] s1]; simpl in Hc1, Hd1.
  - destruct (Hk a s1) as (g2 & Hc2 & Hd2).
    exists (g1 ++ g2). split.
    + now rewrite Hc2, Hc1, app_assoc.
    + apply discipline_prefix; [|exact Hd2].
      now apply discipline_of_value in Hd1.
  - exists g1. split; [exact Hc1|].
    now apply (discipline_raised (A := A) (Some (Raise e))).
  - exists g1. split; [exact Hc1|].
    now apply (discipline_raised (@None (result A))).
Qed.

Lemma disciplined_if {A} (b : bool) (m1 m2 : M A) :
  disciplined m1 -> disciplined m2 -> disciplined (if b then m1 else m2).
Proof. now destruct b. Qed.

Lemma disciplined_fetch self date page :
  disciplined (Models.fetch_showtimes_page self date page).
Proof.
  intros s. unfold Models.fetch_showtimes_page, bindM, client_get.
  destruct (http_get _ (world s)) as [[r|] w]; cbn [fst snd calls].
  - destruct (status_code r =? 200) eqn:Hst; cbn [negb].
    + exists [(Models.page_url self date page, Some r)].
      assert (Hall : Forall (fun c => answered_200 c = true)
                       [(Models.page_url self date page, Some r)]).
      { constructor; [exact Hst | constructor]. }
      destruct (json_body r); (split; [reflexivity | now left]).
    + exists [(Models.page_url self date page, Some r)].
      split; [reflexivity|]. right. left.
      exists [], (Models.page_url self date page), r.
      repeat split; try constructor.
      now apply Z.eqb_neq.
  - exists [(Models.page_url self date page, None)].
    split; [reflexivity|]. right. right.
    exists [], (Models.page_url self date page).
    repeat split; constructor.
Qed.

Lemma disciplined_loop fuel self date page acc :
  disciplined (Models.get_showtimes_loop fuel self date page acc).
Proof.
  revert page acc. induction fuel as [|fuel IH]; intros page acc.
  - apply disciplined_out_of_fuel.
  - cbn [Models.get_showtimes_loop].
    apply disciplined_bind; [apply disciplined_fetch|]. intros data.
    apply disciplined_bind; [apply disciplined_lift|]. intros stop.
    apply disciplined_if; [apply disciplined_ret|].
    apply disciplined_bind; [apply disciplined_lift|]. intros acc'.
    apply disciplined_bind; [apply disciplined_lift|]. intros last.
    apply disciplined_if; [apply disciplined_ret | apply IH].
Qed.

Lemma disciplined_gather fuel ts date acc :
  disciplined (CinemaService.gather fuel ts date acc).
Proof.
  revert acc. induction ts as [|t ts IH]; intros acc; simpl.
  - apply disciplined_ret.
  - apply disciplined_bind; [apply disciplined_loop|]. intros l. apply IH.
Qed.

Lemma disciplined_get_all_showtimes fuel date :
  disciplined (CinemaService.get_all_showtimes fuel date).
Proof.
  apply disciplined_bind; [apply disciplined_gather|].
  intros sts. apply disciplined_ret.
Qed.

End Discipline.

Lemma last_of_snoc {A} (pre post pre' : list A) (x y : A) :
  pre ++ x :: post = pre' ++ [y] ->
  (post = [] /\ pre = pre' /\ x = y) \/ In x pre'.
Proof.
  revert pre'. induction pre as [|a pre IH]; intros pre' H.
  - destruct pre' as [|b pre']; simpl in H.
    + injection H as -> ->. now left.
    + injection H as -> _. right. now left.
  - destruct pre' as [|b pre']; simpl in H.
    + injection H as _ H. destruct pre; discriminate.
    + injection H as -> H. destruct (IH _ H) as [(-> & -> & ->)|Hin].
      * now left.
      * right. now right.
Qed.

(** What the discipline says of a GET that was not answered 200 *)
Lemma discipline_failure {A} (o : option (result A)) pre url r post :
  fetch_discipline o (pre ++ (url, Some r) :: post) ->
  status_code r <> 200 ->
  post = []
  /\ Forall (fun c => answered_200 c = true) pre
  /\ o = Some (Raise (http_failure r)).
Proof.
  intros Hd Hr.
  assert (Hbad : answered_200 (url, Some r) <> true).
  { unfold answered_200. simpl. now rewrite Z.eqb_eq. }
  destruct Hd as [H|[(p & u & r' & Heq & Hp & _ & Ho)|(p & u & Heq & Hp & _)]].
  - apply Forall_app in H. destruct H as [_ H]. inversion H; subst. contradiction.
  - apply last_of_snoc in Heq. destruct Heq as [(-> & -> & [= _ <-])|Hin].
    + repeat split; try assumption.
      destruct o as [[a|e]|]; simpl in Ho; congruence.
    + rewrite Forall_forall in Hp. now apply Hp in Hin.
  - apply last_of_snoc in Heq. destruct Heq as [(_ & _ & [=])|Hin].
    rewrite Forall_forall in Hp. now apply Hp in Hin.
Qed.

(** C8. When a page GET made for any theater in the course of
    [get_all_showtimes] is answered with a status other than 200, the whole
    of [get_all_showtimes] ends with the exception raised for that
    response: no list is returned, the failing GET is the last one made
    (none is made again, none for a later page or theater), and all the
    GETs before it had been answered 200. *)
Theorem get_all_showtimes_upstream_failure {E : Env} (fuel : nat)
    (date : datetime) (s : state) pre url r post :
  calls (snd (CinemaService.get_all_showtimes fuel date s))
  = calls s ++ pre ++ (url, Some r) :: post ->
  status_code r <> 200 ->
  fst (CinemaService.get_all_showtimes fuel date s)
  = Some (Raise (Exception_ ("Error: " ++ PyStr.of_Z (status_code r)
                             ++ " - " ++ text r)))
  /\ post = []
  /\ Forall (fun c => answered_200 c = true) pre.
Proof.
  intros Hcalls Hr.
  destruct (disciplined_get_all_showtimes fuel date s) as (gets & Hg & Hd).
  rewrite Hg in Hcalls. apply app_inv_head in Hcalls. subst gets.
  destruct (discipline_failure _ _ _ _ _ Hd Hr) as (-> & Hpre & Ho).
  repeat split; assumption.
Qed.

Lemma get_all_showtimes_upstream_failure_witness :
  fst (CinemaService.get_all_showtimes (E := Mock.second_fails) 1 Mock.may_1
         (Mock.start Mock.second_fails tt))
  = Some (Raise (Exception_ "Error: 500 - Internal Server Error"))
  /\ @nil (string * option response) = []
  /\ Forall (fun c => answered_200 c = true)
            [(Models.page_url Mock.theater_a Mock.may_1 1, Some Mock.only_page)].
Proof.
  apply (get_all_showtimes_upstream_failure (E := Mock.second_fails) 1
           Mock.may_1 (Mock.start Mock.second_fails tt)
           [(Models.page_url Mock.theater_a Mock.may_1 1, Some Mock.only_page)]
           (Models.page_url Mock.theater_b Mock.may_1 1)
           Mock.server_error []).
  - reflexivity.
  - vm_compute. discriminate.
Defined.

(* ===================================================================== *)
(** ** Failures, theater by theater and at the route *)
(* ===================================================================== *)

(** What the discipline says of a GET that was not answered 200 *)
Lemma discipline_unanswered {A} (o : option (result A)) pre url r post :
  fetch_discipline o (pre ++ (url, r) :: post) ->
  answered_200 (url, r) = false ->
  post = []
  /\ Forall (fun c => answered_200 c = true) pre
  /\ o = Some (Raise (failure_of r)).
Proof.
  intros Hd Hr.
  assert (Hbad : answered_200 (url, r) <> true) by congruence.
  destruct Hd as [H|[(p & u & r' & Heq & Hp & _ & Ho)|(p & u & Heq & Hp & Ho)]].
  - apply Forall_app in H. destruct H as [_ H]. inversion H; subst. contradiction.
  - apply last_of_snoc in Heq. destruct Heq as [(-> & -> & [= _ ->])|Hin].
    + repeat split; try assumption.
      destruct o as [[a|e]|]; simpl in Ho; try discriminate.
      injection Ho as ->. reflexivity.
    + rewrite Forall_forall in Hp. now apply Hp in Hin.
  - apply last_of_snoc in Heq. destruct Heq as [(-> & -> & [= _ ->])|Hin].
    + repeat split; try assumption.
      destruct o as [[a|e]|]; simpl in Ho; try discriminate.
      injection Ho as ->. reflexivity.
    + rewrite Forall_forall in Hp. now apply Hp in Hin.
Qed.

(** X12. When a GET of [get_showtimes] is not answered 200 (the client
    fails, or the status is another), [get_showtimes] raises: the client's
    failure, or the exception "Error: <status> - <text>"; that GET is its
    last, every GET before it was answered 200, and the showtimes read from
    the pages before are not returned. *)
Theorem get_showtimes_failure {E : Env} (fuel : nat) (self : Models.Theater)
    (date : datetime) (s : state) pre url r post :
  calls (snd (Models.get_showtimes fuel self date s))
  = calls s ++ pre ++ (url, r) :: post ->
  answered_200 (url, r) = false ->
  fst (Models.get_showtimes fuel self date s) = Some (Raise (failure_of r))
  /\ post = []
  /\ Forall (fun c => answered_200 c = true) pre.
Proof.
  intros Hcalls Hr.
  destruct (disciplined_loop fuel self date 1 [] s) as (gets & Hg & Hd).
  unfold Models.get_showtimes in *.
  rewrite Hg in Hcalls. apply app_inv_head in Hcalls. subst gets.
  destruct (discipline_unanswered _ _ _ _ _ Hd Hr) as (-> & Hpre & Ho).
  repeat split; assumption.
Qed.

Section RouteFailure.
Context {E : Env}.

Lemma disciplined_today : disciplined datetime_today.
Proof.
  intros s. exists []. unfold datetime_today.
  destruct (today (world s)) as [d w]. simpl. rewrite app_nil_r.
  split; [reflexivity | left; constructor].
Qed.

Lemma disciplined_today_plus i : disciplined (Routes.today_plus i).
Proof.
  apply disciplined_bind; [apply disciplined_today|].
  intros t. apply disciplined_lift.
Qed.

Lemma disciplined_dates_loop delta range :
  disciplined (Routes.dates_loop delta range).
Proof.
  induction range as [|i range IH]; simpl; [apply disciplined_ret|].
  repeat (apply disciplined_bind; [apply disciplined_today_plus|]; intros ?).
  apply disciplined_bind; [exact IH|]. intros r. apply disciplined_ret.
Qed.

Lemma disciplined_home fuel delta : disciplined (Routes.home fuel delta).
Proof.
  unfold Routes.home.
  apply disciplined_bind; [apply disciplined_dates_loop|]. intros dates.
  apply disciplined_bind; [apply disciplined_today_plus|]. intros date.
  apply disciplined_bind; [apply disciplined_get_all_showtimes|].
  intros films. apply disciplined_ret.
Qed.

End RouteFailure.

(** X13. The home route has no answer of its own to an upstream failure:
    when a GET made while it runs is not answered 200, [home] ends with the
    exception of that GET (the client's failure, or "Error: <status> -
    <text>"), no context is handed to the template, and no GET follows the
    failed one. *)
Theorem home_upstream_failure {E : Env} (fuel : nat) (delta : Z) (s : state)
    pre url r post :
  calls (snd (Routes.home fuel delta s)) = calls s ++ pre ++ (url, r) :: post ->
  answered_200 (url, r) = false ->
  fst (Routes.home fuel delta s) = Some (Raise (failure_of r))
  /\ post = []
  /\ Forall (fun c => answered_200 c = true) pre.
Proof.
  intros Hcalls Hr.
  destruct (disciplined_home fuel delta s) as (gets & Hg & Hd).
  rewrite Hg in Hcalls. apply app_inv_head in Hcalls. subst gets.
  destruct (discipline_unanswered _ _ _ _ _ Hd Hr) as (-> & Hpre & Ho).
  repeat split; assumption.
Qed.

Lemma get_showtimes_failure_witness :
  fst (Models.get_showtimes (E := Mock.line_drops) 3 Mock.test_theater
         Mock.may_1 (Mock.start Mock.line_drops tt))
  = Some (Raise TransportError)
  /\ @nil (string * option response) = []
  /\ Forall (fun c => answered_200 c = true)
            [(Models.page_url Mock.test_theater Mock.may_1 1,
              Some Mock.first_page)].
Proof.
  apply (get_showtimes_failure (E := Mock.line_drops) 3 Mock.test_theater
           Mock.may_1 (Mock.start Mock.line_drops tt)
           [(Models.page_url Mock.test_theater Mock.may_1 1,
             Some Mock.first_page)]
           (Models.page_url Mock.test_theater Mock.may_1 2) None []).
  - reflexivity.
  - reflexivity.
Defined.

Lemma home_upstream_failure_witness :
  fst (Routes.home (E := Mock.second_fails) 1 0
         (Mock.start Mock.second_fails tt))
  = Some (Raise (Exception_ "Error: 500 - Internal Server Error"))
  /\ @nil (string * option response) = []
  /\ Forall (fun c => answered_200 c = true)
            [(Models.page_url Mock.theater_a Mock.may_1 1, Some Mock.only_page)].
Proof.
  apply (home_upstream_failure (E := Mock.second_fails) 1 0
           (Mock.start Mock.second_fails tt)
           [(Models.page_url Mock.theater_a Mock.may_1 1, Some Mock.only_page)]
           (Models.page_url Mock.theater_b Mock.may_1 1)
           (Some Mock.server_error) []).
  - reflexivity.
  - reflexivity.
Defined.

(* ===================================================================== *)
(** ** The round of the theaters *)
(* ===================================================================== *)

Section Tour.
Context {E : Env}.

Lemma gather_tour fuel date ts (s s' : state) ls :
  tour fuel date ts s ls s' ->
  forall rest acc,
    CinemaService.gather fuel (ts ++ rest) date acc s
    = CinemaService.gather fuel rest date (acc ++ List.concat ls) s'.
Proof.
  induction 1 as [s|t ts s l s1 ls s2 Ht _ IH]; intros rest acc.
  - simpl. now rewrite app_nil_r.
  - cbn [app CinemaService.gather]. unfold bindM at 1. rewrite Ht.
    rewrite IH. cbn [List.concat]. now rewrite app_assoc.
Qed.

End Tour.

(** X14. [get_all_showtimes] visits the configured theaters in the order
    of the configuration, each from the state the one before left; when
    every visit returns, the showtimes aggregated are those of the visits
    put end to end in that order. *)
Theorem get_all_showtimes_tour {E : Env} (fuel : nat) (date : datetime)
    (s s' : state) (ls : list (list Models.Showtime)) :
  tour fuel date CinemaService.theaters s ls s' ->
  CinemaService.get_all_showtimes fuel date s
  = (Some (Ok (CinemaService.aggregate (List.concat ls))), s').
Proof.
  intros H. unfold CinemaService.get_all_showtimes, bindM.
  rewrite <- (app_nil_r CinemaService.theaters).
  rewrite (gather_tour _ _ _ _ _ _ H [] []). reflexivity.
Qed.

Lemma get_all_showtimes_tour_witness :
  CinemaService.get_all_showtimes (E := Mock.two_theaters) 1 Mock.may_1
    (Mock.start Mock.two_theaters tt)
  = (Some (Ok (CinemaService.aggregate
                 (List.concat [fst Mock.visit_a; fst Mock.visit_b]))),
     snd Mock.visit_b).
Proof.
  apply (get_all_showtimes_tour (E := Mock.two_theaters) 1 Mock.may_1
           (Mock.start Mock.two_theaters tt) (snd Mock.visit_b)
           [fst Mock.visit_a; fst Mock.visit_b]).
  apply (tour_cons (E := Mock.two_theaters) 1 Mock.may_1 Mock.theater_a
           [Mock.theater_b] _ (fst Mock.visit_a) (snd Mock.visit_a)
           [fst Mock.visit_b] (snd Mock.visit_b));
    [reflexivity|].
  apply (tour_cons (E := Mock.two_theaters) 1 Mock.may_1 Mock.theater_b
           [] _ (fst Mock.visit_b) (snd Mock.visit_b) [] (snd Mock.visit_b));
    [reflexivity|].
  apply tour_nil.
Defined.

(** X15. The first theater whose visit does not return ends the request:
    [get_all_showtimes] ends as that visit ended (with its exception, or
    still running when the fuel is spent), in the state that visit left, so
    that no theater after it is asked anything and the showtimes of the
    theaters before it are not returned. *)
Theorem get_all_showtimes_first_failure {E : Env} (fuel : nat)
    (date : datetime) (s s1 s2 : state) before t after ls
    (o : option (result (list Models.Showtime))) :
  CinemaService.theaters = before ++ t :: after ->
  tour fuel date before s ls s1 ->
  Models.get_showtimes fuel t date s1 = (o, s2) ->
  (forall l, o <> Some (Ok l)) ->
  CinemaService.get_all_showtimes fuel date s = (as_failure o, s2).
Proof.
  intros Hts Htour Ht Ho.
  unfold CinemaService.get_all_showtimes. unfold bindM at 1.
  rewrite Hts, (gather_tour _ _ _ _ _ _ Htour).
  cbn [CinemaService.gather]. unfold bindM at 1. rewrite Ht.
  destruct o as [[l|e]|]; [now elim (Ho l) | reflexivity | reflexivity].
Qed.

Lemma get_all_showtimes_first_failure_witness :
  CinemaService.get_all_showtimes (E := Mock.second_fails) 1 Mock.may_1
    (Mock.start Mock.second_fails tt)
  = (Some (Raise (Exception_ "Error: 500 - Internal Server Error")),
     snd (Models.get_showtimes (E := Mock.second_fails) 1 Mock.theater_b
            Mock.may_1 (snd Mock.visit_before_failure))).
Proof.
  apply (get_all_showtimes_first_failure (E := Mock.second_fails) 1 Mock.may_1
           (Mock.start Mock.second_fails tt)
           (snd Mock.visit_before_failure)
           (snd (Models.get_showtimes (E := Mock.second_fails) 1 Mock.theater_b
                   Mock.may_1 (snd Mock.visit_before_failure)))
           [Mock.theater_a] Mock.theater_b []
           [fst Mock.visit_before_failure]
           (Some (Raise (Exception_ "Error: 500 - Internal Server Error")))).
  - reflexivity.
  - apply (tour_cons (E := Mock.second_fails) 1 Mock.may_1 Mock.theater_a
             [] _ (fst Mock.visit_before_failure)
             (snd Mock.visit_before_failure) []
             (snd Mock.visit_before_failure));
      [reflexivity | apply tour_nil].
  - reflexivity.
  - discriminate.
Defined.

(* ===================================================================== *)
(** ** The home route *)
(* ===================================================================== *)

Section Home.
Context {E : Env}.

Lemma home_clamp fuel delta :
  Routes.home fuel delta = Routes.home fuel (clamp delta).
Proof.
  unfold Routes.home, clamp.
  destruct (Z.gtb_spec delta 6) as [Hgt|Hle].
  - replace (Z.max 0 (Z.min 6 delta)) with 6 by lia. reflexivity.
  - destruct (Z.ltb_spec delta 0) as [Hlt|Hge].
    + replace (Z.max 0 (Z.min 6 delta)) with 0 by lia. reflexivity.
    + replace (Z.max 0 (Z.min 6 delta)) with delta by lia.
      destruct (Z.gtb_spec delta 6); [lia|].
      destruct (Z.ltb_spec delta 0); [lia|]. reflexivity.
Qed.

Lemma home_in_range fuel delta :
  0 <= delta <= 6 ->
  Routes.home fuel delta
  = (dates <- Routes.dates_loop delta [0; 1; 2; 3; 4; 5; 6] ;;
     date <- Routes.today_plus delta ;;
     films <- CinemaService.get_all_showtimes fuel date ;;
     ret (Routes.mk_Context films dates
            (map (fun data => Routes.mk_CinemaEntry (cinema_coordinates data)
                                                    (cinema_name data))
                 (Dict.values CINEMAS)))).
Proof.
  intros H. unfold Routes.home.
  destruct (Z.gtb_spec delta 6); [lia|].
  destruct (Z.ltb_spec delta 0); [lia|]. reflexivity.
Qed.

(** The day entries carry the indices of the range, and the one selected
    is the one whose index is [delta]. *)
Lemma dates_loop_shape delta range (s s' : state) l :
  Routes.dates_loop delta range s = (Some (Ok l), s') ->
  map Routes.index l = range
  /\ map Routes.choisi l = map (fun i => i =? delta) range.
Proof.
  revert s s' l. induction range as [|i range IH]; intros s s' l; simpl.
  - unfold ret. intros [= <- _]. now split.
  - unfold bindM at 1.
    destruct (Routes.today_plus i s) as [[[d1|]|] s1]; try discriminate.
    unfold bindM at 1.
    destruct (Routes.today_plus i s1) as [[[d2|]|] s2]; try discriminate.
    unfold bindM at 1.
    destruct (Routes.today_plus i s2) as [[[d3|]|] s3]; try discriminate.
    unfold bindM at 1.
    destruct (Routes.dates_loop delta range s3) as [[[r|]|] s4] eqn:Hr;
      try discriminate.
    unfold ret. intros [= <- _]. simpl.
    destruct (IH _ _ _ Hr) as [-> ->]. now split.
Qed.

Lemma home_selection fuel delta (s s' : state) ctx :
  Routes.home fuel delta s = (Some (Ok ctx), s') ->
  map Routes.index (Routes.dates ctx) = [0; 1; 2; 3; 4; 5; 6]
  /\ map Routes.choisi (Routes.dates ctx)
     = map (fun i => i =? clamp delta) [0; 1; 2; 3; 4; 5; 6].
Proof.
  rewrite home_clamp, home_in_range by (unfold clamp; lia).
  unfold bindM at 1.
  destruct (Routes.dates_loop _ _ s) as [[[l|]|] s1] eqn:Hl; try discriminate.
  unfold bindM at 1.
  destruct (Routes.today_plus _ s1) as [[[d|]|] s2]; try discriminate.
  unfold bindM at 1.
  destruct (CinemaService.get_all_showtimes fuel d s2) as [[[films|]|] s3];
    try discriminate.
  unfold ret. intros [= <- _]. simpl.
  exact (dates_loop_shape _ _ _ _ _ Hl).
Qed.

(** The date whose schedule is asked for is the clock's date moved by
    [clamp delta] days. *)
Lemma home_schedule_date fuel delta :
  Routes.home fuel delta
  = (dates <- Routes.dates_loop (clamp delta) [0; 1; 2; 3; 4; 5; 6] ;;
     date <- Routes.today_plus (clamp delta) ;;
     films <- CinemaService.get_all_showtimes fuel date ;;
     ret (Routes.mk_Context films dates
            (map (fun data => Routes.mk_CinemaEntry (cinema_coordinates data)
                                                    (cinema_name data))
                 (Dict.values CINEMAS)))).
Proof.
  rewrite home_clamp. apply home_in_range. unfold clamp. lia.
Qed.

End Home.

(** C9. The home route clamps [delta] to [0, 6]: a request with any
    [delta] does what the request with its clamped value does, from the
    same state of the world; so [delta = 10] does what [delta = 6] does and
    [delta = -5] what [delta = 0] does: the schedule is asked for the
    clock's date moved by the clamped number of days, and in a page that is
    rendered the day selected among the seven is the one of that index. *)
Theorem home_clamps_delta {E : Env} (fuel : nat) :
  Routes.home fuel 10 = Routes.home fuel 6
  /\ Routes.home fuel (-5) = Routes.home fuel 0
  /\ (forall delta,
        0 <= clamp delta <= 6
        /\ (6 < delta -> clamp delta = 6)
        /\ (delta < 0 -> clamp delta = 0)
        /\ (0 <= delta <= 6 -> clamp delta = delta)
        /\ Routes.home fuel delta = Routes.home fuel (clamp delta)
        /\ Routes.home fuel delta
           = (dates <- Routes.dates_loop (clamp delta) [0; 1; 2; 3; 4; 5; 6] ;;
              date <- Routes.today_plus (clamp delta) ;;
              films <- CinemaService.get_all_showtimes fuel date ;;
              ret (Routes.mk_Context films dates
                     (map (fun data =>
                             Routes.mk_CinemaEntry (cinema_coordinates data)
                                                   (cinema_name data))
                          (Dict.values CINEMAS)))))
  /\ (forall delta (s s' : state) ctx,
        Routes.home fuel delta s = (Some (Ok ctx), s') ->
        map Routes.index (Routes.dates ctx) = [0; 1; 2; 3; 4; 5; 6]
        /\ map Routes.choisi (Routes.dates ctx)
           = map (fun i => i =? clamp delta) [0; 1; 2; 3; 4; 5; 6]).
Proof.
  split; [|split; [|split]].
  - now rewrite (home_clamp fuel 10).
  - now rewrite (home_clamp fuel (-5)).
  - intros delta. unfold clamp at 1 2 3 4 5 6.
    repeat split; try lia.
    + apply home_clamp.
    + apply home_schedule_date.
  - intros delta s s' ctx. apply home_selection.
Qed.

Lemma home_clamps_delta_witness :
  map Routes.index (Routes.dates Mock.context_10) = [0; 1; 2; 3; 4; 5; 6]
  /\ map Routes.choisi (Routes.dates Mock.context_10)
     = map (fun i => i =? clamp 10) [0; 1; 2; 3; 4; 5; 6].
Proof.
  apply (proj2 (proj2 (proj2 (home_clamps_delta (E := Mock.quiet_week) 1)))
           10 (Mock.start Mock.quiet_week tt) (snd Mock.home_10)
           Mock.context_10).
  reflexivity.
Defined.

(* ===================================================================== *)
(** ** The translators, and the week the home page shows *)
(* ===================================================================== *)

Lemma translate_day_sentinel (weekday : Z) :
  CinemaService.translate_day weekday = "???" <-> ~ (0 <= weekday <= 6).
Proof.
  destruct weekday as [|p|p]; simpl.
  - split; [discriminate | lia].
  - destruct p as [[[p|p|]|[p|p|]|]|[[p|p|]|[p|p|]|]|]; simpl;
      split; intros H; try reflexivity; try discriminate H; lia.
  - split; [lia | reflexivity].
Qed.

Lemma translate_month_sentinel (num : Z) :
  CinemaService.translate_month num = "???" <-> ~ (1 <= num <= 12).
Proof.
  destruct num as [|p|p]; simpl.
  - split; [lia | reflexivity].
  - destruct p as [[[[p|p|]|[p|p|]|]|[[p|p|]|[p|p|]|]|]
                  |[[[p|p|]|[p|p|]|]|[[p|p|]|[p|p|]|]|]|]; simpl;
      split; intros H; try reflexivity; try discriminate H; lia.
  - split; [lia | reflexivity].
Qed.

Lemma translate_day_inj (a b : Z) :
  0 <= a <= 6 -> 0 <= b <= 6 ->
  CinemaService.translate_day a = CinemaService.translate_day b -> a = b.
Proof.
  intros Ha Hb.
  assert (Hc : forall x, 0 <= x <= 6 ->
             x = 0 \/ x = 1 \/ x = 2 \/ x = 3 \/ x = 4 \/ x = 5 \/ x = 6)
    by (intros; lia).
  destruct (Hc a Ha) as [->|[->|[->|[->|[->|[->| ->]]]]]];
    destruct (Hc b Hb) as [->|[->|[->|[->|[->|[->| ->]]]]]];
    simpl; intros H; try reflexivity; discriminate H.
Qed.

Lemma translate_month_inj (a b : Z) :
  1 <= a <= 12 -> 1 <= b <= 12 ->
  CinemaService.translate_month a = CinemaService.translate_month b -> a = b.
Proof.
  intros Ha Hb.
  assert (Hc : forall x, 1 <= x <= 12 ->
             x = 1 \/ x = 2 \/ x = 3 \/ x = 4 \/ x = 5 \/ x = 6 \/ x = 7
             \/ x = 8 \/ x = 9 \/ x = 10 \/ x = 11 \/ x = 12)
    by (intros; lia).
  destruct (Hc a Ha) as [->|[->|[->|[->|[->|[->|[->|[->|[->|[->|[->| ->]]]]]]]]]]];
    destruct (Hc b Hb) as [->|[->|[->|[->|[->|[->|[->|[->|[->|[->|[->| ->]]]]]]]]]]];
    simpl; intros H; try reflexivity; discriminate H.
Qed.

(** X18. [translate_day] gives the sentinel "???" exactly on the integers
    outside 0..6, negative ones included, and on 0..6 it gives seven
    different names. *)
Theorem translate_day_total :
  (forall weekday,
      CinemaService.translate_day weekday = "???" <-> ~ (0 <= weekday <= 6))
  /\ (forall a b, 0 <= a <= 6 -> 0 <= b <= 6 ->
        CinemaService.translate_day a = CinemaService.translate_day b ->
        a = b).
Proof. split; [apply translate_day_sentinel | apply translate_day_inj]. Qed.

Lemma translate_day_total_witness : 3 = 3.
Proof.
  apply (proj2 translate_day_total 3 3); [lia | lia | reflexivity].
Defined.

(** X19. [translate_month] gives the sentinel "???" exactly on the
    integers outside 1..12, and on 1..12 it gives twelve different names. *)
Theorem translate_month_total :
  (forall num,
      CinemaService.translate_month num = "???" <-> ~ (1 <= num <= 12))
  /\ (forall a b, 1 <= a <= 12 -> 1 <= b <= 12 ->
        CinemaService.translate_month a = CinemaService.translate_month b ->
        a = b).
Proof. split; [apply translate_month_sentinel | apply translate_month_inj]. Qed.

Lemma translate_month_total_witness : 8 = 8.
Proof.
  apply (proj2 translate_month_total 8 8); [lia | lia | reflexivity].
Defined.

Lemma weekday_range (d : datetime) : 0 <= weekday d <= 6.
Proof.
  unfold weekday. pose proof (Z.mod_pos_bound (toordinal d + 6) 7). lia.
Qed.

Lemma month_scan (f : Z -> nat -> Z) (l : list nat) (m0 : Z) :
  (forall m k, f m k = m \/ f m k = Z.of_nat k) ->
  fold_left f l m0 = m0 \/ exists k, In k l /\ fold_left f l m0 = Z.of_nat k.
Proof.
  intros Hf. revert m0. induction l as [|k l IH]; intros m0; simpl; [now left|].
  destruct (IH (f m0 k)) as [H|(k' & Hk' & H)].
  - rewrite H. destruct (Hf m0 k) as [-> | ->]; [now left|].
    right. exists k. auto.
  - right. exists k'. auto.
Qed.

Lemma ord2ymd_month (n : Z) : 1 <= snd (fst (ord2ymd n)) <= 12.
Proof.
  unfold ord2ymd. cbv zeta.
  match goal with |- context [if ?b then _ else _] => destruct b end;
    cbn [fst snd]; [lia|].
  match goal with
  | |- context [fold_left ?f ?l ?m0] =>
      destruct (month_scan f l m0) as [H|(k & Hk & H)];
        [intros m k; cbv beta;
         match goal with |- context [if ?c then _ else _] => destruct c end;
         auto
        | rewrite H; lia
        | rewrite H; apply in_seq in Hk; lia]
  end.
Qed.

Lemma add_days_month (t d : datetime) (i : Z) :
  add_days t i = Ok d -> 1 <= month d <= 12.
Proof.
  unfold add_days. destruct (_ && _)%bool; [|discriminate].
  pose proof (ord2ymd_month (toordinal t + i)) as H.
  destruct (ord2ymd (toordinal t + i)) as [[y m] dd]. cbn [fst snd] in H.
  intros [= <-]. exact H.
Qed.

Section Week.
Context {E : Env}.

Lemma today_plus_month i (s s1 : state) d :
  Routes.today_plus i s = (Some (Ok d), s1) -> 1 <= month d <= 12.
Proof.
  unfold Routes.today_plus, bindM, datetime_today, lift.
  destruct (today (world s)) as [t w].
  destruct (add_days t i) as [d'|] eqn:Hd; [|discriminate].
  intros [= <- _]. now apply add_days_month in Hd.
Qed.

Lemma dates_loop_named delta range (s s' : state) l :
  Routes.dates_loop delta range s = (Some (Ok l), s') ->
  List.length l = List.length range
  /\ Forall (fun e => Routes.jour e <> "???" /\ Routes.mois e <> "???") l.
Proof.
  revert s s' l. induction range as [|i range IH]; intros s s' l; simpl.
  - unfold ret. intros [= <- _]. split; [reflexivity | constructor].
  - unfold bindM at 1.
    destruct (Routes.today_plus i s) as [[[d1|]|] s1]; try discriminate.
    unfold bindM at 1.
    destruct (Routes.today_plus i s1) as [[[d2|]|] s2]; try discriminate.
    unfold bindM at 1.
    destruct (Routes.today_plus i s2) as [[[d3|]|] s3] eqn:H3; try discriminate.
    unfold bindM at 1.
    destruct (Routes.dates_loop delta range s3) as [[[r|]|] s4] eqn:Hr;
      try discriminate.
    unfold ret. intros [= <- _].
    destruct (IH _ _ _ Hr) as [Hlen Hall]. split; [simpl; now rewrite Hlen|].
    constructor; [|exact Hall]. cbn [Routes.jour Routes.mois]. split.
    + rewrite translate_day_sentinel. pose proof (weekday_range d1). tauto.
    + rewrite translate_month_sentinel.
      pose proof (today_plus_month _ _ _ _ H3). tauto.
Qed.

End Week.

(** X20. A home page that is rendered shows seven days, and none of them
    under the sentinel: no day name and no month name of the week is
    "???". *)
Theorem home_week_named {E : Env} (fuel : nat) (delta : Z) (s s' : state)
    (ctx : Routes.Context) :
  Routes.home fuel delta s = (Some (Ok ctx), s') ->
  List.length (Routes.dates ctx) = 7%nat
  /\ Forall (fun e => Routes.jour e <> "???" /\ Routes.mois e <> "???")
            (Routes.dates ctx).
Proof.
  unfold Routes.home. unfold bindM at 1.
  destruct (Routes.dates_loop _ _ s) as [[[l|]|] s1] eqn:Hl; try discriminate.
  unfold bindM at 1.
  destruct (Routes.today_plus _ s1) as [[[d|]|] s2]; try discriminate.
  unfold bindM at 1.
  destruct (CinemaService.get_all_showtimes fuel d s2) as [[[films|]|] s3];
    try discriminate.
  unfold ret. intros [= <- _]. cbn [Routes.dates].
  exact (dates_loop_named _ _ _ _ _ Hl).
Qed.

Lemma home_week_named_witness :
  List.length (Routes.dates Mock.context_10) = 7%nat
  /\ Forall (fun e => Routes.jour e <> "???" /\ Routes.mois e <> "???")
            (Routes.dates Mock.context_10).
Proof.
  apply (home_week_named (E := Mock.quiet_week) 1 10
           (Mock.start Mock.quiet_week tt) (snd Mock.home_10) Mock.context_10).
  reflexivity.
Defined.
